(** * VoicePay: the recurring-payment scheduler, the per-user store and the
    worker-to-backend authentication, embedded from
    [VoicePayBackend/cloudflare/voicepay-worker/src/worker.js],
    [VoicePayBackend/middleware/workerAuth.js] and the handler of
    [/process-recurring] in [VoicePayBackend/routes/transactions.js].

    JavaScript objects are finite maps from field names to values, the
    Durable Object storage and the KV index are explicit states, and the
    calls the code makes to the outside (clock, random source, executor
    endpoint, signature recovery, HMAC) are inputs of the functions. *)

From Stdlib Require Import ZArith Lia Ascii String.
From stdpp Require Import base option list strings gmap fin_maps relations sorting.

(** ** JavaScript values *)

Module JS.

(** Numbers are the integers of the data model (time values, counters,
    [intervalMs], amounts in whole units) plus [NaN].  A number with a
    fractional part and the infinities have no value here: what is
    proved about a field is proved for the integers, [NaN] and the
    values that are not numbers. *)
Inductive value :=
  | VUndef
  | VNull
  | VBool (b : bool)
  | VNum (n : Z)
  | VNaN
  | VStr (s : string).

#[global] Instance value_eq_dec : EqDecision value.
Proof. solve_decision. Defined.

(** ToBoolean. *)
Definition truthy (v : value) : bool :=
  match v with
  | VUndef | VNull | VNaN => false
  | VBool b => b
  | VNum n => negb (n =? 0)%Z
  | VStr s => negb (String.eqb s "")
  end.

(** [a || b]. *)
Definition or_else (a b : value) : value := if truthy a then a else b.

(** An object is a finite map; reading an absent field gives [undefined]. *)
Definition get (o : gmap string value) (k : string) : value :=
  default VUndef (o !! k).

(** What [JSON.parse (JSON.stringify o)] keeps of a flat object: fields
    holding [undefined] are dropped and [NaN] is written as [null]. *)
Definition json_value (v : value) : option value :=
  match v with
  | VUndef => None
  | VNaN => Some VNull
  | _ => Some v
  end.

Definition json (o : gmap string value) : gmap string value :=
  omap json_value o.

(** A field read after that round trip. *)
Definition afterJson (v : value) : value :=
  match v with VNaN => VNull | _ => v end.

(** *** Numbers as text *)

Local Open Scope Z_scope.

Definition digit (d : Z) : ascii := ascii_of_nat (48 + Z.to_nat d).

(** The decimal digits of [z >= 0] in front of [acc]; [fuel] bounds the
    number of digits after the first. *)
Fixpoint decimal (fuel : nat) (z : Z) (acc : string) : string :=
  let acc' := String (digit (z mod 10)) acc in
  match fuel with
  | O => acc'
  | S f => if z <? 10 then acc' else decimal f (z / 10) acc'
  end.

(** [n.toString()] and the text of [n] in a template literal. *)
Definition toString (n : Z) : string :=
  if n <? 0 then String "-" (decimal (Z.to_nat (Z.log2 (- n))) (- n) "")
  else decimal (Z.to_nat (Z.log2 n)) n "".

(** *** [Math.random()]

    A double in the interval from 0 (included) to 1 (excluded) is
    [mant * 2^(-expo)] with a mantissa below [2^53] and an exponent
    between 53 and 1074 (normal and subnormal numbers alike). *)
Record random := { mant : Z; expo : Z }.

Definition random_ok (r : random) : Prop :=
  0 <= mant r < 2 ^ 53 /\ 53 <= expo r <= 1074.

(** Rounding of a non-negative integer to 53 significant bits, ties to
    even: the rounding of a double product. *)
Definition round53 (p : Z) : Z :=
  let b := Z.log2 p + 1 in
  if b <=? 53 then p
  else
    let sh := b - 53 in
    let q := p / 2 ^ sh in
    let r := p mod 2 ^ sh in
    let half := 2 ^ (sh - 1) in
    if (r <? half) || ((r =? half) && Z.even q) then q * 2 ^ sh
    else (q + 1) * 2 ^ sh.

(** [Math.floor(Math.random() * c)], which is also [(Math.random() * c) | 0]
    for [c] below [2^31]: the product is rounded as a double, then cut. *)
Definition floorMul (r : random) (c : Z) : Z :=
  round53 (mant r * c) / 2 ^ expo r.

End JS.

(** ** Dates: the time values of ECMA-262 (section 21.4.1)

    A [Date] holds a time value, an integer number of milliseconds since
    the epoch, or [NaN] (here [None]) when it is invalid. *)

Module Date.
Local Open Scope Z_scope.

Definition msPerDay : Z := 86400000.

Definition Day (t : Z) : Z := t / msPerDay.
Definition TimeWithinDay (t : Z) : Z := t mod msPerDay.

Definition DayFromYear (y : Z) : Z :=
  365 * (y - 1970) + (y - 1969) / 4 - (y - 1901) / 100 + (y - 1601) / 400.

Definition InLeapYear (y : Z) : bool :=
  ((y mod 4 =? 0) && negb (y mod 100 =? 0)) || (y mod 400 =? 0).

Definition DaysInYear (y : Z) : Z := if InLeapYear y then 366 else 365.

(** The largest year whose first day is not after day [d]: an estimate
    from the mean length of a year, corrected by at most one. *)
Definition YearFromDay (d : Z) : Z :=
  let y := 1970 + (400 * d) / 146097 in
  if DayFromYear (y + 1) <=? d then y + 1
  else if DayFromYear y <=? d then y
  else y - 1.

Definition YearFromTime (t : Z) : Z := YearFromDay (Day t).

Definition DayWithinYear (t : Z) : Z := Day t - DayFromYear (YearFromTime t).

(** Number of days of the year before month [m] (0 = January). *)
Definition monthStart (leap : bool) (m : Z) : Z :=
  let l := if leap then 1 else 0 in
  match m with
  | 0 => 0
  | 1 => 31
  | 2 => 59 + l
  | 3 => 90 + l
  | 4 => 120 + l
  | 5 => 151 + l
  | 6 => 181 + l
  | 7 => 212 + l
  | 8 => 243 + l
  | 9 => 273 + l
  | 10 => 304 + l
  | 11 => 334 + l
  | _ => 365 + l
  end.

Definition monthOfDay (leap : bool) (d : Z) : Z :=
  if d <? monthStart leap 1 then 0
  else if d <? monthStart leap 2 then 1
  else if d <? monthStart leap 3 then 2
  else if d <? monthStart leap 4 then 3
  else if d <? monthStart leap 5 then 4
  else if d <? monthStart leap 6 then 5
  else if d <? monthStart leap 7 then 6
  else if d <? monthStart leap 8 then 7
  else if d <? monthStart leap 9 then 8
  else if d <? monthStart leap 10 then 9
  else if d <? monthStart leap 11 then 10
  else 11.

Definition MonthFromTime (t : Z) : Z :=
  monthOfDay (InLeapYear (YearFromTime t)) (DayWithinYear t).

Definition DateFromTime (t : Z) : Z :=
  DayWithinYear t
  - monthStart (InLeapYear (YearFromTime t)) (MonthFromTime t) + 1.

Definition HourFromTime (t : Z) : Z := (t / 3600000) mod 24.
Definition MinFromTime (t : Z) : Z := (t / 60000) mod 60.
Definition SecFromTime (t : Z) : Z := (t / 1000) mod 60.
Definition msFromTime (t : Z) : Z := t mod 1000.

Definition MakeTime (h m s ms : Z) : Z :=
  h * 3600000 + m * 60000 + s * 1000 + ms.

Definition MakeDay (year month date : Z) : Z :=
  let ym := year + month / 12 in
  let mn := month mod 12 in
  DayFromYear ym + monthStart (InLeapYear ym) mn + date - 1.

Definition MakeDate (day time : Z) : Z := day * msPerDay + time.

Definition maxTime : Z := 8640000000000000.

Definition TimeClip (t : Z) : option Z :=
  if Z.abs t <=? maxTime then Some t else None.

(** [d.setTime(t)] *)
Definition setTime (t : Z) : option Z := TimeClip t.

(** [d.setUTCDate(dt)] on a valid date. *)
Definition setUTCDate (t dt : Z) : option Z :=
  TimeClip (MakeDate (MakeDay (YearFromTime t) (MonthFromTime t) dt)
                     (TimeWithinDay t)).

(** [d.setUTCMonth(m)]: the day of the month is kept as it is. *)
Definition setUTCMonth (t m : Z) : option Z :=
  TimeClip (MakeDate (MakeDay (YearFromTime t) m (DateFromTime t))
                     (TimeWithinDay t)).

(** [d.setUTCFullYear(y)] *)
Definition setUTCFullYear (t y : Z) : option Z :=
  TimeClip (MakeDate (MakeDay y (MonthFromTime t) (DateFromTime t))
                     (TimeWithinDay t)).

(** *** The ISO format written by [toISOString] *)

Definition digit := JS.digit.

(** [pad n z rest]: the last [n] decimal digits of [z], then [rest]. *)
Fixpoint pad (n : nat) (z : Z) (rest : string) : string :=
  match n with
  | O => rest
  | S n' => pad n' (z / 10) (String (digit (z mod 10)) rest)
  end.

Definition isoYear (y : Z) (rest : string) : string :=
  if (0 <=? y) && (y <=? 9999) then pad 4 y rest
  else if 0 <=? y then String "+" (pad 6 y rest)
  else String "-" (pad 6 (- y) rest).

(** [d.toISOString()] on a valid date: [YYYY-MM-DDTHH:mm:ss.sssZ]. *)
Definition toISOString (t : Z) : string :=
  isoYear (YearFromTime t)
    (String "-" (pad 2 (MonthFromTime t + 1)
    (String "-" (pad 2 (DateFromTime t)
    (String "T" (pad 2 (HourFromTime t)
    (String ":" (pad 2 (MinFromTime t)
    (String ":" (pad 2 (SecFromTime t)
    (String "." (pad 3 (msFromTime t) "Z")))))))))))).

(** *** Reading the ISO format back ([new Date(string)]) *)

Definition digitVal (c : ascii) : option Z :=
  let n := Z.of_nat (nat_of_ascii c) in
  if (48 <=? n) && (n <=? 57) then Some (n - 48) else None.

(** Reads exactly [n] decimal digits. *)
Fixpoint readDigits (n : nat) (acc : Z) (s : string) : option (Z * string) :=
  match n with
  | O => Some (acc, s)
  | S n' =>
      match s with
      | String c s' =>
          match digitVal c with
          | Some d => readDigits n' (acc * 10 + d) s'
          | None => None
          end
      | EmptyString => None
      end
  end.

Definition expect (c : ascii) (s : string) : option string :=
  match s with
  | String c' s' => if Ascii.eqb c c' then Some s' else None
  | EmptyString => None
  end.

Definition readYear (s : string) : option (Z * string) :=
  match s with
  | String "+" s' => readDigits 6 0 s'
  | String "-" s' =>
      '(y, r) ← readDigits 6 0 s';
      if y =? 0 then None else Some (- y, r)
  | _ => readDigits 4 0 s
  end.

(** Milliseconds: either nothing or a dot and three digits, then [Z] and
    the end of the string. *)
Definition readTail (s : string) : option Z :=
  match s with
  | String "Z" EmptyString => Some 0
  | String "." s' =>
      '(ms, r) ← readDigits 3 0 s';
      match r with String "Z" EmptyString => Some ms | _ => None end
  | _ => None
  end.

(** The date-time form of the ISO format with the [Z] offset,
    [YYYY-MM-DDTHH:mm:ss.sssZ] with the milliseconds optional, which is
    what the worker writes ([toIsoDateTime], [toISOString]).  Field
    ranges are checked as the V8 parser does (a day up to 31 in every
    month).  [Some t] is the time value that [new Date(s)] holds; [None]
    says that [s] is not of this form or names no date in it, and
    nothing more: the engine reads other notations of a date as well
    (a date alone, a time without seconds, an offset), so what depends
    on the date of a text is stated for the texts read here. *)
Definition parse (s : string) : option Z :=
  '(y, s) ← readYear s;
  s ← expect "-" s;
  '(mo, s) ← readDigits 2 0 s;
  s ← expect "-" s;
  '(d, s) ← readDigits 2 0 s;
  s ← expect "T" s;
  '(h, s) ← readDigits 2 0 s;
  s ← expect ":" s;
  '(mi, s) ← readDigits 2 0 s;
  s ← expect ":" s;
  '(sec, s) ← readDigits 2 0 s;
  ms ← readTail s;
  if (1 <=? mo) && (mo <=? 12) && (1 <=? d) && (d <=? 31)
     && (mi <=? 59) && (sec <=? 59)
     && ((h <=? 23) || ((h =? 24) && (mi =? 0) && (sec =? 0) && (ms =? 0)))
  then TimeClip (MakeDate (MakeDay y (mo - 1) d) (MakeTime h mi sec ms))
  else None.

End Date.

(** ** worker.js *)

Module Worker.
Import JS.
Local Open Scope Z_scope.

(** *** Utility functions *)

Definition hexDigit (v : Z) : ascii :=
  if v <? 10 then ascii_of_nat (48 + Z.to_nat v)
  else ascii_of_nat (87 + Z.to_nat v).

(** [template.replace(/[xy]/g, ...)]: the [i]-th call of [Math.random]
    is [rnd i]. *)
Fixpoint uuid_fill (rnd : nat -> random) (i : nat) (template : string) : string :=
  match template with
  | EmptyString => EmptyString
  | String c rest =>
      if Ascii.eqb c "x" || Ascii.eqb c "y" then
        let r := floorMul (rnd i) 16 in
        let v := if Ascii.eqb c "x" then r else Z.lor (Z.land r 3) 8 in
        String (hexDigit v) (uuid_fill rnd (S i) rest)
      else String c (uuid_fill rnd i rest)
  end.

Definition uuidv4 (rnd : nat -> random) : string :=
  uuid_fill rnd 0%nat "xxxxxxxx-xxxx-4xxx-yxxx-xxxxxxxxxxxx".

(** [new Date(string).toISOString()], which throws on an invalid date. *)
Definition isoOf (s : string) : option string :=
  Date.toISOString <$> Date.parse s.

(** [new Date(text)] for every text: the time value of a text of the
    form that [Date.parse] reads, and for any other text what the
    engine makes of it, [read text], a time value or the invalid date.
    A [Date] holds a time value of the range of dates only. *)
Definition newDate (read : string -> option Z) (text : string) : option Z :=
  match Date.parse text with
  | Some t => Some t
  | None => read text ≫= Date.TimeClip
  end.

(** [time_of_day] is a string, empty when it is missing.  [toISOString]
    throws on the invalid date, and the [catch] answers with the
    clock. *)
Definition toIsoDateTime (read : string -> option Z) (now : Z)
  (start_date time_of_day : string) : string :=
  let text :=
    if negb (String.eqb time_of_day "")
    then start_date +:+ "T" +:+ time_of_day +:+ ":00Z"
    else start_date +:+ "T00:00:00Z" in
  default (Date.toISOString now) (Date.toISOString <$> newDate read text).

(** [Number.isFinite(v)] *)
Definition isFinite (v : value) : bool :=
  match v with VNum _ => true | _ => false end.

(** The time value that [incrementNextRunIso] leaves in [d]; [None] is
    the invalid date.  [d] starts as [new Date(isoString)].  A usable
    [intervalMs] is a whole number of milliseconds here, which is added
    as it is. *)
Definition advance (d : option Z) (interval intervalMs : value) : option Z :=
  if truthy intervalMs && isFinite intervalMs then
    match intervalMs with
    | VNum ms => t ← d; Date.setTime (t + ms)
    | _ => None
    end
  else
    t ← d;
    if bool_decide (interval = VStr "daily")
    then Date.setUTCDate t (Date.DateFromTime t + 1)
    else if bool_decide (interval = VStr "weekly")
    then Date.setUTCDate t (Date.DateFromTime t + 7)
    else if bool_decide (interval = VStr "monthly")
    then Date.setUTCMonth t (Date.MonthFromTime t + 1)
    else if bool_decide (interval = VStr "yearly")
    then Date.setUTCFullYear t (Date.YearFromTime t + 1)
    else Date.setUTCDate t (Date.DateFromTime t + 1).

(** [None]: [toISOString] throws a [RangeError] on an invalid date.
    [isoString] is read by [Date.parse]: the function is described for
    the texts of that form. *)
Definition incrementNextRunIso (isoString : string) (interval intervalMs : value)
  : option string :=
  Date.toISOString <$> advance (Date.parse isoString) interval intervalMs.

(** *** Text

    Text is ASCII: [toLowerCase] maps the letters A to Z and leaves every
    other character as it is, and [trim] drops the six ASCII white-space
    characters.  On a text of ASCII characters, [isAscii], this is what
    [String.prototype.toLowerCase] and [trim] do; what is proved about
    free text (names) is stated for such texts. *)

Fixpoint isAscii (s : string) : bool :=
  match s with
  | EmptyString => true
  | String c r => (nat_of_ascii c <? 128)%nat && isAscii r
  end.

Definition lowerChar (c : ascii) : ascii :=
  let n := nat_of_ascii c in
  if (65 <=? n)%nat && (n <=? 90)%nat then ascii_of_nat (n + 32) else c.

Fixpoint toLowerCase (s : string) : string :=
  match s with
  | EmptyString => EmptyString
  | String c r => String (lowerChar c) (toLowerCase r)
  end.

Fixpoint trimStart (s : string) : string :=
  match s with
  | String c r => if Ascii.is_space c then trimStart r else s
  | EmptyString => EmptyString
  end.

Definition trim (s : string) : string :=
  String.rev (trimStart (String.rev (trimStart s))).

(** [hay.includes(needle)] *)
Fixpoint includes (hay needle : string) : bool :=
  String.prefix needle hay
  || match hay with
     | String _ r => includes r needle
     | EmptyString => false
     end.

(** [String(v)], the text of a value in a template literal. *)
Definition toStr (v : value) : string :=
  match v with
  | VUndef => "undefined"
  | VNull => "null"
  | VBool true => "true"
  | VBool false => "false"
  | VNum n => toString n
  | VNaN => "NaN"
  | VStr s => s
  end.

(** [iso.split("T")[0]] *)
Fixpoint beforeT (s : string) : string :=
  match s with
  | String c r => if Ascii.eqb c "T" then EmptyString else String c (beforeT r)
  | EmptyString => EmptyString
  end.

(** *** The per-user Durable Object

    [state.storage] holds the [auth] object and the [data] envelope with
    its three arrays. *)

Record Recipient := { name : string; wallet : string; note : string }.

Record Shard := {
  auth : gmap string value;
  recipients : list Recipient;
  transactions : list (gmap string value);
  schedules : list (gmap string value)
}.

Definition emptyShard : Shard :=
  {| auth := ∅; recipients := []; transactions := []; schedules := [] |}.

Definition setAuth (a : gmap string value) (sh : Shard) : Shard :=
  {| auth := a; recipients := recipients sh;
     transactions := transactions sh; schedules := schedules sh |}.

Definition setTransactions (l : list (gmap string value)) (sh : Shard) : Shard :=
  {| auth := auth sh; recipients := recipients sh;
     transactions := l; schedules := schedules sh |}.

Definition setSchedules (l : list (gmap string value)) (sh : Shard) : Shard :=
  {| auth := auth sh; recipients := recipients sh;
     transactions := transactions sh; schedules := l |}.

(** **** Nonce and verify *)

(** Returns the nonce of the response. *)
Definition handleNonce (r : random) (now : Z) (sh : Shard) : string * Shard :=
  let nonce := toString (floorMul r 1000000) in
  let a := <["nonce" := VStr nonce]> (auth sh) in
  let a := <["updated_at" := VStr (Date.toISOString now)]> a in
  (nonce, setAuth a sh).

Inductive VerifyResponse :=
  | NonceNotFound            (* 400 *)
  | InvalidSignatureFormat   (* 400 *)
  | VerifySuccess.           (* 200 *)

Definition loginMessage (nonce : value) : string :=
  "Welcome to VoicePay!" +:+ "
" +:+ "
" +:+ "To securely sign in, please confirm this message." +:+ "
" +:+ "
" +:+ "Security code: " +:+ toStr nonce +:+ "
" +:+ "
" +:+ "This signature will not trigger any blockchain transaction or gas fee.".

(** [verifyMessage message signature] is [ethers.verifyMessage]: the
    address recovered from the signature, or [None] when it throws on a
    signature that is not well formed. *)
Definition handleVerify (verifyMessage : string -> string -> option string)
  (address signature : string) (sh : Shard) : VerifyResponse * Shard :=
  let a := auth sh in
  if negb (truthy (get a "nonce")) then (NonceNotFound, sh)
  else
    let message := loginMessage (get a "nonce") in
    match verifyMessage message signature with
    | None => (InvalidSignatureFormat, sh)
    | Some _ => (VerifySuccess, setAuth (<["nonce" := VNull]> a) sh)
    end.

(** An idealised signature scheme on which [handleVerify] can be run:
    the signature of [message] by [signer] is the text
    [signer|message], and recovery gives back whatever stands before the
    bar, as public-key recovery gives some address for every well-formed
    signature.  A text without a bar is not well formed. *)
Fixpoint beforeBar (s : string) : option string :=
  match s with
  | String c r =>
      if Ascii.eqb c "|" then Some EmptyString
      else String c <$> beforeBar r
  | EmptyString => None
  end.

Definition signAs (signer message : string) : string :=
  signer +:+ "|" +:+ message.

Definition recoverSigner (message signature : string) : option string :=
  beforeBar signature.

(** **** Recipients *)

Inductive NameResponse :=
  | Exact (r : Recipient)
  | PartialUnique (r : Recipient)
  | Ambiguous (options : list Recipient)
  | RecipientNotFound.       (* 404 *)

(** [r.name.toLowerCase() === query] *)
Definition exactMatch (query : string) (r : Recipient) : Prop :=
  toLowerCase (name r) = query.

(** [r.name.toLowerCase().includes(query)] *)
Definition partialMatch (query : string) (r : Recipient) : Prop :=
  includes (toLowerCase (name r)) query = true.

#[global] Instance exactMatch_dec query r : Decision (exactMatch query r).
Proof. unfold exactMatch. apply _. Defined.

#[global] Instance partialMatch_dec query r : Decision (partialMatch query r).
Proof. unfold partialMatch. apply _. Defined.

Definition getRecipientByName (query_name : string) (sh : Shard) : NameResponse :=
  let query := trim (toLowerCase query_name) in
  let exactMatches := filter (exactMatch query) (recipients sh) in
  match exactMatches with
  | [r] => Exact r
  | _ :: _ :: _ => Ambiguous exactMatches
  | [] =>
      let partial := filter (partialMatch query) (recipients sh) in
      match partial with
      | [] => RecipientNotFound
      | [r] => PartialUnique r
      | _ => Ambiguous partial
      end
  end.

(** **** Transactions *)

(** The literal [entry] of [storeTransaction]. *)
Definition txEntry (id name type address amount currency start_date
    time_of_day interval times note status txHash timestamp : value)
  : gmap string value :=
  list_to_map [
    ("id", id);
    ("name", name);
    ("type", type);
    ("address", address);
    ("amount", amount);
    ("currency", currency);
    ("start_date", start_date);
    ("time_of_day", time_of_day);
    ("interval", interval);
    ("times", times);
    ("note", note);
    ("status", status);
    ("txHash", txHash);
    ("timestamp", timestamp)
  ].

(** [None] is the 400 response, [Some entry] the stored record.
    [today_at] and [stored_at] are the two readings of the clock. *)
Definition storeTransaction (rnd : nat -> random) (today_at stored_at : Z)
  (tx : gmap string value) (sh : Shard) : option (gmap string value) * Shard :=
  let today := beforeT (Date.toISOString today_at) in
  let n_address :=
    or_else (get tx "address") (or_else (get tx "recipient")
            (or_else (get tx "to") VNull)) in
  let n_amount := get tx "amount" in
  let n_intent :=
    or_else (get tx "intent") (or_else (get tx "type") (VStr "recurring")) in
  let n_start_date := or_else (get tx "start_date") (VStr today) in
  let n_time_of_day := or_else (get tx "time_of_day") VNull in
  let n_currency := or_else (get tx "currency") (VStr "USDC") in
  let n_name := or_else (get tx "name") VNull in
  let n_note := or_else (get tx "note") VNull in
  let n_status := or_else (get tx "status") (VStr "completed") in
  let n_txHash := or_else (get tx "txHash") VNull in
  if negb (truthy n_address) || negb (truthy n_amount)
     || negb (truthy n_intent) || negb (truthy n_start_date)
  then (None, sh)
  else
    let entry :=
      txEntry (VStr (uuidv4 rnd)) n_name n_intent n_address n_amount
        n_currency n_start_date n_time_of_day
        (or_else (get tx "interval") VNull)
        (or_else (get tx "times") VNull)
        (or_else n_note (VStr "NA"))
        n_status
        (or_else n_txHash VNull)
        (VStr (Date.toISOString stored_at)) in
    (Some entry, setTransactions (transactions sh ++ [entry]) sh).

(** **** Schedules *)

Definition hasId (scheduleId : string) (s : gmap string value) : Prop :=
  get s "id" = VStr scheduleId.

#[global] Instance hasId_dec scheduleId s : Decision (hasId scheduleId s).
Proof. unfold hasId. apply _. Defined.

(** [None]: the schedule is not found and the function throws. *)
Definition updateSchedule (scheduleId : string) (patch : gmap string value)
  (sh : Shard) : option (gmap string value * Shard) :=
  '(idx, old) ← list_find (hasId scheduleId) (schedules sh);
  let new := patch ∪ old in
  Some (new, setSchedules (<[idx := new]> (schedules sh)) sh).

(** **** The two routes of [fetch] that the cron handler calls

    [address] is the query parameter; the body went through JSON. *)

Definition fetchStoreTransaction (address : string) (rnd : nat -> random)
  (today_at stored_at : Z) (body : gmap string value) (sh : Shard) : Shard :=
  if String.eqb address "" then sh
  else (storeTransaction rnd today_at stored_at (json body) sh).2.

Definition fetchUpdateSchedule (address scheduleId : string)
  (patch : gmap string value) (sh : Shard) : Shard :=
  if String.eqb address "" then sh
  else if String.eqb scheduleId "" then sh
  else match updateSchedule scheduleId (json patch) sh with
       | Some (_, sh') => sh'
       | None => sh
       end.

(** *** The KV index and the cron handler *)

(** An entry of [SCHEDULE_KV] as [JSON.parse] returns it.  The fields the
    handler computes with have the types of the data model: the
    identifier, the address and [nextRun] are strings and
    [times_remaining] is a number or [null]; the others are passed on as
    they are. *)
Record IndexEntry := {
  scheduleId : string;
  userAddress : string;
  nextRun : string;
  recipient : value;
  amount : value;
  currency : value;
  interval : value;
  intervalMs : value;
  times : value;
  times_remaining : option Z;
  entry_name : value;
  entry_note : value;
  created_at : value
}.

Definition setNextRun (next : string) (s : IndexEntry) : IndexEntry :=
  {| scheduleId := scheduleId s; userAddress := userAddress s;
     nextRun := next; recipient := recipient s; amount := amount s;
     currency := currency s; interval := interval s;
     intervalMs := intervalMs s; times := times s;
     times_remaining := times_remaining s; entry_name := entry_name s;
     entry_note := entry_note s; created_at := created_at s |}.

Definition setTimesRemaining (n : option Z) (s : IndexEntry) : IndexEntry :=
  {| scheduleId := scheduleId s; userAddress := userAddress s;
     nextRun := nextRun s; recipient := recipient s; amount := amount s;
     currency := currency s; interval := interval s;
     intervalMs := intervalMs s; times := times s;
     times_remaining := n; entry_name := entry_name s;
     entry_note := entry_note s; created_at := created_at s |}.

(** The state the cron handler works on: the KV namespace and the
    Durable Objects, one per lower-cased address. *)
Record World := {
  kv : gmap string IndexEntry;
  shards : gmap string Shard
}.

Definition shardAt (key : string) (w : World) : Shard :=
  default emptyShard (shards w !! key).

(** [env.WALLET_DO.get(id).fetch(...)]: one request handled by a shard. *)
Definition onShard (key : string) (f : Shard -> Shard) (w : World) : World :=
  {| kv := kv w; shards := <[key := f (shardAt key w)]> (shards w) |}.

(** What [JSON.parse (JSON.stringify s)] gives back for an entry. *)
Definition entryJson (s : IndexEntry) : IndexEntry :=
  {| scheduleId := scheduleId s; userAddress := userAddress s;
     nextRun := nextRun s; recipient := afterJson (recipient s);
     amount := afterJson (amount s); currency := afterJson (currency s);
     interval := afterJson (interval s);
     intervalMs := afterJson (intervalMs s); times := afterJson (times s);
     times_remaining := times_remaining s;
     entry_name := afterJson (entry_name s);
     entry_note := afterJson (entry_note s);
     created_at := afterJson (created_at s) |}.

(** [env.SCHEDULE_KV.put(key, JSON.stringify(s))] *)
Definition putIndex (key : string) (s : IndexEntry) (w : World) : World :=
  {| kv := <[key := entryJson s]> (kv w); shards := shards w |}.

Definition deleteScheduleIndex (key : string) (w : World) : World :=
  {| kv := delete key (kv w); shards := shards w |}.

(** What came back from the backend: [resp.ok], [resp.status] and the
    parsed body; [None] is a body that is falsy, and a body that is not
    an object has no fields.  The request itself is a call to the
    outside: what the backend does on its side is not part of the state
    change described here. *)
Record Reply := {
  ok : bool;
  status : Z;
  respJson : option (gmap string value)
}.

(** What one execution reads from outside: the reply of the backend, the
    clock at each of its readings and the random source. *)
Record FireEnv := {
  reply : Reply;
  record_at : Z;
  rnd : nat -> random;
  today_at : Z;
  stored_at : Z;
  retry_at : Z
}.

Definition replySucceeded (r : Reply) : bool :=
  ok r && match respJson r with
          | Some j => truthy (get j "ok") || truthy (get j "txHash")
          | None => false
          end.

(** [respJson.txHash] and [respJson && respJson.error] *)
Definition replyHash (r : Reply) : value :=
  match respJson r with Some j => get j "txHash" | None => VUndef end.

Definition replyError (r : Reply) : value :=
  match respJson r with Some j => get j "error" | None => VUndef end.

(** The literal [txRecord]. *)
Definition txRecord (amount note status recipient start_date txHash : value)
  : gmap string value :=
  list_to_map [
    ("name", VStr "Recurring Payment");
    ("intent", VStr "recurring");
    ("amount", amount);
    ("note", note);
    ("status", status);
    ("recipient", recipient);
    ("start_date", start_date);
    ("txHash", txHash);
    ("address", recipient)
  ].

Definition failureNote (r : Reply) : value :=
  or_else (replyError r) (VStr ("backend error: " +:+ toString (status r))).

Definition retryMs : Z := 10 * 60 * 1000.

(** The body of the loop of [processDueSchedules] for one entry [s]. *)
Definition processOne (now : Z) (e : FireEnv) (s : IndexEntry) (w : World)
  : World :=
  match Date.parse (nextRun s) with
  | None => w
  | Some nextRunMs =>
      if now <? nextRunMs then w
      else
        let key := toLowerCase (userAddress s) in
        let store record :=
          onShard key (fetchStoreTransaction (userAddress s) (rnd e)
                         (today_at e) (stored_at e) record) in
        let update patch :=
          onShard key (fetchUpdateSchedule (userAddress s) (scheduleId s)
                         patch) in
        if replySucceeded (reply e) then
          let record :=
            txRecord (amount s) (or_else (entry_note s) (VStr ""))
              (VStr "completed") (recipient s)
              (VStr (Date.toISOString (record_at e)))
              (or_else (replyHash (reply e)) VNull) in
          let w := store record w in
          let remaining := (λ n, n - 1) <$> times_remaining s in
          match incrementNextRunIso (nextRun s) (interval s) (intervalMs s) with
          | None => w
          | Some next =>
              let s := setNextRun next (setTimesRemaining remaining s) in
              match remaining with
              | Some n =>
                  if n <=? 0 then
                    update (list_to_map [("active", VBool false);
                                         ("times_remaining", VNum 0)])
                      (deleteScheduleIndex (scheduleId s) w)
                  else
                    update (list_to_map [("nextRun", VStr next);
                                         ("times_remaining", VNum n)])
                      (putIndex (scheduleId s) s w)
              | None =>
                  update (list_to_map [("nextRun", VStr next);
                                       ("times_remaining", VNull)])
                    (putIndex (scheduleId s) s w)
              end
          end
        else
          let record :=
            txRecord (amount s) (failureNote (reply e)) (VStr "failed")
              (recipient s) (VStr (Date.toISOString (record_at e))) VNull in
          let w := store record w in
          match Date.TimeClip (retry_at e + retryMs) with
          | None => w
          | Some t =>
              let next := Date.toISOString t in
              let s := setNextRun next s in
              update (list_to_map [("nextRun", VStr next)])
                (putIndex (scheduleId s) s w)
          end
  end.

(** [listAllSchedulesFromKV], then the loop.  [envs k] is what the
    execution of the entry under key [k] reads from outside. *)
Definition processDueSchedules (now : Z) (envs : string -> FireEnv)
  (w : World) : World :=
  foldl (λ w ks, processOne now (envs ks.1) ks.2 w) w (map_to_list (kv w)).

(** [writeScheduleIndex]: the entry of a schedule is stored under the
    identifier of the schedule. *)
Definition writeScheduleIndex (s : IndexEntry) (w : World) : World :=
  putIndex (scheduleId s) s w.

(** *** Notions used to state the properties of the handler *)

(** The entries that a run started at [now] executes, among those whose
    [nextRun] is of the form that [Date.parse] reads: those whose date
    is not after [now]. *)
Definition isDue (now : Z) (s : IndexEntry) : bool :=
  match Date.parse (nextRun s) with
  | Some nextRunMs => negb (now <? nextRunMs)
  | None => false
  end.

(** The schedule identifiers that a run started at [now] executes. *)
Definition fired (now : Z) (w : World) : list string :=
  scheduleId <$> filter (λ s, isDue now s = true) (map_to_list (kv w)).*2.

(** Every entry of the index is stored under its own identifier, as
    [writeScheduleIndex] and the handler write it. *)
Definition kv_wf (m : gmap string IndexEntry) : Prop :=
  forall k s, m !! k = Some s -> scheduleId s = k.

(** The schedule [id] has left a well-formed index. *)
Definition retired (id : string) (w : World) : Prop :=
  kv_wf (kv w) /\ kv w !! id = None.

(** What can happen after the schedule [id] left the index: runs of the
    handler, the rest of a run that is under way (entries of other
    schedules), requests handled by a shard, and index entries written
    for other schedules. *)
Inductive step (id : string) : World -> World -> Prop :=
  | step_run now envs w :
      step id w (processDueSchedules now envs w)
  | step_entry now e s w :
      scheduleId s <> id -> step id w (processOne now e s w)
  | step_shard key f w :
      step id w (onShard key f w)
  | step_index s w :
      scheduleId s <> id -> step id w (writeScheduleIndex s w).

End Worker.

(** ** middleware/workerAuth.js *)

Module WorkerAuth.
Import JS.
Local Open Scope Z_scope.

(** [Number(text)] for a header: a decimal integer, as [signRequest]
    writes the timestamp ([Date.now().toString()]), with white space
    around it allowed and the empty text read as 0; integers are taken
    exactly, as doubles do below [2^53].  The other numeric notations
    (fraction, exponent, radix prefix, [Infinity]), which stand for
    numbers that are no integers of this model, come out as [VNaN] like
    the texts that are no numbers at all: [VNum ts] says that the text
    is the decimal integer [ts], and what is proved about the freshness
    test is stated for such timestamps. *)
Fixpoint readNat (acc : Z) (s : string) : option Z :=
  match s with
  | EmptyString => Some acc
  | String c r =>
      d ← Date.digitVal c; readNat (acc * 10 + d) r
  end.

Definition Number (text : string) : value :=
  match Worker.trim text with
  | EmptyString => VNum 0
  | String "-" (String c r) =>
      from_option (λ n, VNum (- n)) VNaN (readNat 0 (String c r))
  | String "+" (String c r) =>
      from_option VNum VNaN (readNat 0 (String c r))
  | s => from_option VNum VNaN (readNat 0 s)
  end.

Record Request := {
  method : string;
  x_worker_auth : option string;
  x_worker_timestamp : option string;
  rawBody : option string;
  (** the text of [stableStringify(req.body || {})] *)
  stableBody : string
}.

Inductive Outcome :=
  | Next
  | Reject (status : Z) (error : string).

Definition present (h : option string) : bool :=
  match h with Some s => negb (String.eqb s "") | None => false end.

(** [req.rawBody || stableStringify(req.body || {})] *)
Definition signedBody (req : Request) : string :=
  match rawBody req with
  | Some b => if String.eqb b "" then stableBody req else b
  | None => stableBody req
  end.

(** [hmac secret data] is the hex digest of the HMAC-SHA-256 of [data]. *)
Definition workerAuth (hmac : string -> string -> string) (secret : string)
  (now : Z) (req : Request) : Outcome :=
  if negb (String.eqb (method req) "POST") && negb (String.eqb (method req) "PUT")
  then Reject 405 "Method not allowed"
  else if negb (present (x_worker_auth req))
          || negb (present (x_worker_timestamp req))
  then Reject 401 "Missing worker signature"
  else
    let signature := default "" (x_worker_auth req) in
    let timestamp := default "" (x_worker_timestamp req) in
    let stale :=
      match Number timestamp with
      | VNum ts => 5 * 60 * 1000 <? Z.abs (now - ts)
      | _ => false
      end in
    if stale then Reject 401 "Timestamp too old"
    else
      let body := signedBody req in
      let expected := hmac secret (timestamp +:+ body) in
      if negb (String.eqb signature expected)
      then Reject 403 "Invalid worker signature"
      else Next.

(** [router.post("/process-recurring", workerAuth, handler)]: the
    handler, which executes the payment, runs only after [next()]. *)
Definition processRecurringRoute {A} (hmac : string -> string -> string)
  (secret : string) (now : Z) (handler : Request -> A) (req : Request)
  : Outcome + A :=
  match workerAuth hmac secret now req with
  | Next => inr (handler req)
  | r => inl r
  end.

End WorkerAuth.

(** ** The length of a month *)

Module Calendar.
Local Open Scope Z_scope.

(** The number of days of month [month] (0 = January) of [year]. *)
Definition daysInMonth (year month : Z) : Z :=
  Date.monthStart (Date.InLeapYear year) (month + 1)
  - Date.monthStart (Date.InLeapYear year) month.

End Calendar.

(** ** The layout of a version-4 UUID *)

Module Uuid.
Local Open Scope Z_scope.

(** A lower-case hexadecimal digit. *)
Definition isHex (c : ascii) : bool :=
  let n := Z.of_nat (nat_of_ascii c) in
  ((48 <=? n) && (n <=? 57)) || ((97 <=? n) && (n <=? 102)).

(** One of [8], [9], [a], [b]. *)
Definition isVariant (c : ascii) : bool :=
  let n := Z.of_nat (nat_of_ascii c) in
  (n =? 56) || (n =? 57) || (n =? 97) || (n =? 98).

(** [s] follows [template]: a hexadecimal digit for each [x], a variant
    digit for each [y], and the character of the template elsewhere. *)
Fixpoint follows (template s : string) : bool :=
  match template, s with
  | EmptyString, EmptyString => true
  | String t template', String c s' =>
      (if Ascii.eqb t "x" then isHex c
       else if Ascii.eqb t "y" then isVariant c
       else Ascii.eqb t c)
      && follows template' s'
  | _, _ => false
  end.

Definition isUuidV4 (s : string) : bool :=
  follows "xxxxxxxx-xxxx-4xxx-yxxx-xxxxxxxxxxxx" s.

End Uuid.

(** ** worker.js: the recipients of a shard *)

Module Recipients.
Import JS Worker.

Inductive Response :=
  | BadRequest (error : string)                               (* 400 *)
  | NotFound (error : string)                                 (* 404 *)
  | Conflict (error : string)                                 (* 409 *)
  | Listed (recipients : list Recipient)
  | Updated (updated : Recipient) (recipients : list Recipient).

Definition setRecipients (l : list Recipient) (sh : Shard) : Shard :=
  {| auth := auth sh; recipients := l;
     transactions := transactions sh; schedules := schedules sh |}.

(** [r.wallet.toLowerCase() === wallet.toLowerCase()] *)
Definition sameWallet (w : string) (r : Recipient) : Prop :=
  toLowerCase (wallet r) = toLowerCase w.

#[global] Instance sameWallet_dec w r : Decision (sameWallet w r).
Proof. unfold sameWallet. apply _. Defined.

Definition getRecipients (sh : Shard) : Response := Listed (recipients sh).

(** A missing field of the body is the empty string; [note || ""] is
    then the note itself. *)
Definition addRecipient (name wallet note : string) (sh : Shard)
  : Response * Shard :=
  if String.eqb name "" || String.eqb wallet ""
  then (BadRequest "Missing name or wallet", sh)
  else if bool_decide (Exists (sameWallet wallet) (recipients sh))
  then (Conflict "Recipient already exists", sh)
  else
    let rs := recipients sh
              ++ [{| Worker.name := name; Worker.wallet := wallet;
                     Worker.note := note |}] in
    (Listed rs, setRecipients rs sh).

Definition deleteRecipient (wallet : string) (sh : Shard) : Response * Shard :=
  if String.eqb wallet "" then (BadRequest "Missing wallet", sh)
  else
    let rs := filter (λ r, ¬ sameWallet wallet r) (recipients sh) in
    (Listed rs, setRecipients rs sh).

(** [recipients.some((r, i) => i !== idx && sameWallet)] *)
Definition takenByOther (idx : nat) (w : string) (rs : list Recipient) : Prop :=
  Exists (λ ir : nat * Recipient, ir.1 ≠ idx ∧ sameWallet w ir.2)
         (imap pair rs).

#[global] Instance takenByOther_dec idx w rs : Decision (takenByOther idx w rs).
Proof. unfold takenByOther. apply _. Defined.

(** [newWallet] and [newName] are empty when missing; [newNote] is
    [None] when it is [undefined]. *)
Definition updateRecipient (oldWallet newWallet newName : string)
  (newNote : option string) (sh : Shard) : Response * Shard :=
  if String.eqb oldWallet "" then (BadRequest "Missing oldWallet", sh)
  else
    match list_find (sameWallet oldWallet) (recipients sh) with
    | None => (NotFound "Recipient not found", sh)
    | Some (idx, r) =>
        if negb (String.eqb newWallet "")
           && bool_decide (takenByOther idx newWallet (recipients sh))
        then (Conflict "Recipient with new wallet already exists", sh)
        else
          let r' :=
            {| Worker.name := if String.eqb newName "" then name r else newName;
               Worker.wallet :=
                 if String.eqb newWallet "" then wallet r else newWallet;
               Worker.note := default (note r) newNote |} in
          let rs := <[idx := r']> (recipients sh) in
          (Updated r' rs, setRecipients rs sh)
    end.

(** The wallets of the recipients of a shard, compared as the code
    compares them. *)
Definition wallets (sh : Shard) : list string :=
  (λ r, toLowerCase (wallet r)) <$> recipients sh.

End Recipients.

(** ** worker.js: the schedules of a shard *)

Module Schedules.
Import JS Worker.

(** The [meta] key of the storage, which [addSchedule] rewrites as it
    is, is left out of the state. *)
Definition addSchedule (schedule : gmap string value) (sh : Shard)
  : gmap string value * Shard :=
  (schedule, setSchedules (schedules sh ++ [schedule]) sh).

Definition deleteSchedule (scheduleId : string) (sh : Shard) : Shard :=
  setSchedules (filter (λ s, ¬ hasId scheduleId s) (schedules sh)) sh.

End Schedules.

(** ** worker.js: [parseIntent] after the answer of the language model *)

Module Intent.
Import JS Worker.
Local Open Scope Z_scope.

(** The answer of the [/recipientByName] route of the shard, as
    [parseIntent] reads it: the status and the fields [match_type],
    [wallet] and [recipient] of the body. *)
Record Lookup := {
  lookupStatus : Z;
  match_type : value;
  foundWallet : value;
  foundName : value
}.

Definition fetchRecipientByName (address name : string) (sh : Shard) : Lookup :=
  if String.eqb address "" || String.eqb name ""
  then {| lookupStatus := 400; match_type := VUndef;
          foundWallet := VUndef; foundName := VUndef |}
  else
    match getRecipientByName name sh with
    | Exact r =>
        {| lookupStatus := 200; match_type := VStr "exact";
           foundWallet := VStr (wallet r); foundName := VStr (Worker.name r) |}
    | PartialUnique r =>
        {| lookupStatus := 200; match_type := VStr "partial_unique";
           foundWallet := VStr (wallet r); foundName := VStr (Worker.name r) |}
    | Ambiguous _ =>
        {| lookupStatus := 200; match_type := VStr "ambiguous";
           foundWallet := VUndef; foundName := VUndef |}
    | RecipientNotFound =>
        {| lookupStatus := 404; match_type := VUndef;
           foundWallet := VUndef; foundName := VUndef |}
    end.

Inductive Response :=
  | ServerError                                   (* 500 *)
  | MissingFields                                 (* 400 *)
  | RecipientMissing (message : string)           (* 404 *)
  | AmbiguousRecipient                            (* 409 *)
  | Success (parsedIntent : gmap string value).

(** The literal [parsedIntent] of the response. *)
Definition parsedIntent (today : string) (parsed : gmap string value)
  : gmap string value :=
  list_to_map [
    ("intent", get parsed "intent");
    ("name", or_else (get parsed "name") VNull);
    ("address", or_else (get parsed "address") VNull);
    ("amount", get parsed "amount");
    ("currency", or_else (get parsed "currency") (VStr "USDC"));
    ("interval", or_else (get parsed "interval") VNull);
    ("start_date", or_else (get parsed "start_date") (VStr today));
    ("time_of_day", or_else (get parsed "time_of_day") VNull);
    ("times", or_else (get parsed "times") VNull);
    ("note", or_else (get parsed "note") VNull)
  ].

(** A text of letters and digits: pasted into the query of a URL as it
    is, it reaches the shard unchanged. *)
Definition isAlnum (c : ascii) : bool :=
  let n := nat_of_ascii c in
  ((48 <=? n) && (n <=? 57) || (65 <=? n) && (n <=? 90)
   || (97 <=? n) && (n <=? 122))%nat.

Fixpoint plainText (s : string) : bool :=
  match s with
  | EmptyString => true
  | String c r => isAlnum c && plainText r
  end.

(** [answer] is the parsed answer of the model, [None] when it is not
    JSON.  [address] is the address of the user.  The code pastes it
    into the URL of the request to the shard without encoding it: the
    shard receives the address and the name as they are here when the
    address is a [plainText], as a wallet address is, and what is
    proved about the lookup is stated for such addresses. *)
Definition parseIntent (now : Z) (address : string)
  (answer : option (gmap string value)) (w : World) : Response :=
  let today := beforeT (Date.toISOString now) in
  match answer with
  | None => ServerError
  | Some parsed =>
      if negb (truthy (get parsed "intent"))
         || negb (truthy (get parsed "amount"))
         || (negb (truthy (get parsed "name"))
             && negb (truthy (get parsed "address")))
      then MissingFields
      else if negb (truthy (get parsed "address"))
              && truthy (get parsed "name")
      then
        let sh := shardAt (toLowerCase address) w in
        let data := fetchRecipientByName address (toStr (get parsed "name")) sh in
        if lookupStatus data =? 404
        then RecipientMissing
               ("Recipient '" +:+ toStr (get parsed "name") +:+ "' not found")
        else if bool_decide (match_type data = VStr "ambiguous")
        then AmbiguousRecipient
        else
          Success (parsedIntent today
                     (<["name" := foundName data]>
                        (<["address" := foundWallet data]> parsed)))
      else Success (parsedIntent today parsed)
  end.

End Intent.

(** ** The call from the cron handler to the backend

    [signRequest] and the payload of worker.js, and the handler of
    [/transactions/process-recurring] of routes/transactions.js up to
    the contract call. *)

Module Dispatch.
Import JS Worker.
Local Open Scope Z_scope.

(** The literal [payload] of [processDueSchedules]. *)
Definition payload (s : IndexEntry) : gmap string value :=
  list_to_map [
    ("userAddress", VStr (userAddress s));
    ("recipient", recipient s);
    ("name", or_else (entry_name s) VNull);
    ("amount", amount s);
    ("note", or_else (entry_note s) VNull);
    ("schedule_id", VStr (scheduleId s));
    ("interval", or_else (interval s) VNull);
    ("time_of_day", VNull);
    ("original_start_date", or_else (created_at s) VNull)
  ].

(** [signRequest(body, secret)] returns the signature and the timestamp;
    [hmac secret data] is the hex digest of the HMAC-SHA-256. *)
Definition signRequest (hmac : string -> string -> string) (now : Z)
  (body secret : string) : string * string :=
  let timestamp := toString now in
  (hmac secret (timestamp +:+ body), timestamp).

(** *** The text that the worker signs and the text that the backend
    digests

    An object whose fields are kept in the order of their creation is
    the list of these fields. *)

(** The fields of the literal [payload], in the order of the source. *)
Definition payloadFields (s : IndexEntry) : list (string * value) :=
  [ ("userAddress", VStr (userAddress s));
    ("recipient", recipient s);
    ("name", or_else (entry_name s) VNull);
    ("amount", amount s);
    ("note", or_else (entry_note s) VNull);
    ("schedule_id", VStr (scheduleId s));
    ("interval", or_else (interval s) VNull);
    ("time_of_day", VNull);
    ("original_start_date", or_else (created_at s) VNull) ].

(** The name of a field between double quotes; the names are plain
    identifiers, written as they are. *)
Definition quote (k : string) : string :=
  String "034"%char (k +:+ String "034"%char EmptyString).

Definition member (valueText : value -> string) (kv : string * value) : string :=
  quote kv.1 +:+ ":" +:+ valueText kv.2.

Definition join (sep : string) (l : list string) : string :=
  match l with
  | [] => EmptyString
  | x :: r => x +:+ foldr (λ y acc, sep +:+ y +:+ acc) EmptyString r
  end.

(** A field that [JSON.stringify] writes: one that does not hold
    [undefined]. *)
Definition written (kv : string * value) : Prop := kv.2 <> VUndef.

#[global] Instance written_dec kv : Decision (written kv).
Proof. unfold written. apply _. Defined.

(** [JSON.stringify(o)]: the fields in their order, those holding
    [undefined] left out.  [valueText v] is the JSON text of the value
    [v] (the quoting of a string, the digits of a number), which is not
    described here: what is proved holds whatever it is. *)
Definition stringify (valueText : value -> string) (o : list (string * value)) : string :=
  "{" +:+ join "," (member valueText <$> filter written o) +:+ "}".

(** [JSON.parse] of that text: the fields that were written, in their
    order. *)
Definition parsed (o : list (string * value)) : list (string * value) :=
  omap (λ kv : string * value,
          if decide (written kv) then Some (kv.1, afterJson kv.2) else None)
       o.

(** [o[k]] *)
Definition field (o : list (string * value)) (k : string) : value :=
  from_option (λ found, found.2.2) VUndef (list_find (λ kv, kv.1 = k) o).

(** The order of two names by their code units. *)
Definition keyLe (a b : string) : Prop := String.leb a b = true.

#[global] Instance keyLe_dec a b : Decision (keyLe a b).
Proof. unfold keyLe. apply _. Defined.

(** [Object.keys(o).sort()] *)
Definition sortedKeys (o : list (string * value)) : list string := merge_sort keyLe o.*1.

(** [stableStringify(o)] of workerAuth.js, which is
    [JSON.stringify(o, Object.keys(o).sort())]: the fields named by the
    list, in the order of the list. *)
Definition stableStringify (valueText : value -> string) (o : list (string * value)) : string :=
  stringify valueText ((λ k, (k, field o k)) <$> sortedKeys o).

(** The request of [processDueSchedules] as [workerAuth] receives it.
    The server parses the body with [express.json()] and keeps no raw
    body, so [req.rawBody] is undefined and [req.body] is the parsed
    payload. *)
Definition dispatched (hmac : string -> string -> string)
  (valueText : value -> string) (now : Z) (secret : string) (s : IndexEntry)
  : WorkerAuth.Request :=
  let bodyStr := stringify valueText (payloadFields s) in
  let '(signature, timestamp) := signRequest hmac now bodyStr secret in
  {| WorkerAuth.method := "POST";
     WorkerAuth.x_worker_auth := Some signature;
     WorkerAuth.x_worker_timestamp := Some timestamp;
     WorkerAuth.rawBody := None;
     WorkerAuth.stableBody :=
       stableStringify valueText (parsed (payloadFields s)) |}.

(** The handler of [/process-recurring]: [execute] is everything from
    the contract call on, [body] is [req.body].  The default of [token]
    plays no part in the check. *)
Definition processRecurring {A} (execute : gmap string value -> A)
  (body : gmap string value) : (Z * string) + A :=
  if negb (truthy (get body "scheduleId"))
     || negb (truthy (get body "userAddress"))
     || negb (truthy (get body "recipient"))
     || negb (truthy (get body "amount"))
     || negb (truthy (get body "timestamp"))
  then inl (400, "Missing required fields")
  else inr (execute body).

End Dispatch.

(** ** Sample inputs, on which the functions above are run below *)

Module Samples.
Import JS Worker.
Local Open Scope Z_scope.

(** A random source that always draws 0. *)
Definition zeroRnd : nat -> random := λ _, {| mant := 0; expo := 53 |}.

(** A payload that carries an identifier and a schedule identifier of
    its own. *)
Definition callerTx : gmap string value :=
  list_to_map [("address", VStr "0xdef"); ("amount", VNum 5);
               ("id", VStr "mine"); ("scheduleId", VStr "sched-1")].


(** A stand-in for the keyed digest. *)
Definition sampleHmac (secret data : string) : string :=
  secret +:+ ":" +:+ data.

(** A request signed at 1738281600000 (2025-01-31T00:00:00Z). *)
Definition signedRequest : WorkerAuth.Request :=
  {| WorkerAuth.method := "POST";
     WorkerAuth.x_worker_auth :=
       Some (sampleHmac "secret" ("1738281600000" +:+ "{}"));
     WorkerAuth.x_worker_timestamp := Some "1738281600000";
     WorkerAuth.rawBody := Some "{}";
     WorkerAuth.stableBody := "{}" |}.

(** A schedule with one run left, due on 2025-01-31, its owner's shard
    and the index entry. *)
Definition lastRunEntry : IndexEntry :=
  {| scheduleId := "sched-1"; userAddress := "0xAbC";
     nextRun := "2025-01-31T00:00:00Z";
     recipient := VStr "0xdef"; amount := VNum 5; currency := VStr "USDC";
     interval := VStr "monthly"; intervalMs := VNull;
     times := VNum 3; times_remaining := Some 1;
     entry_name := VNull; entry_note := VNull;
     created_at := VStr "2025-01-01T00:00:00.000Z" |}.

Definition lastRunSchedule : gmap string value :=
  list_to_map [("id", VStr "sched-1"); ("active", VBool true);
               ("times_remaining", VNum 1);
               ("nextRun", VStr "2025-01-31T00:00:00.000Z")].

Definition lastRunWorld : World :=
  {| kv := {[ "sched-1" := lastRunEntry ]};
     shards := {[ "0xabc" := setSchedules [lastRunSchedule] emptyShard ]} |}.

(** The same schedule with an [intervalMs] that leads out of the range
    of dates. *)
Definition lastRunFarEntry : IndexEntry :=
  {| scheduleId := "sched-1"; userAddress := "0xAbC";
     nextRun := "2025-01-31T00:00:00Z";
     recipient := VStr "0xdef"; amount := VNum 5; currency := VStr "USDC";
     interval := VNull; intervalMs := VNum 9000000000000000;
     times := VNum 3; times_remaining := Some 1;
     entry_name := VNull; entry_note := VNull;
     created_at := VStr "2025-01-01T00:00:00.000Z" |}.

Definition lastRunFarWorld : World :=
  {| kv := {[ "sched-1" := lastRunFarEntry ]};
     shards := {[ "0xabc" := setSchedules [lastRunSchedule] emptyShard ]} |}.

(** The same schedule with an amount that is [null] in the index, as
    [Number(amount)] leaves it for an amount that is no number. *)
Definition noAmountEntry : IndexEntry :=
  {| scheduleId := "sched-1"; userAddress := "0xAbC";
     nextRun := "2025-01-31T00:00:00Z";
     recipient := VStr "0xdef"; amount := VNull; currency := VStr "USDC";
     interval := VStr "monthly"; intervalMs := VNull;
     times := VNum 3; times_remaining := Some 1;
     entry_name := VNull; entry_note := VNull;
     created_at := VStr "2025-01-01T00:00:00.000Z" |}.

Definition noAmountWorld : World :=
  {| kv := {[ "sched-1" := noAmountEntry ]};
     shards := {[ "0xabc" := setSchedules [lastRunSchedule] emptyShard ]} |}.

(** The backend answers 200 with [{ ok: true }], without a hash. *)
Definition okWithoutHash : FireEnv :=
  {| reply := {| ok := true; status := 200;
                 respJson := Some {[ "ok" := VBool true ]} |};
     record_at := 1738281600500; rnd := zeroRnd;
     today_at := 1738281600600; stored_at := 1738281600700;
     retry_at := 1738281600800 |}.

(** The backend answers 500 with an error text. *)
Definition serverError : FireEnv :=
  {| reply := {| ok := false; status := 500;
                 respJson := Some {[ "error" := VStr "Contract call failed" ]} |};
     record_at := 1738281600500; rnd := zeroRnd;
     today_at := 1738281600600; stored_at := 1738281600700;
     retry_at := 1738281600800 |}.

(** The record stored for [lastRunEntry] after that answer. *)
Definition completedRecord : gmap string value :=
  txEntry (VStr "00000000-0000-4000-8000-000000000000")
    (VStr "Recurring Payment") (VStr "recurring") (VStr "0xdef") (VNum 5)
    (VStr "USDC") (VStr "2025-01-31T00:00:00.500Z") VNull VNull VNull
    (VStr "NA") (VStr "completed") VNull (VStr "2025-01-31T00:00:00.700Z").

End Samples.

(** ** More sample inputs *)

Module MoreSamples.
Import JS Worker.
Local Open Scope Z_scope.

(** A schedule with three runs left, due on 2025-01-15. *)
Definition openEntry : IndexEntry :=
  {| scheduleId := "sched-2"; userAddress := "0xAbC";
     nextRun := "2025-01-15T00:00:00.000Z";
     recipient := VStr "0xdef"; amount := VNum 5; currency := VStr "USDC";
     interval := VStr "monthly"; intervalMs := VNull;
     times := VNum 3; times_remaining := Some 3;
     entry_name := VNull; entry_note := VNull;
     created_at := VStr "2025-01-01T00:00:00.000Z" |}.

Definition openSchedule : gmap string value :=
  list_to_map [("id", VStr "sched-2"); ("active", VBool true);
               ("times_remaining", VNum 3);
               ("nextRun", VStr "2025-01-15T00:00:00.000Z")].

Definition openWorld : World :=
  {| kv := {[ "sched-2" := openEntry ]};
     shards := {[ "0xabc" := setSchedules [openSchedule] emptyShard ]} |}.

(** The same schedule with an [intervalMs] that leads out of the range
    of dates. *)
Definition farEntry : IndexEntry :=
  {| scheduleId := "sched-2"; userAddress := "0xAbC";
     nextRun := "2025-01-15T00:00:00.000Z";
     recipient := VStr "0xdef"; amount := VNum 5; currency := VStr "USDC";
     interval := VNull; intervalMs := VNum 9000000000000000;
     times := VNum 3; times_remaining := Some 3;
     entry_name := VNull; entry_note := VNull;
     created_at := VStr "2025-01-01T00:00:00.000Z" |}.

Definition farWorld : World :=
  {| kv := {[ "sched-2" := farEntry ]};
     shards := {[ "0xabc" := setSchedules [openSchedule] emptyShard ]} |}.

(** A schedule of the same user that is due on 2025-03-01. *)
Definition laterEntry : IndexEntry :=
  {| scheduleId := "sched-3"; userAddress := "0xAbC";
     nextRun := "2025-03-01T00:00:00.000Z";
     recipient := VStr "0xdef"; amount := VNum 7; currency := VStr "USDC";
     interval := VStr "weekly"; intervalMs := VNull;
     times := VNull; times_remaining := None;
     entry_name := VNull; entry_note := VNull;
     created_at := VStr "2025-01-01T00:00:00.000Z" |}.

End MoreSamples.

(** * Properties *)

(** ** Calendar arithmetic *)

Module DateFacts.
Import Date.
Local Open Scope Z_scope.

Ltac cases_leb :=
  repeat match goal with
    | |- context [(?a <=? ?b)] => destruct (Z.leb_spec a b)
    | |- context [(?a <? ?b)] => destruct (Z.ltb_spec a b)
    | |- context [(?a =? ?b)] => destruct (Z.eqb_spec a b)
    end.

Ltac div_lia := Z.div_mod_to_equations; lia.

Lemma DayFromYear_step y : DayFromYear (y + 1) = DayFromYear y + DaysInYear y.
Proof.
  unfold DayFromYear, DaysInYear, InLeapYear.
  cases_leb; simpl; div_lia.
Qed.

Lemma DaysInYear_cases y : DaysInYear y = 365 + (if InLeapYear y then 1 else 0).
Proof. unfold DaysInYear. by destruct (InLeapYear y). Qed.

(** [YearFromDay d] is the year that day [d] falls in. *)
Lemma YearFromDay_spec d :
  DayFromYear (YearFromDay d) <= d < DayFromYear (YearFromDay d + 1).
Proof.
  unfold YearFromDay. cases_leb; unfold DayFromYear in *; div_lia.
Qed.

Lemma DayWithinYear_range t :
  0 <= DayWithinYear t < DaysInYear (YearFromTime t).
Proof.
  unfold DayWithinYear, YearFromTime.
  pose proof (YearFromDay_spec (Day t)) as H.
  rewrite DayFromYear_step in H. lia.
Qed.

Lemma monthOfDay_spec (leap : bool) d :
  0 <= d < 365 + (if leap then 1 else 0) ->
  0 <= monthOfDay leap d <= 11
  /\ monthStart leap (monthOfDay leap d) <= d
     < monthStart leap (monthOfDay leap d + 1).
Proof.
  intros Hd. unfold monthOfDay.
  destruct leap; simpl in *; cases_leb; simpl; lia.
Qed.

Lemma monthStart_next (leap : bool) m :
  0 <= m <= 11 -> 28 <= monthStart leap (m + 1) - monthStart leap m <= 31.
Proof.
  intros Hm.
  assert (m = 0 \/ m = 1 \/ m = 2 \/ m = 3 \/ m = 4 \/ m = 5 \/ m = 6
          \/ m = 7 \/ m = 8 \/ m = 9 \/ m = 10 \/ m = 11) as Hc by lia.
  destruct leap; repeat destruct Hc as [-> | Hc]; try subst m; simpl; lia.
Qed.

Lemma monthStart_leap_diff (l1 l2 : bool) m :
  0 <= m <= 11 -> -1 <= monthStart l1 m - monthStart l2 m <= 1.
Proof.
  intros Hm.
  assert (m = 0 \/ m = 1 \/ m = 2 \/ m = 3 \/ m = 4 \/ m = 5 \/ m = 6
          \/ m = 7 \/ m = 8 \/ m = 9 \/ m = 10 \/ m = 11) as Hc by lia.
  destruct l1, l2; repeat destruct Hc as [-> | Hc]; try subst m; simpl; lia.
Qed.

Lemma MonthFromTime_range t : 0 <= MonthFromTime t <= 11.
Proof.
  unfold MonthFromTime.
  pose proof (DayWithinYear_range t) as H. rewrite DaysInYear_cases in H.
  by apply monthOfDay_spec.
Qed.

Lemma DateFromTime_range t : 1 <= DateFromTime t <= 31.
Proof.
  unfold DateFromTime, MonthFromTime.
  pose proof (DayWithinYear_range t) as H. rewrite DaysInYear_cases in H.
  apply monthOfDay_spec in H as [Hm Hd].
  pose proof (monthStart_next (InLeapYear (YearFromTime t)) _ Hm). lia.
Qed.

Lemma MakeDay_small y m dt :
  0 <= m <= 11 -> MakeDay y m dt = DayFromYear y + monthStart (InLeapYear y) m + dt - 1.
Proof.
  intros Hm. unfold MakeDay.
  rewrite Z.div_small, Z.mod_small, Z.add_0_r by lia. done.
Qed.

(** The calendar date of a time value names the day of that time value. *)
Lemma MakeDay_of_time t :
  MakeDay (YearFromTime t) (MonthFromTime t) (DateFromTime t) = Day t.
Proof.
  rewrite MakeDay_small by apply MonthFromTime_range.
  unfold DateFromTime, DayWithinYear. lia.
Qed.

Lemma MakeDate_of_time t : MakeDate (Day t) (TimeWithinDay t) = t.
Proof. unfold MakeDate, Day, TimeWithinDay, msPerDay. div_lia. Qed.

Lemma MakeTime_of_time t :
  MakeTime (HourFromTime t) (MinFromTime t) (SecFromTime t) (msFromTime t)
  = TimeWithinDay t.
Proof.
  unfold MakeTime, HourFromTime, MinFromTime, SecFromTime, msFromTime,
    TimeWithinDay, msPerDay.
  div_lia.
Qed.

Lemma TimeClip_Some t t' : TimeClip t = Some t' -> t' = t /\ Z.abs t <= maxTime.
Proof. unfold TimeClip. cases_leb; naive_solver. Qed.

Lemma TimeClip_in_range t : Z.abs t <= maxTime -> TimeClip t = Some t.
Proof. unfold TimeClip. cases_leb; [done | lia]. Qed.

Lemma MakeDay_add y m d k : MakeDay y m (d + k) = MakeDay y m d + k.
Proof. unfold MakeDay. lia. Qed.

Lemma MakeDate_add d k w : MakeDate (d + k) w = MakeDate d w + k * msPerDay.
Proof. unfold MakeDate. ring. Qed.

Lemma MakeDate_shift t k :
  MakeDate (Day t + k) (TimeWithinDay t) = t + k * msPerDay.
Proof. by rewrite MakeDate_add, MakeDate_of_time. Qed.

(** [d.setUTCDate(d.getUTCDate() + k)] adds [k] days. *)
Lemma setUTCDate_add t k :
  setUTCDate t (DateFromTime t + k) = TimeClip (t + k * msPerDay).
Proof.
  unfold setUTCDate.
  by rewrite MakeDay_add, MakeDay_of_time, MakeDate_shift.
Qed.

(** [d.setUTCMonth(d.getUTCMonth() + 1)] moves forward by the length of
    the current month. *)
Lemma setUTCMonth_next t :
  exists k, 28 <= k <= 31
    /\ setUTCMonth t (MonthFromTime t + 1) = TimeClip (t + k * msPerDay).
Proof.
  pose proof (MonthFromTime_range t) as Hm.
  pose proof (MakeDay_of_time t) as Hd.
  rewrite MakeDay_small in Hd by done.
  unfold setUTCMonth.
  set (y := YearFromTime t) in *. set (m := MonthFromTime t) in *.
  set (dt := DateFromTime t) in *.
  exists (MakeDay y (m + 1) dt - Day t). split.
  - destruct (decide (m = 11)) as [Heq | Hne].
    + rewrite Heq in *. unfold MakeDay.
      replace ((11 + 1) / 12) with 1 by done.
      replace ((11 + 1) mod 12) with 0 by done.
      rewrite DayFromYear_step, DaysInYear_cases.
      destruct (InLeapYear y); simpl in *; lia.
    + rewrite MakeDay_small by lia.
      pose proof (monthStart_next (InLeapYear y) m Hm). lia.
  - rewrite <- MakeDate_shift. do 2 f_equal. lia.
Qed.

(** [d.setUTCFullYear(d.getUTCFullYear() + 1)] moves forward by 364 to
    367 days. *)
Lemma setUTCFullYear_next t :
  exists k, 364 <= k <= 367
    /\ setUTCFullYear t (YearFromTime t + 1) = TimeClip (t + k * msPerDay).
Proof.
  pose proof (MonthFromTime_range t) as Hm.
  pose proof (MakeDay_of_time t) as Hd.
  rewrite MakeDay_small in Hd by done.
  unfold setUTCFullYear.
  set (y := YearFromTime t) in *. set (m := MonthFromTime t) in *.
  set (dt := DateFromTime t) in *.
  exists (MakeDay (y + 1) m dt - Day t). split.
  - rewrite MakeDay_small by done.
    rewrite DayFromYear_step, DaysInYear_cases.
    pose proof (monthStart_leap_diff (InLeapYear (y + 1)) (InLeapYear y) m Hm).
    destruct (InLeapYear y); lia.
  - rewrite <- MakeDate_shift. do 2 f_equal. lia.
Qed.

(** *** The ISO text of a time value reads back as that time value *)

Lemma digitVal_digit d : 0 <= d < 10 -> digitVal (JS.digit d) = Some d.
Proof.
  intros Hd.
  assert (d = 0 \/ d = 1 \/ d = 2 \/ d = 3 \/ d = 4 \/ d = 5 \/ d = 6
          \/ d = 7 \/ d = 8 \/ d = 9) as Hc by lia.
  repeat destruct Hc as [-> | Hc]; try subst d; reflexivity.
Qed.

Lemma readDigits_app n m acc s :
  readDigits (n + m) acc s
  = match readDigits n acc s with
    | Some (a, r) => readDigits m a r
    | None => None
    end.
Proof.
  revert acc s. induction n as [| n IH]; intros acc s; [done |].
  simpl. destruct s as [| c s]; [done |].
  destruct (digitVal c); [apply IH | done].
Qed.

Lemma readDigits_pad n z acc rest :
  0 <= z < 10 ^ Z.of_nat n ->
  readDigits n acc (pad n z rest) = Some (acc * 10 ^ Z.of_nat n + z, rest).
Proof.
  revert z acc rest. induction n as [| n IH]; intros z acc rest Hz.
  - simpl in *. f_equal. f_equal. lia.
  - rewrite Nat2Z.inj_succ, Z.pow_succ_r in * by lia.
    replace (S n) with (n + 1)%nat by lia.
    rewrite readDigits_app. simpl pad.
    replace (n + 1)%nat with (S n) by lia. simpl pad.
    rewrite IH by div_lia.
    cbn [readDigits]. unfold digit. rewrite digitVal_digit by div_lia.
    f_equal. f_equal. div_lia.
Qed.

Lemma readDigits_pad0 n z rest :
  0 <= z < 10 ^ Z.of_nat n -> readDigits n 0 (pad n z rest) = Some (z, rest).
Proof. intros Hz. by rewrite readDigits_pad. Qed.

Lemma readYear_digits c r :
  is_Some (digitVal c) -> readYear (String c r) = readDigits 4 0 (String c r).
Proof.
  intros [d Hd]. revert Hd.
  destruct c as [[] [] [] [] [] [] [] []]; try discriminate; reflexivity.
Qed.

Lemma readYear_isoYear y rest :
  -999999 <= y <= 999999 -> readYear (isoYear y rest) = Some (y, rest).
Proof.
  intros Hy. unfold isoYear.
  destruct (Z.leb_spec 0 y) as [Hpos | Hneg];
    [destruct (Z.leb_spec y 9999) as [Hsmall | Hbig] |]; cbn [andb].
  - pose proof (readDigits_pad0 4 y rest) as Hpad.
    cbn [pad] in *. rewrite readYear_digits.
    + apply Hpad. lia.
    + unfold digit. rewrite digitVal_digit by div_lia. eauto.
  - unfold readYear. apply readDigits_pad0. lia.
  - unfold readYear. rewrite readDigits_pad0 by lia. cbn.
    destruct (Z.eqb_spec (- y) 0); [lia |]. f_equal. f_equal. lia.
Qed.

Lemma YearFromTime_range t :
  Z.abs t <= maxTime -> -271821 <= YearFromTime t <= 275760.
Proof.
  intros Ht. unfold YearFromTime.
  pose proof (YearFromDay_spec (Day t)) as H.
  assert (-100000000 <= Day t <= 100000000) as Hd
    by (unfold Day, msPerDay, maxTime in *; div_lia).
  revert H Hd. generalize (Day t) as d. intros d.
  generalize (YearFromDay d) as y. intros y.
  unfold DayFromYear. intros. div_lia.
Qed.

Lemma expect_ok c rest : expect c (String c rest) = Some rest.
Proof. unfold expect. by rewrite Ascii.eqb_refl. Qed.

Lemma readTail_ms ms :
  0 <= ms < 1000 -> readTail (String "." (pad 3 ms "Z")) = Some ms.
Proof.
  intros Hms. unfold readTail. by rewrite (readDigits_pad0 3) by lia.
Qed.

(** Reading the text that [toISOString] writes gives the time value back. *)
Lemma parse_toISOString t :
  Z.abs t <= maxTime -> parse (toISOString t) = Some t.
Proof.
  intros Ht. unfold parse, toISOString.
  pose proof (YearFromTime_range t Ht) as Hy.
  pose proof (MonthFromTime_range t) as Hm.
  pose proof (DateFromTime_range t) as Hd.
  assert (0 <= HourFromTime t <= 23) as Hh by (unfold HourFromTime; div_lia).
  assert (0 <= MinFromTime t <= 59) as Hmi by (unfold MinFromTime; div_lia).
  assert (0 <= SecFromTime t <= 59) as Hs by (unfold SecFromTime; div_lia).
  assert (0 <= msFromTime t <= 999) as Hms by (unfold msFromTime; div_lia).
  rewrite readYear_isoYear by lia. cbn [mbind option_bind].
  repeat first
    [ rewrite expect_ok
    | rewrite (readDigits_pad0 2) by lia
    | rewrite readTail_ms by lia
    | progress cbn [mbind option_bind] ].
  replace (MonthFromTime t + 1 - 1) with (MonthFromTime t) by lia.
  rewrite MakeDay_of_time, MakeTime_of_time, MakeDate_of_time.
  repeat match goal with
    | |- context [(?a <=? ?b)] =>
        destruct (Z.leb_spec a b); [| lia]
    end.
  cbn [andb orb]. by apply TimeClip_in_range.
Qed.
End DateFacts.

(** ** Advancing [nextRun] *)

Module AdvanceFacts.
Import JS Date DateFacts Worker.
Local Open Scope Z_scope.

Lemma parse_in_range s t : parse s = Some t -> Z.abs t <= maxTime.
Proof.
  unfold parse. intros H.
  repeat match type of H with
    | (_ ≫= _) = Some _ =>
        apply bind_Some in H as (? & _ & H)
    | (let '(_, _) := ?p in _) = Some _ => destruct p
    | (if ?b then _ else _) = Some _ => destruct b; [| done]
    end.
  by apply TimeClip_Some in H as [-> ?].
Qed.

(** Without a usable [intervalMs] the date moves forward by a whole
    number of days, between 1 and 367. *)
Lemma advance_calendar t interval intervalMs :
  truthy intervalMs && isFinite intervalMs = false ->
  exists k, 1 <= k <= 367
    /\ advance (Some t) interval intervalMs = TimeClip (t + k * msPerDay).
Proof.
  intros Hms. unfold advance. rewrite Hms. cbn [mbind option_bind].
  repeat case_bool_decide.
  - exists 1. split; [lia | apply setUTCDate_add].
  - exists 7. split; [lia | apply setUTCDate_add].
  - destruct (setUTCMonth_next t) as (k & Hk & ->). exists k. split; [lia | done].
  - destruct (setUTCFullYear_next t) as (k & Hk & ->). exists k. split; [lia | done].
  - exists 1. split; [lia | apply setUTCDate_add].
Qed.

Lemma advance_custom t interval n :
  n <> 0 -> advance (Some t) interval (VNum n) = TimeClip (t + n).
Proof.
  intros Hn. unfold advance. cbn.
  destruct (Z.eqb_spec n 0); [done |]. done.
Qed.

Lemma TimeClip_valid t t' : TimeClip t = Some t' -> Z.abs t' <= maxTime.
Proof. by intros [-> ?]%TimeClip_Some. Qed.

Lemma usable_intervalMs v :
  truthy v && isFinite v = true -> exists n, v = VNum n /\ n <> 0.
Proof.
  destruct v as [| | b | n | | s]; cbn; rewrite ?andb_false_r; try done.
  intros H. exists n. split; [done |]. by intros ->.
Qed.

(** Whenever [intervalMs] is not a negative number, the advanced time
    value, if it is a valid date, is later than the one before. *)
Lemma advance_later t interval intervalMs t' :
  (forall n, intervalMs = VNum n -> 0 <= n) ->
  advance (Some t) interval intervalMs = Some t' -> t < t'.
Proof.
  intros Hpos Hadv.
  destruct (truthy intervalMs && isFinite intervalMs) eqn:Hms.
  - apply usable_intervalMs in Hms as (n & -> & Hn).
    specialize (Hpos n eq_refl).
    rewrite advance_custom in Hadv by done.
    apply TimeClip_Some in Hadv as [-> _]. lia.
  - destruct (advance_calendar t interval intervalMs Hms) as (k & Hk & Heq).
    rewrite Heq in Hadv. apply TimeClip_Some in Hadv as [-> _].
    unfold msPerDay. lia.
Qed.

(** C3: a monthly schedule due on 31 January 2025 is moved to 3 March
    2025: the day of the month is carried over as it is, not cut down to
    the 28 days of February, so that the February run is skipped. *)
Theorem monthly_from_jan_31_skips_february :
  incrementNextRunIso "2025-01-31T00:00:00Z" (VStr "monthly") VNull
    = Some "2025-03-03T00:00:00.000Z"
  /\ incrementNextRunIso "2025-01-31T00:00:00Z" (VStr "monthly") VNull
    <> isoOf "2025-02-28T00:00:00Z".
Proof. split; [by vm_compute | by vm_compute]. Qed.

(** C4 as the specification states it fails on a negative [intervalMs],
    which moves [nextRun] back, here by one second. *)
Lemma negative_intervalMs_moves_nextRun_back :
  incrementNextRunIso "2025-01-31T00:00:00Z" (VStr "custom") (VNum (-1000))
    = Some "2025-01-30T23:59:59.000Z"
  /\ parse "2025-01-31T00:00:00Z" = Some 1738281600000
  /\ parse "2025-01-30T23:59:59.000Z" = Some 1738281599000
  /\ ~ 1738281600000 < 1738281599000.
Proof. repeat split; by vm_compute. Qed.

(** C4, amended: for a [nextRun] of the ISO form, every [interval] and
    every [intervalMs] that is not a negative number (no number at all,
    zero, or a positive whole number of milliseconds), the function
    computes an instant strictly later than [nextRun]; it returns the
    ISO text of that instant whenever the instant is in the range of
    dates, and throws otherwise.  So every [nextRun] that it returns is
    strictly later than the one before. *)
Theorem nextRun_strictly_later s interval intervalMs t :
  parse s = Some t ->
  (forall n, intervalMs = VNum n -> 0 <= n) ->
  (forall next,
     incrementNextRunIso s interval intervalMs = Some next ->
     exists t', parse next = Some t' /\ t < t')
  /\ exists advanced,
       t < advanced
       /\ (advanced <= maxTime ->
           incrementNextRunIso s interval intervalMs
           = Some (toISOString advanced)
           /\ parse (toISOString advanced) = Some advanced)
       /\ (maxTime < advanced ->
           incrementNextRunIso s interval intervalMs = None).
Proof.
  intros Hs Hms.
  pose proof (parse_in_range s t Hs) as Ht.
  assert (exists a, t < a /\ advance (Some t) interval intervalMs = TimeClip a)
    as (a & Hlater & Hadv).
  { destruct (truthy intervalMs && isFinite intervalMs) eqn:Hfin.
    - apply usable_intervalMs in Hfin as (n & -> & Hn').
      specialize (Hms n eq_refl).
      exists (t + n). split; [lia | by apply advance_custom].
    - destruct (advance_calendar t interval intervalMs Hfin) as (k & Hk & ->).
      exists (t + k * msPerDay). split; [unfold msPerDay; lia | done]. }
  unfold incrementNextRunIso. rewrite Hs, Hadv. split.
  - intros next Hnext.
    destruct (TimeClip a) as [t' |] eqn:Hclip; [| done].
    injection Hnext as <-. apply TimeClip_Some in Hclip as [-> Hrange].
    exists a. split; [by apply parse_toISOString | done].
  - exists a. split; [done |]. split.
    + intros Hin. rewrite TimeClip_in_range by lia.
      split; [done |]. apply parse_toISOString. lia.
    + intros Hout. unfold TimeClip.
      destruct (Z.leb_spec (Z.abs a) maxTime); [lia | done].
Qed.

Lemma nextRun_strictly_later_witness :
  (forall next,
     incrementNextRunIso "2025-01-01T09:00:00Z" (VStr "daily") VUndef = Some next ->
     exists t', parse next = Some t' /\ 1735722000000 < t')
  /\ exists advanced,
       1735722000000 < advanced
       /\ (advanced <= maxTime ->
           incrementNextRunIso "2025-01-01T09:00:00Z" (VStr "daily") VUndef
           = Some (toISOString advanced)
           /\ parse (toISOString advanced) = Some advanced)
       /\ (maxTime < advanced ->
           incrementNextRunIso "2025-01-01T09:00:00Z" (VStr "daily") VUndef
           = None).
Proof.
  apply (nextRun_strictly_later "2025-01-01T09:00:00Z" (VStr "daily") VUndef
           1735722000000).
  - by vm_compute.
  - intros n Hn. discriminate Hn.
Defined.

End AdvanceFacts.

(** ** Random draws and the nonce *)

Module NonceFacts.
Import JS Worker.
Local Open Scope Z_scope.

Lemma round53_nonneg p : 0 <= p -> 0 <= round53 p.
Proof.
  intros Hp. unfold round53.
  destruct (Z.leb_spec (Z.log2 p + 1) 53); [done |].
  assert (0 < 2 ^ (Z.log2 p + 1 - 53)) by (apply Z.pow_pos_nonneg; lia).
  assert (0 <= p / 2 ^ (Z.log2 p + 1 - 53)) by (apply Z.div_pos; lia).
  destruct (_ || _); nia.
Qed.

(** A product below [c * 2^53] by at least [c] is still below it after
    rounding: half a unit in the last place is less than [c]. *)
Lemma round53_below p c :
  0 <= p -> 0 < c -> p <= c * (2 ^ 53 - 1) -> round53 p < c * 2 ^ 53.
Proof.
  intros Hp Hc Hle. unfold round53.
  destruct (Z.leb_spec (Z.log2 p + 1) 53) as [Hsmall | Hbig]; [lia |].
  assert (0 < p) as Hpos.
  { destruct (decide (p = 0)) as [-> | ?]; [| lia]. cbn in Hbig. lia. }
  pose proof (Z.log2_spec p Hpos) as [Hlo _].
  set (h := 2 ^ (Z.log2 p - 53)).
  assert (0 < h) as Hh by (apply Z.pow_pos_nonneg; lia).
  assert (2 ^ Z.log2 p = h * 2 ^ 53) as Hsplit.
  { unfold h. rewrite <- Z.pow_add_r by lia. f_equal. lia. }
  replace (Z.log2 p + 1 - 53 - 1) with (Z.log2 p - 53) by lia.
  replace (2 ^ (Z.log2 p + 1 - 53)) with (2 * h).
  2:{ unfold h. rewrite <- Z.pow_succ_r by lia. f_equal. lia. }
  fold h.
  assert (h < c) as Hhc.
  { apply (Z.mul_lt_mono_pos_r (2 ^ 53)); lia. }
  pose proof (Z.div_mod p (2 * h) ltac:(lia)) as Hdm.
  pose proof (Z.mod_pos_bound p (2 * h) ltac:(lia)) as Hr.
  set (q := p / (2 * h)) in *. set (r := p mod (2 * h)) in *.
  destruct (Z.ltb_spec r h) as [Hlt | Hge]; cbn [orb].
  - nia.
  - destruct ((r =? h) && Z.even q); nia.
Qed.

(** [Math.floor(Math.random() * c)] is one of [0 .. c-1]. *)
Lemma floorMul_range r c :
  random_ok r -> 0 < c -> 0 <= floorMul r c < c.
Proof.
  intros [[Hm0 Hm] [He _]] Hc. unfold floorMul.
  assert (0 < 2 ^ expo r) as Hpow by (apply Z.pow_pos_nonneg; lia).
  assert (2 ^ 53 <= 2 ^ expo r) as Hmono by (apply Z.pow_le_mono_r; lia).
  split.
  - apply Z.div_pos; [apply round53_nonneg; nia | lia].
  - apply Z.div_lt_upper_bound; [lia |].
    pose proof (round53_below (mant r * c) c ltac:(nia) Hc ltac:(nia)). nia.
Qed.

(** The digits written by [decimal] read back as the number, and there
    are no more of them than the size of the number requires. *)
Lemma decimal_spec fuel z acc :
  0 <= z < 10 ^ (Z.of_nat fuel + 1) ->
  exists k : nat,
    (1 <= k)%nat
    /\ String.length (decimal fuel z acc) = (k + String.length acc)%nat
    /\ (k = 1%nat \/ 10 ^ (Z.of_nat k - 1) <= z)
    /\ forall a, WorkerAuth.readNat a (decimal fuel z acc)
                 = WorkerAuth.readNat (a * 10 ^ Z.of_nat k + z) acc.
Proof.
  revert z acc. induction fuel as [| f IH]; intros z acc Hz.
  - exists 1%nat. cbn [decimal]. repeat split; [lia | by left |].
    intros a. cbn [WorkerAuth.readNat]. rewrite Z.mod_small by (cbn in Hz; lia).
    rewrite DateFacts.digitVal_digit by (cbn in Hz; lia).
    cbn [mbind option_bind]. f_equal; lia.
  - cbn [decimal]. destruct (Z.ltb_spec z 10) as [Hsmall | Hbig].
    + exists 1%nat. repeat split; [lia | by left |].
      intros a. cbn [WorkerAuth.readNat]. rewrite Z.mod_small by lia.
      rewrite DateFacts.digitVal_digit by lia.
      cbn [mbind option_bind]. f_equal; lia.
    + rewrite Nat2Z.inj_succ in Hz.
      replace (Z.succ (Z.of_nat f) + 1) with (Z.succ (Z.of_nat f + 1)) in Hz by lia.
      rewrite Z.pow_succ_r in Hz by lia.
      destruct (IH (z / 10) (String (digit (z mod 10)) acc)) as (k & Hk & Hlen & Hmin & Hread).
      { DateFacts.div_lia. }
      exists (S k). split; [lia |]. split; [rewrite Hlen; cbn; lia |]. split.
      * right. rewrite Nat2Z.inj_succ.
        replace (Z.succ (Z.of_nat k) - 1) with (Z.succ (Z.of_nat k - 1)) by lia.
        rewrite Z.pow_succ_r by lia.
        destruct Hmin as [-> | Hmin]; [cbn; lia |]. DateFacts.div_lia.
      * intros a. rewrite Hread. cbn [WorkerAuth.readNat].
        rewrite DateFacts.digitVal_digit by DateFacts.div_lia.
        cbn [mbind option_bind]. f_equal.
        rewrite Nat2Z.inj_succ, Z.pow_succ_r by lia. DateFacts.div_lia.
Qed.

Lemma log2_fuel n : 0 <= n -> n < 10 ^ (Z.of_nat (Z.to_nat (Z.log2 n)) + 1).
Proof.
  intros Hn. rewrite Z2Nat.id by apply Z.log2_nonneg.
  destruct (decide (n = 0)) as [-> | Hne]; [done |].
  pose proof (Z.log2_spec n ltac:(lia)) as [_ Hhi].
  eapply Z.lt_le_trans; [apply Hhi |].
  rewrite <- Z.add_1_r.
  apply Z.pow_le_mono_l. lia.
Qed.

(** C10: the nonce is the decimal text of an integer from 0 to 999999,
    so it has at most six digits. *)
Theorem handleNonce_six_digits r now sh :
  random_ok r ->
  exists n, 0 <= n < 1000000
    /\ (handleNonce r now sh).1 = toString n
    /\ WorkerAuth.readNat 0 (toString n) = Some n
    /\ (String.length (toString n) <= 6)%nat.
Proof.
  intros Hr. exists (floorMul r 1000000).
  pose proof (floorMul_range r 1000000 Hr ltac:(lia)) as Hn.
  split; [done |]. split; [done |].
  unfold toString. destruct (Z.ltb_spec (floorMul r 1000000) 0); [lia |].
  set (n := floorMul r 1000000) in *.
  destruct (decimal_spec (Z.to_nat (Z.log2 n)) n "") as (k & Hk & Hlen & Hmin & Hread).
  { split; [lia | apply log2_fuel; lia]. }
  split.
  - rewrite Hread. cbn [WorkerAuth.readNat]. f_equal; lia.
  - rewrite Hlen. cbn [String.length].
    destruct Hmin as [-> | Hmin]; [lia |].
    destruct (decide (k <= 6)%nat); [lia |].
    assert (10 ^ 6 <= 10 ^ (Z.of_nat k - 1)) by (apply Z.pow_le_mono_r; lia).
    lia.
Qed.

Lemma handleNonce_six_digits_witness :
  exists n, 0 <= n < 1000000
    /\ (handleNonce {| mant := 2 ^ 53 - 1; expo := 53 |} 0 emptyShard).1
       = toString n
    /\ WorkerAuth.readNat 0 (toString n) = Some n
    /\ (String.length (toString n) <= 6)%nat.
Proof.
  apply (handleNonce_six_digits {| mant := 2 ^ 53 - 1; expo := 53 |} 0 emptyShard).
  unfold random_ok. cbn. lia.
Defined.

End NonceFacts.

(** ** The per-user store *)

Module ShardFacts.
Import JS Worker.
Local Open Scope Z_scope.

(** *** Objects *)

Lemma get_insert_ne (o : gmap string value) k k' v :
  k <> k' -> get (<[k := v]> o) k' = get o k'.
Proof. intros Hne. unfold get. by rewrite lookup_insert_ne. Qed.

Lemma get_insert_eq (o : gmap string value) k v : get (<[k := v]> o) k = v.
Proof. unfold get. by rewrite lookup_insert_eq. Qed.

Lemma get_json o k : get (json o) k = afterJson (get o k).
Proof.
  unfold get, json. rewrite lookup_omap.
  destruct (o !! k) as [[] |]; reflexivity.
Qed.

Lemma afterJson_truthy v : truthy v = true -> afterJson v = v.
Proof. by destruct v. Qed.

Lemma truthy_afterJson v : truthy (afterJson v) = truthy v.
Proof. by destruct v. Qed.

Lemma or_else_truthy_r a b : truthy b = true -> truthy (or_else a b) = true.
Proof. unfold or_else. by destruct (truthy a) eqn:?. Qed.

Lemma or_else_truthy_l a b : truthy a = true -> or_else a b = a.
Proof. unfold or_else. by intros ->. Qed.

Lemma or_else_idem a b : or_else (or_else a b) b = or_else a b.
Proof.
  unfold or_else. destruct (truthy a) eqn:Ha; [by rewrite Ha |].
  by destruct (truthy b).
Qed.

(** *** Stored transactions *)

Lemma txEntry_fields id name type address amount currency start_date
    time_of_day interval times note status txHash timestamp :
  let e := txEntry id name type address amount currency start_date
             time_of_day interval times note status txHash timestamp in
  e !! "id" = Some id /\ e !! "timestamp" = Some timestamp
  /\ e !! "status" = Some status /\ e !! "txHash" = Some txHash
  /\ e !! "note" = Some note /\ e !! "amount" = Some amount
  /\ e !! "address" = Some address /\ e !! "scheduleId" = None.
Proof. by vm_compute. Qed.


Lemma uuidv4_length rnd : String.length (uuidv4 rnd) = 36%nat.
Proof. reflexivity. Qed.

Lemma hexDigit_isHex v : 0 <= v < 16 -> Uuid.isHex (hexDigit v) = true.
Proof.
  intros Hv.
  assert (v = 0 \/ v = 1 \/ v = 2 \/ v = 3 \/ v = 4 \/ v = 5 \/ v = 6 \/ v = 7
          \/ v = 8 \/ v = 9 \/ v = 10 \/ v = 11 \/ v = 12 \/ v = 13 \/ v = 14
          \/ v = 15) as Hc by lia.
  repeat destruct Hc as [-> | Hc]; try subst v; reflexivity.
Qed.

Lemma hexDigit_isVariant r :
  0 <= r < 16 -> Uuid.isVariant (hexDigit (Z.lor (Z.land r 3) 8)) = true.
Proof.
  intros Hr.
  assert (r = 0 \/ r = 1 \/ r = 2 \/ r = 3 \/ r = 4 \/ r = 5 \/ r = 6 \/ r = 7
          \/ r = 8 \/ r = 9 \/ r = 10 \/ r = 11 \/ r = 12 \/ r = 13 \/ r = 14
          \/ r = 15) as Hc by lia.
  repeat destruct Hc as [-> | Hc]; try subst r; reflexivity.
Qed.

Lemma uuid_fill_follows rnd i template :
  (forall j, random_ok (rnd j)) ->
  Uuid.follows template (uuid_fill rnd i template) = true.
Proof.
  intros Hrnd. revert i. induction template as [| c template IH]; intros i; [done |].
  cbn [uuid_fill Uuid.follows].
  pose proof (NonceFacts.floorMul_range (rnd i) 16 (Hrnd i) ltac:(lia)) as Hr.
  destruct (Ascii.eqb c "x") eqn:Hx; cbn [orb].
  - by rewrite hexDigit_isHex, IH by done.
  - destruct (Ascii.eqb c "y") eqn:Hy; cbn [orb].
    + by rewrite hexDigit_isVariant, IH by done.
    + by rewrite Ascii.eqb_refl, IH.
Qed.









(** *** Sign-in *)

(** C2: [handleVerify] accepts every well-formed signature, whichever
    address it recovers to: the recovered address is not compared with
    the address of the shard, and the nonce is used up. *)
Theorem handleVerify_accepts_any_signer
    (verifyMessage : string -> string -> option string)
    address signature sh signer :
  truthy (get (auth sh) "nonce") = true ->
  verifyMessage (loginMessage (get (auth sh) "nonce")) signature = Some signer ->
  handleVerify verifyMessage address signature sh
  = (VerifySuccess, setAuth (<["nonce" := VNull]> (auth sh)) sh).
Proof.
  intros Hnonce Hsig. unfold handleVerify. by rewrite Hnonce, Hsig.
Qed.

Lemma handleVerify_accepts_any_signer_witness :
  let sh := setAuth {[ "nonce" := VStr "123456" ]} emptyShard in
  let signature := signAs "0xattacker" (loginMessage (VStr "123456")) in
  recoverSigner (loginMessage (VStr "123456")) signature = Some "0xattacker"
  /\ "0xattacker" <> "0xvictim"
  /\ handleVerify recoverSigner "0xvictim" signature sh
     = (VerifySuccess, setAuth (<["nonce" := VNull]> (auth sh)) sh).
Proof.
  intros sh signature. split; [reflexivity |]. split; [discriminate |].
  apply (handleVerify_accepts_any_signer recoverSigner "0xvictim" signature sh
           "0xattacker"); reflexivity.
Defined.

(** *** Resolving a recipient by name *)

Lemma filter_none {A} (P : A -> Prop) `{!∀ x, Decision (P x)} (l : list A) :
  (forall j y, l !! j = Some y -> ~ P y) -> filter P l = [].
Proof.
  induction l as [| a l IH]; intros Hnone; [done |].
  rewrite filter_cons_False by apply (Hnone 0%nat a eq_refl).
  apply IH. intros j y Hj. apply (Hnone (S j) y Hj).
Qed.

(** When exactly one position of a list holds an element satisfying
    [P], the filter is that element alone. *)
Lemma filter_unique {A} (P : A -> Prop) `{!∀ x, Decision (P x)} (l : list A) i x :
  l !! i = Some x -> P x ->
  (forall j y, l !! j = Some y -> P y -> j = i) ->
  filter P l = [x].
Proof.
  revert i. induction l as [| a l IH]; intros i Hi Hx Huniq; [done |].
  destruct i as [| i]; simpl in Hi.
  - injection Hi as ->. rewrite filter_cons_True by done. f_equal.
    apply filter_none. intros j y Hj HPy.
    by specialize (Huniq (S j) y Hj HPy).
  - rewrite filter_cons_False.
    + apply (IH i); [done | done |].
      intros j y Hj HPy. specialize (Huniq (S j) y Hj HPy). lia.
    + intros Ha. by specialize (Huniq 0%nat a eq_refl Ha).
Qed.

(** C7 as the specification states it fails when the query carries white space around it:
    the recipient named as the query is spelt is not found as the exact
    match. *)
Lemma exact_name_with_space_is_ambiguous :
  let alice := {| name := "Alice "; wallet := "0x01"; note := "" |} in
  let smith := {| name := "Alice Smith"; wallet := "0x02"; note := "" |} in
  let sh := {| auth := ∅; recipients := [alice; smith];
               transactions := []; schedules := [] |} in
  filter (exactMatch (toLowerCase "Alice ")) (recipients sh) = [alice]
  /\ getRecipientByName "Alice " sh = Ambiguous [alice; smith]
  /\ getRecipientByName "Alice " sh <> Exact alice.
Proof. by vm_compute. Qed.

Lemma filter_some {A} (P : A -> Prop) `{!∀ x, Decision (P x)} (l : list A) i x :
  l !! i = Some x -> P x -> exists a rest, filter P l = a :: rest.
Proof.
  revert i. induction l as [| b l IH]; intros i Hi Hx; [done |].
  destruct (decide (P b)).
  - rewrite filter_cons_True by done. eauto.
  - rewrite filter_cons_False by done. destruct i as [| i]; cbn in Hi.
    + by injection Hi as ->.
    + by apply (IH i).
Qed.

(** Two positions holding elements that satisfy [P] leave at least two
    elements in the filter. *)
Lemma filter_two {A} (P : A -> Prop) `{!∀ x, Decision (P x)} (l : list A) i j x y :
  i <> j -> l !! i = Some x -> l !! j = Some y -> P x -> P y ->
  exists a b rest, filter P l = a :: b :: rest.
Proof.
  revert i j. induction l as [| c l IH]; intros i j Hij Hi Hj Hx Hy; [done |].
  destruct i as [| i], j as [| j]; cbn in Hi, Hj; [done | | |].
  - injection Hi as ->. rewrite filter_cons_True by done.
    destruct (filter_some P l j y Hj Hy) as (b & rest & ->). eauto.
  - injection Hj as ->. rewrite filter_cons_True by done.
    destruct (filter_some P l i x Hi Hx) as (b & rest & ->). eauto.
  - destruct (IH i j ltac:(lia) Hi Hj Hx Hy) as (a & b & rest & Heq).
    destruct (decide (P c)).
    + rewrite filter_cons_True, Heq by done. eauto.
    + rewrite filter_cons_False by done. eauto.
Qed.

(** C7, amended: the query is lower-cased and trimmed, the stored names
    are lower-cased only.  When exactly one recipient's name equals that
    query the answer is this recipient as an exact match, whatever the
    number of names that contain the query; names containing the query
    are looked at only when no name equals it; and two or more matches
    of the class that decides give an ambiguous answer.  The query and
    the names are texts of ASCII characters. *)
Theorem getRecipientByName_exact_first query_name sh :
  isAscii query_name = true ->
  forallb (λ r, isAscii (name r)) (recipients sh) = true ->
  let query := trim (toLowerCase query_name) in
  let rs := recipients sh in
  let only (P : Recipient -> Prop) i r :=
    rs !! i = Some r /\ P r /\ forall j r', rs !! j = Some r' -> P r' -> j = i in
  let two (P : Recipient -> Prop) :=
    exists i j r r', i <> j /\ rs !! i = Some r /\ rs !! j = Some r' /\ P r /\ P r' in
  let none (P : Recipient -> Prop) := forall i r, rs !! i = Some r -> ~ P r in
  (forall i r, only (exactMatch query) i r ->
     getRecipientByName query_name sh = Exact r)
  /\ (two (exactMatch query) ->
      getRecipientByName query_name sh
      = Ambiguous (filter (exactMatch query) rs))
  /\ (none (exactMatch query) ->
      (none (partialMatch query) ->
       getRecipientByName query_name sh = RecipientNotFound)
      /\ (forall i r, only (partialMatch query) i r ->
          getRecipientByName query_name sh = PartialUnique r)
      /\ (two (partialMatch query) ->
          getRecipientByName query_name sh
          = Ambiguous (filter (partialMatch query) rs))).
Proof.
  intros _ _ query rs only two none. unfold getRecipientByName.
  fold query. fold rs.
  split; [| split].
  - intros i r (Hi & Hr & Huniq).
    by rewrite (filter_unique _ _ i r Hi Hr Huniq).
  - intros (i & j & r & r' & Hij & Hi & Hj & Hr & Hr').
    by destruct (filter_two _ rs i j r r' Hij Hi Hj Hr Hr') as (a & b & rest & ->).
  - intros Hnone. rewrite (filter_none _ rs Hnone).
    split; [| split].
    + intros Hnop. by rewrite (filter_none _ rs Hnop).
    + intros i r (Hi & Hr & Huniq).
      by rewrite (filter_unique _ _ i r Hi Hr Huniq).
    + intros (i & j & r & r' & Hij & Hi & Hj & Hr & Hr').
      by destruct (filter_two _ rs i j r r' Hij Hi Hj Hr Hr')
        as (a & b & rest & ->).
Qed.

Lemma getRecipientByName_exact_first_witness :
  let alice := {| name := "Alice"; wallet := "0x01"; note := "" |} in
  let smith := {| name := "Alice Smith"; wallet := "0x02"; note := "" |} in
  let malice := {| name := "Malice"; wallet := "0x03"; note := "" |} in
  let sh := {| auth := ∅; recipients := [smith; alice; malice];
               transactions := []; schedules := [] |} in
  getRecipientByName "  ALICE " sh = Exact alice.
Proof.
  intros alice smith malice sh.
  destruct (getRecipientByName_exact_first "  ALICE " sh eq_refl eq_refl)
    as [Hexact _].
  apply (Hexact 1%nat alice). split; [reflexivity |]. split; [reflexivity |].
  intros [| [| [| j]]] r' Hj Hr'; cbn in Hj; try done;
    injection Hj as <-; by vm_compute in Hr'.
Defined.

End ShardFacts.

(** ** Worker authentication *)

Module WorkerAuthFacts.
Import JS WorkerAuth.
Local Open Scope Z_scope.

Lemma present_Some s : s <> "" -> present (Some s) = true.
Proof.
  intros Hs. unfold present. by destruct (String.eqb_spec s "").
Qed.

(** C8 as the specification states it fails on the error: a request 301 seconds old is
    answered 401, not 403. *)
Lemma stale_request_is_not_answered_403 :
  workerAuth Samples.sampleHmac "secret" (1738281600000 + 301000)
    Samples.signedRequest
  = Reject 401 "Timestamp too old"
  /\ forall error,
       workerAuth Samples.sampleHmac "secret" (1738281600000 + 301000)
         Samples.signedRequest
       <> Reject 403 error.
Proof.
  assert (workerAuth Samples.sampleHmac "secret" (1738281600000 + 301000)
            Samples.signedRequest
          = Reject 401 "Timestamp too old") as H by (vm_compute; exact eq_refl).
  split; [exact H |]. intros error. rewrite H. discriminate.
Qed.

(** C8, amended: a signed POST or PUT whose timestamp is more than 300
    seconds away from the clock of the server, in either direction, is
    answered 401 (unauthorized) and the handler that executes the
    payment does not run; within 300 seconds the request is not turned
    down for its age, and runs the handler when its signature is the
    expected one. *)
Theorem stale_timestamp_unauthorized {A} hmac secret now (handler : Request -> A)
    req signature text ts :
  method req = "POST" \/ method req = "PUT" ->
  x_worker_auth req = Some signature -> signature <> "" ->
  x_worker_timestamp req = Some text -> text <> "" ->
  Number text = VNum ts ->
  (300000 < Z.abs (now - ts) ->
     workerAuth hmac secret now req = Reject 401 "Timestamp too old"
     /\ processRecurringRoute hmac secret now handler req
        = inl (Reject 401 "Timestamp too old"))
  /\ (Z.abs (now - ts) <= 300000 ->
     workerAuth hmac secret now req <> Reject 401 "Timestamp too old"
     /\ (signature = hmac secret (text +:+ signedBody req) ->
         processRecurringRoute hmac secret now handler req
         = inr (handler req))).
Proof.
  intros Hmethod Hsig Hsig' Hts Hts' Hnum.
  assert (negb (String.eqb (method req) "POST")
          && negb (String.eqb (method req) "PUT") = false) as Hm.
  { destruct Hmethod as [-> | ->]; reflexivity. }
  unfold processRecurringRoute, workerAuth.
  rewrite Hm, Hsig, Hts, !present_Some by done.
  cbn [negb orb from_option id]. rewrite Hnum.
  change (5 * 60 * 1000) with 300000.
  split; intros Hage.
  - destruct (Z.ltb_spec 300000 (Z.abs (now - ts))); [done | lia].
  - destruct (Z.ltb_spec 300000 (Z.abs (now - ts))); [lia |].
    split.
    + destruct (String.eqb signature _); cbn; discriminate.
    + intros ->. by rewrite String.eqb_refl.
Qed.

Lemma stale_timestamp_unauthorized_witness :
  workerAuth Samples.sampleHmac "secret" (1738281600000 + 299000)
    Samples.signedRequest
  <> Reject 401 "Timestamp too old"
  /\ processRecurringRoute Samples.sampleHmac "secret"
       (1738281600000 + 299000) (λ _, "paid") Samples.signedRequest
     = inr "paid".
Proof.
  destruct (stale_timestamp_unauthorized Samples.sampleHmac "secret"
              (1738281600000 + 299000) (λ _, "paid") Samples.signedRequest
              (Samples.sampleHmac "secret" ("1738281600000" +:+ "{}"))
              "1738281600000" 1738281600000) as [_ Hfresh].
  - left. reflexivity.
  - reflexivity.
  - discriminate.
  - reflexivity.
  - discriminate.
  - reflexivity.
  - destruct Hfresh as [Hage Hrun]; [by vm_compute |].
    split; [exact Hage | apply Hrun; reflexivity].
Defined.

End WorkerAuthFacts.

(** ** The cron handler *)

Module CronFacts.
Import JS Date DateFacts Worker ShardFacts.
Local Open Scope Z_scope.

(** *** The state *)

Lemma shardAt_onShard key f w : shardAt key (onShard key f w) = f (shardAt key w).
Proof. unfold shardAt, onShard. cbn. by rewrite lookup_insert_eq. Qed.

Lemma shardAt_onShard_ne key key' f w :
  key <> key' -> shardAt key' (onShard key f w) = shardAt key' w.
Proof. intros Hne. unfold shardAt, onShard. cbn. by rewrite lookup_insert_ne. Qed.

Lemma kv_onShard key f w : kv (onShard key f w) = kv w.
Proof. done. Qed.

Lemma shardAt_putIndex key k s w : shardAt key (putIndex k s w) = shardAt key w.
Proof. done. Qed.

Lemma shardAt_deleteScheduleIndex key k w :
  shardAt key (deleteScheduleIndex k w) = shardAt key w.
Proof. done. Qed.

(** *** Requests handled by a shard *)

Lemma toISOString_truthy t : truthy (VStr (toISOString t)) = true.
Proof.
  unfold toISOString, isoYear.
  destruct (_ && _); [done |]. by destruct (0 <=? _).
Qed.

Lemma txRecord_fields amount note status recipient start_date txHash :
  let r := txRecord amount note status recipient start_date txHash in
  get r "address" = recipient /\ get r "amount" = amount
  /\ get r "intent" = VStr "recurring" /\ get r "start_date" = start_date
  /\ get r "time_of_day" = VUndef /\ get r "currency" = VUndef
  /\ get r "name" = VStr "Recurring Payment" /\ get r "note" = note
  /\ get r "status" = status /\ get r "txHash" = txHash
  /\ get r "interval" = VUndef /\ get r "times" = VUndef.
Proof. by vm_compute. Qed.

(** The record that the handler sends is stored, whatever status, note
    and hash it carries, when the recipient and the amount are there. *)
Lemma fetchStoreTransaction_txRecord address rnd today_at stored_at
    amount note status recipient at_ txHash sh :
  address <> "" -> truthy amount = true -> truthy recipient = true ->
  truthy status = true ->
  exists tx,
    fetchStoreTransaction address rnd today_at stored_at
      (txRecord amount note status recipient (VStr (toISOString at_)) txHash) sh
    = setTransactions (transactions sh ++ [tx]) sh
    /\ tx !! "status" = Some status
    /\ tx !! "txHash" = Some (or_else (afterJson txHash) VNull)
    /\ tx !! "note" = Some (or_else (or_else (afterJson note) VNull) (VStr "NA"))
    /\ tx !! "id" = Some (VStr (uuidv4 rnd))
    /\ tx !! "scheduleId" = None.
Proof.
  intros Haddr Hamount Hrecipient Hstatus.
  unfold fetchStoreTransaction.
  destruct (String.eqb_spec address ""); [done |].
  unfold storeTransaction.
  rewrite !get_json.
  destruct (txRecord_fields amount note status recipient
              (VStr (toISOString at_)) txHash)
    as (-> & -> & -> & -> & -> & -> & -> & -> & -> & -> & -> & ->).
  rewrite (afterJson_truthy recipient), (afterJson_truthy amount),
    (afterJson_truthy status) by done.
  rewrite (or_else_truthy_l recipient), (or_else_truthy_l status) by done.
  rewrite Hrecipient, Hamount.
  change (or_else (VStr "recurring") _) with (VStr "recurring").
  rewrite (or_else_truthy_l (VStr (toISOString at_))) by apply toISOString_truthy.
  rewrite toISOString_truthy.
  cbn [negb orb truthy String.eqb Ascii.eqb Bool.eqb snd].
  eexists. split; [reflexivity |].
  rewrite or_else_idem.
  pose proof (txEntry_fields (VStr (uuidv4 rnd))
    (or_else (VStr "Recurring Payment") VNull) (VStr "recurring") recipient
    amount (or_else VUndef (VStr "USDC")) (VStr (toISOString at_))
    (or_else VUndef VNull) (or_else VUndef VNull) (or_else VUndef VNull)
    (or_else (or_else (afterJson note) VNull) (VStr "NA")) status
    (or_else (afterJson txHash) VNull) (VStr (toISOString stored_at))) as H.
  cbv zeta in H.
  destruct H as (Hid & _ & Hst & Hhash & Hnote & _ & _ & Hsid).
  by repeat split.
Qed.

Lemma fetchStoreTransaction_schedules address rnd today_at stored_at body sh :
  schedules (fetchStoreTransaction address rnd today_at stored_at body sh)
  = schedules sh.
Proof.
  unfold fetchStoreTransaction, storeTransaction.
  destruct (String.eqb address ""); [done |]. by destruct (_ || _).
Qed.

Lemma fetchUpdateSchedule_transactions address scheduleId patch sh :
  transactions (fetchUpdateSchedule address scheduleId patch sh)
  = transactions sh.
Proof.
  unfold fetchUpdateSchedule, updateSchedule.
  destruct (String.eqb address ""); [done |].
  destruct (String.eqb scheduleId ""); [done |].
  by destruct (list_find _ _) as [[idx old] |].
Qed.

Lemma fetchUpdateSchedule_found address scheduleId patch sh idx old :
  address <> "" -> scheduleId <> "" ->
  list_find (hasId scheduleId) (schedules sh) = Some (idx, old) ->
  fetchUpdateSchedule address scheduleId patch sh
  = setSchedules (<[idx := json patch ∪ old]> (schedules sh)) sh.
Proof.
  intros Ha Hs Hfind. unfold fetchUpdateSchedule, updateSchedule.
  destruct (String.eqb_spec address ""); [done |].
  destruct (String.eqb_spec scheduleId ""); [done |].
  by rewrite Hfind.
Qed.

(** [{ ...old, ...patch }]: the fields of the patch win. *)
Lemma get_union (patch old : gmap string value) k :
  get (patch ∪ old) k = match patch !! k with Some v => v | None => get old k end.
Proof.
  unfold get. rewrite lookup_union.
  by destruct (patch !! k), (old !! k).
Qed.

Lemma patched_schedule address scheduleId patch sh idx old :
  address <> "" -> scheduleId <> "" ->
  list_find (hasId scheduleId) (schedules sh) = Some (idx, old) ->
  schedules (fetchUpdateSchedule address scheduleId patch sh) !! idx
  = Some (json patch ∪ old).
Proof.
  intros Ha Hs Hfind. rewrite (fetchUpdateSchedule_found _ _ _ _ idx old) by done.
  apply list_find_Some in Hfind as (Hidx & _ & _).
  cbn. apply list_lookup_insert_eq. by eapply lookup_lt_Some.
Qed.

(** *** One entry *)

Lemma isDue_true now s :
  isDue now s = true <-> exists t, parse (nextRun s) = Some t /\ t <= now.
Proof.
  unfold isDue. destruct (parse (nextRun s)) as [t |].
  - destruct (Z.ltb_spec now t); split.
    + done.
    + intros (t' & [= <-] & Hle). lia.
    + intros _. exists t. split; [done | lia].
    + done.
  - split; [done |]. by intros (t & Hnone & _).
Qed.

(** An entry that is not due is left alone: nothing is sent, stored or
    written. *)
Lemma processOne_not_due now e s w : isDue now s = false -> processOne now e s w = w.
Proof.
  unfold isDue, processOne. destruct (parse (nextRun s)); [| done].
  by destruct (now <? _).
Qed.

Lemma processOne_due now e s w t :
  parse (nextRun s) = Some t -> t <= now ->
  processOne now e s w
  = let key := toLowerCase (userAddress s) in
    let store record :=
      onShard key (fetchStoreTransaction (userAddress s) (rnd e)
                     (today_at e) (stored_at e) record) in
    let update patch :=
      onShard key (fetchUpdateSchedule (userAddress s) (scheduleId s) patch) in
    if replySucceeded (reply e) then
      let w :=
        store (txRecord (amount s) (or_else (entry_note s) (VStr ""))
                 (VStr "completed") (recipient s)
                 (VStr (toISOString (record_at e)))
                 (or_else (replyHash (reply e)) VNull)) w in
      match incrementNextRunIso (nextRun s) (interval s) (intervalMs s) with
      | None => w
      | Some next =>
          match (λ n, n - 1) <$> times_remaining s with
          | Some n =>
              if n <=? 0 then
                update (list_to_map [("active", VBool false);
                                     ("times_remaining", VNum 0)])
                  (deleteScheduleIndex (scheduleId s) w)
              else
                update (list_to_map [("nextRun", VStr next);
                                     ("times_remaining", VNum n)])
                  (putIndex (scheduleId s)
                     (setNextRun next (setTimesRemaining (Some n) s)) w)
          | None =>
              update (list_to_map [("nextRun", VStr next);
                                   ("times_remaining", VNull)])
                (putIndex (scheduleId s)
                   (setNextRun next (setTimesRemaining None s)) w)
          end
      end
    else
      let w :=
        store (txRecord (amount s) (failureNote (reply e)) (VStr "failed")
                 (recipient s) (VStr (toISOString (record_at e))) VNull) w in
      match TimeClip (retry_at e + retryMs) with
      | None => w
      | Some t' =>
          update (list_to_map [("nextRun", VStr (toISOString t'))])
            (putIndex (scheduleId s) (setNextRun (toISOString t') s) w)
      end.
Proof.
  intros Hparse Hdue. unfold processOne. rewrite Hparse.
  destruct (Z.ltb_spec now t); [lia |].
  cbv zeta. destruct (replySucceeded (reply e)); [| done].
  destruct (incrementNextRunIso _ _ _); [| done].
  by destruct (times_remaining s).
Qed.

(** What one entry does to the index: only its own key is touched, and
    what is written there carries the identifier of the entry. *)
Lemma processOne_kv now e s w :
  kv (processOne now e s w) = kv w
  \/ kv (processOne now e s w) = delete (scheduleId s) (kv w)
  \/ exists s', scheduleId s' = scheduleId s
       /\ kv (processOne now e s w) = <[scheduleId s := s']> (kv w).
Proof.
  destruct (isDue now s) eqn:Hdue.
  - apply isDue_true in Hdue as (t & Hparse & Hle).
    rewrite (processOne_due now e s w t) by done. cbv zeta.
    destruct (replySucceeded (reply e)).
    + destruct (incrementNextRunIso _ _ _) as [next |]; [| by left].
      destruct (times_remaining s) as [n |]; cbn [fmap option_fmap option_map].
      * destruct (n - 1 <=? 0); [right; left; done |].
        right; right. by refine (ex_intro _ _ (conj _ eq_refl)).
      * right; right. by refine (ex_intro _ _ (conj _ eq_refl)).
    + destruct (TimeClip _); [| by left].
      right; right. by refine (ex_intro _ _ (conj _ eq_refl)).
  - left. by rewrite processOne_not_due.
Qed.

Lemma processOne_kv_other now e s w k :
  k <> scheduleId s -> kv (processOne now e s w) !! k = kv w !! k.
Proof.
  intros Hne.
  destruct (processOne_kv now e s w) as [-> | [-> | (s' & _ & ->)]].
  - done.
  - by rewrite lookup_delete_ne.
  - by rewrite lookup_insert_ne.
Qed.

Lemma processOne_kv_wf now e s w :
  kv_wf (kv w) -> kv_wf (kv (processOne now e s w)).
Proof.
  intros Hwf k x.
  destruct (processOne_kv now e s w) as [-> | [-> | (s' & Hid & ->)]].
  - apply Hwf.
  - intros [_ Hx]%lookup_delete_Some. by apply Hwf.
  - intros [[<- <-] | [_ Hx]]%lookup_insert_Some; [done | by apply Hwf].
Qed.

(** *** Runs of the handler *)

Lemma processOne_retired id now e s w :
  scheduleId s <> id -> retired id w -> retired id (processOne now e s w).
Proof.
  intros Hne [Hwf Hnone]. split.
  - by apply processOne_kv_wf.
  - by rewrite processOne_kv_other.
Qed.

Lemma entries_retired id now envs l w :
  (forall ks, ks ∈ l -> scheduleId ks.2 <> id) ->
  retired id w ->
  retired id (foldl (λ (w : World) (ks : string * IndexEntry),
                       processOne now (envs ks.1) ks.2 w) w l).
Proof.
  revert w. induction l as [| ks l IH]; intros w Hl Hw; [done |].
  cbn [foldl]. apply IH.
  - intros ks' Hin. apply Hl. by right.
  - apply processOne_retired; [| done]. apply Hl. by left.
Qed.

Lemma processDueSchedules_retired id now envs w :
  retired id w -> retired id (processDueSchedules now envs w).
Proof.
  intros Hw. unfold processDueSchedules. apply entries_retired; [| done].
  intros [k s] Hin%elem_of_map_to_list. cbn.
  destruct Hw as [Hwf Hnone]. rewrite (Hwf k s Hin).
  intros ->. congruence.
Qed.

Lemma step_retired id w w' : step id w w' -> retired id w -> retired id w'.
Proof.
  intros Hstep Hw. destruct Hstep as [now envs w | now e s w Hne | key f w | s w Hne].
  - by apply processDueSchedules_retired.
  - by apply processOne_retired.
  - done.
  - destruct Hw as [Hwf Hnone]. unfold writeScheduleIndex. split; cbn.
    + intros k x [[<- <-] | [_ Hx]]%lookup_insert_Some; [done | by apply Hwf].
    + by rewrite lookup_insert_ne.
Qed.

Lemma steps_retired id w w' : rtc (step id) w w' -> retired id w -> retired id w'.
Proof. induction 1; eauto using step_retired. Qed.

(** A schedule that is not in the index is not executed by a run. *)
Lemma retired_not_fired id now w : retired id w -> id ∉ fired now w.
Proof.
  intros [Hwf Hnone] Hin. unfold fired in Hin.
  apply list_elem_of_fmap in Hin as (s & -> & Hs).
  apply list_elem_of_filter in Hs as [_ Hs].
  apply list_elem_of_fmap in Hs as ([k s'] & -> & Hks).
  apply elem_of_map_to_list in Hks. cbn in *.
  rewrite (Hwf k s' Hks) in Hnone. congruence.
Qed.

(** *** Successful executions *)

Lemma or_else_hash h : or_else (afterJson (or_else h VNull)) VNull = or_else h VNull.
Proof.
  destruct (truthy h) eqn:Hh.
  - rewrite !(or_else_truthy_l h) by done.
    by rewrite afterJson_truthy, or_else_truthy_l by done.
  - unfold or_else at 2 3. by rewrite Hh.
Qed.

Lemma or_else_note n :
  truthy n = true -> or_else (or_else (afterJson n) VNull) (VStr "NA") = n.
Proof. intros Hn. by rewrite afterJson_truthy, !(or_else_truthy_l n) by done. Qed.

(** C1, amended: an execution that the backend reports as successful
    appends exactly one transaction to the shard of the user; its status
    is [completed], its hash is the one of the reply, or [null] when the
    reply has none, and it has no [scheduleId] field. *)
Theorem successful_fire_appends_one_completed now e s w t :
  parse (nextRun s) = Some t -> t <= now ->
  replySucceeded (reply e) = true ->
  userAddress s <> "" ->
  truthy (amount s) = true -> truthy (recipient s) = true ->
  let key := toLowerCase (userAddress s) in
  exists tx,
    transactions (shardAt key (processOne now e s w))
    = transactions (shardAt key w) ++ [tx]
    /\ tx !! "status" = Some (VStr "completed")
    /\ tx !! "txHash" = Some (or_else (replyHash (reply e)) VNull)
    /\ tx !! "scheduleId" = None.
Proof.
  intros Hparse Hdue Hok Haddr Hamount Hrecipient key.
  rewrite (processOne_due now e s w t) by done. cbv zeta. rewrite Hok.
  fold key.
  destruct (fetchStoreTransaction_txRecord (userAddress s) (rnd e) (today_at e)
              (stored_at e) (amount s) (or_else (entry_note s) (VStr ""))
              (VStr "completed") (recipient s) (record_at e)
              (or_else (replyHash (reply e)) VNull) (shardAt key w))
    as (tx & Hstore & Hstatus & Hhash & _ & _ & Hsid); [done .. |].
  exists tx. rewrite or_else_hash in Hhash.
  split; [| done].
  assert (forall w1 : World,
            shardAt key w1
            = fetchStoreTransaction (userAddress s) (rnd e) (today_at e)
                (stored_at e)
                (txRecord (amount s) (or_else (entry_note s) (VStr ""))
                   (VStr "completed") (recipient s)
                   (VStr (toISOString (record_at e)))
                   (or_else (replyHash (reply e)) VNull)) (shardAt key w) ->
            transactions (shardAt key w1) = transactions (shardAt key w) ++ [tx])
    as Hdone by (by intros w1 ->; rewrite Hstore).
  destruct (incrementNextRunIso _ _ _) as [next |].
  - destruct (times_remaining s) as [n |]; cbn [fmap option_fmap option_map];
      [destruct (n - 1 <=? 0) |];
      rewrite shardAt_onShard, fetchUpdateSchedule_transactions;
      apply Hdone; apply shardAt_onShard.
  - apply Hdone. apply shardAt_onShard.
Qed.

Lemma successful_fire_appends_one_completed_witness :
  exists tx,
    transactions (shardAt (toLowerCase "0xAbC")
      (processOne 1738281600400 Samples.okWithoutHash Samples.lastRunEntry
         Samples.lastRunWorld))
    = transactions (shardAt (toLowerCase "0xAbC") Samples.lastRunWorld) ++ [tx]
    /\ tx !! "status" = Some (VStr "completed")
    /\ tx !! "txHash"
       = Some (or_else (replyHash (reply Samples.okWithoutHash)) VNull)
    /\ tx !! "scheduleId" = None.
Proof.
  apply (successful_fire_appends_one_completed 1738281600400
           Samples.okWithoutHash Samples.lastRunEntry Samples.lastRunWorld
           1738281600000).
  - by vm_compute.
  - by vm_compute.
  - reflexivity.
  - discriminate.
  - reflexivity.
  - reflexivity.
Defined.

(** C1 as the specification states it fails on the stored record: after a successful
    execution of schedule [sched-1], answered [{ ok: true }], the one
    transaction of the shard is [completed] but has a [null] hash and no
    [scheduleId] field. *)
Lemma completed_record_without_hash_and_scheduleId :
  replySucceeded (reply Samples.okWithoutHash) = true
  /\ isDue 1738281600400 Samples.lastRunEntry = true
  /\ exists tx,
       transactions (shardAt "0xabc"
         (processOne 1738281600400 Samples.okWithoutHash Samples.lastRunEntry
            Samples.lastRunWorld)) = [tx]
       /\ get tx "status" = VStr "completed"
       /\ get tx "txHash" = VNull
       /\ get tx "scheduleId" = VUndef
       /\ get tx "scheduleId" <> VStr (scheduleId Samples.lastRunEntry).
Proof.
  split; [reflexivity |]. split; [by vm_compute |].
  exists Samples.completedRecord. split; [vm_compute; exact eq_refl |].
  unfold get, Samples.completedRecord.
  destruct (txEntry_fields (VStr "00000000-0000-4000-8000-000000000000")
    (VStr "Recurring Payment") (VStr "recurring") (VStr "0xdef") (VNum 5)
    (VStr "USDC") (VStr "2025-01-31T00:00:00.500Z") VNull VNull VNull
    (VStr "NA") (VStr "completed") VNull (VStr "2025-01-31T00:00:00.700Z"))
    as (_ & _ & -> & -> & _ & _ & _ & ->).
  by repeat split.
Qed.

(** A successful execution that leaves runs to come writes the advanced
    [nextRun] and the decremented counter to the index. *)
Lemma successful_fire_advances_index now e s w t next :
  parse (nextRun s) = Some t -> t <= now ->
  replySucceeded (reply e) = true ->
  incrementNextRunIso (nextRun s) (interval s) (intervalMs s) = Some next ->
  (forall n, times_remaining s = Some n -> 1 < n) ->
  exists s',
    kv (processOne now e s w) !! scheduleId s = Some s'
    /\ nextRun s' = next
    /\ times_remaining s' = (λ n, n - 1) <$> times_remaining s.
Proof.
  intros Hparse Hdue Hok Hnext Hleft.
  rewrite (processOne_due now e s w t) by done. cbv zeta. rewrite Hok, Hnext.
  destruct (times_remaining s) as [n |] eqn:Hn; cbn [fmap option_fmap option_map].
  - specialize (Hleft n eq_refl). destruct (Z.leb_spec (n - 1) 0); [lia |].
    eexists. split; [cbn; apply lookup_insert_eq |]. done.
  - eexists. split; [cbn; apply lookup_insert_eq |]. done.
Qed.

(** *** The last execution of a schedule *)

Lemma finished_patch_fields :
  let patch : gmap string value :=
    json (list_to_map [("active", VBool false); ("times_remaining", VNum 0)]) in
  patch !! "active" = Some (VBool false)
  /\ patch !! "times_remaining" = Some (VNum 0)
  /\ patch !! "id" = None.
Proof. by vm_compute. Qed.

(** A successful execution whose next date cannot be computed stores
    the transaction and does nothing else. *)
Lemma processOne_without_next_date now e s w t :
  parse (nextRun s) = Some t -> t <= now ->
  replySucceeded (reply e) = true ->
  incrementNextRunIso (nextRun s) (interval s) (intervalMs s) = None ->
  processOne now e s w
  = onShard (toLowerCase (userAddress s))
      (fetchStoreTransaction (userAddress s) (rnd e) (today_at e) (stored_at e)
         (txRecord (amount s) (or_else (entry_note s) (VStr ""))
            (VStr "completed") (recipient s)
            (VStr (toISOString (record_at e)))
            (or_else (replyHash (reply e)) VNull))) w.
Proof.
  intros Hparse Hdue Hok Hnext.
  rewrite (processOne_due now e s w t) by done. cbv zeta.
  by rewrite Hok, Hnext.
Qed.

(** C5 as the specification states it fails when the next date cannot
    be computed: the last run of a schedule whose [intervalMs] leads out
    of the range of dates is reported as successful, and the entry stays
    in the index with one run left, the schedule stays active, and the
    run of the next minute executes it again. *)
Lemma last_fire_without_next_date_is_not_retired :
  let w' := processOne 1738281600400 Samples.okWithoutHash
              Samples.lastRunFarEntry Samples.lastRunFarWorld in
  isDue 1738281600400 Samples.lastRunFarEntry = true
  /\ replySucceeded (reply Samples.okWithoutHash) = true
  /\ times_remaining Samples.lastRunFarEntry = Some 1
  /\ kv w' !! "sched-1" = Some Samples.lastRunFarEntry
  /\ schedules (shardAt "0xabc" w') = [Samples.lastRunSchedule]
  /\ get Samples.lastRunSchedule "active" = VBool true
  /\ fired (1738281600400 + 60000) w' = ["sched-1"].
Proof.
  intros w'.
  assert (w' = onShard (toLowerCase (userAddress Samples.lastRunFarEntry))
                 (fetchStoreTransaction (userAddress Samples.lastRunFarEntry)
                    (rnd Samples.okWithoutHash) (today_at Samples.okWithoutHash)
                    (stored_at Samples.okWithoutHash)
                    (txRecord (amount Samples.lastRunFarEntry)
                       (or_else (entry_note Samples.lastRunFarEntry) (VStr ""))
                       (VStr "completed") (recipient Samples.lastRunFarEntry)
                       (VStr (toISOString (record_at Samples.okWithoutHash)))
                       (or_else (replyHash (reply Samples.okWithoutHash)) VNull)))
                 Samples.lastRunFarWorld) as ->.
  { apply (processOne_without_next_date _ _ _ _ 1738281600000);
      [by vm_compute | lia | reflexivity | by vm_compute]. }
  split; [by vm_compute |]. split; [reflexivity |]. split; [reflexivity |].
  split; [rewrite kv_onShard; reflexivity |].
  split.
  { change "0xabc" with (toLowerCase (userAddress Samples.lastRunFarEntry)).
    rewrite shardAt_onShard, fetchStoreTransaction_schedules. reflexivity. }
  split; [reflexivity |].
  unfold fired. rewrite kv_onShard. by vm_compute.
Qed.

(** C5, amended: when a successful execution takes [times_remaining]
    from 1 to 0 and the next date can be computed, the entry leaves the
    index and the schedule of the shard becomes inactive with 0 runs
    left; from then on, whatever runs of the handler, shard requests and
    entries of other schedules follow, the index has no entry for the
    schedule and no run executes it. *)
Theorem last_fire_retires_schedule now e s w t idx old :
  kv_wf (kv w) ->
  parse (nextRun s) = Some t -> t <= now ->
  replySucceeded (reply e) = true ->
  times_remaining s = Some 1 ->
  is_Some (incrementNextRunIso (nextRun s) (interval s) (intervalMs s)) ->
  userAddress s <> "" -> scheduleId s <> "" ->
  list_find (hasId (scheduleId s))
    (schedules (shardAt (toLowerCase (userAddress s)) w)) = Some (idx, old) ->
  let w' := processOne now e s w in
  kv w' !! scheduleId s = None
  /\ (exists new,
        schedules (shardAt (toLowerCase (userAddress s)) w') !! idx = Some new
        /\ get new "active" = VBool false
        /\ get new "times_remaining" = VNum 0
        /\ get new "id" = VStr (scheduleId s))
  /\ forall w'',
       rtc (step (scheduleId s)) w' w'' ->
       kv w'' !! scheduleId s = None
       /\ forall now', scheduleId s ∉ fired now' w''.
Proof.
  intros Hwf Hparse Hdue Hok Hleft [next Hnext] Haddr Hid Hfind w'.
  assert (w' = onShard (toLowerCase (userAddress s))
                 (fetchUpdateSchedule (userAddress s) (scheduleId s)
                    (list_to_map [("active", VBool false);
                                  ("times_remaining", VNum 0)]))
                 (deleteScheduleIndex (scheduleId s)
                    (onShard (toLowerCase (userAddress s))
                       (fetchStoreTransaction (userAddress s) (rnd e)
                          (today_at e) (stored_at e)
                          (txRecord (amount s) (or_else (entry_note s) (VStr ""))
                             (VStr "completed") (recipient s)
                             (VStr (toISOString (record_at e)))
                             (or_else (replyHash (reply e)) VNull))) w))) as Hw'.
  { unfold w'. rewrite (processOne_due now e s w t) by done.
    cbv zeta. by rewrite Hok, Hnext, Hleft. }
  assert (retired (scheduleId s) w') as Hretired.
  { rewrite Hw'. split; cbn.
    - intros k x [_ Hx]%lookup_delete_Some. by apply Hwf.
    - apply lookup_delete_eq. }
  split; [apply Hretired |]. split.
  - rewrite Hw', shardAt_onShard, shardAt_deleteScheduleIndex, shardAt_onShard.
    eexists. split.
    + apply (patched_schedule _ _ _ _ idx old); [done | done |].
      by rewrite fetchStoreTransaction_schedules.
    + destruct finished_patch_fields as (Hactive & Htimes & Hnoid).
      rewrite !get_union, Hactive, Htimes, Hnoid.
      apply list_find_Some in Hfind as (_ & Hold & _). done.
  - intros w'' Hsteps.
    pose proof (steps_retired _ _ _ Hsteps Hretired) as Hw''.
    split; [apply Hw'' |]. intros now'. by apply retired_not_fired.
Qed.

Lemma last_fire_retires_schedule_witness :
  let w' := processOne 1738281600400 Samples.okWithoutHash
              Samples.lastRunEntry Samples.lastRunWorld in
  kv w' !! "sched-1" = None
  /\ (exists new,
        schedules (shardAt (toLowerCase "0xAbC") w') !! 0%nat = Some new
        /\ get new "active" = VBool false
        /\ get new "times_remaining" = VNum 0
        /\ get new "id" = VStr "sched-1")
  /\ forall w'',
       rtc (step "sched-1") w' w'' ->
       kv w'' !! "sched-1" = None
       /\ forall now', "sched-1" ∉ fired now' w''.
Proof.
  apply (last_fire_retires_schedule 1738281600400 Samples.okWithoutHash
           Samples.lastRunEntry Samples.lastRunWorld 1738281600000
           0%nat Samples.lastRunSchedule).
  - intros k x. unfold Samples.lastRunWorld. cbn [kv].
    intros [<- <-]%lookup_singleton_Some. reflexivity.
  - by vm_compute.
  - by vm_compute.
  - reflexivity.
  - reflexivity.
  - exists "2025-03-03T00:00:00.000Z". by vm_compute.
  - discriminate.
  - discriminate.
  - reflexivity.
Defined.

(** *** Failed executions *)

Lemma failureNote_truthy r : truthy (failureNote r) = true.
Proof. unfold failureNote. by apply or_else_truthy_r. Qed.

Lemma retry_patch_fields next :
  let patch : gmap string value := json (list_to_map [("nextRun", VStr next)]) in
  patch !! "nextRun" = Some (VStr next) /\ patch !! "times_remaining" = None.
Proof. by vm_compute. Qed.

(** C6 as the specification states it fails for an entry without an
    amount: the failed execution appends no transaction at all, since
    [storeTransaction] turns the record down, while [nextRun] is moved
    by 600 seconds all the same. *)
Lemma failed_fire_without_amount_appends_nothing :
  let w' := processOne 1738281600400 Samples.serverError
              Samples.noAmountEntry Samples.noAmountWorld in
  isDue 1738281600400 Samples.noAmountEntry = true
  /\ replySucceeded (reply Samples.serverError) = false
  /\ transactions (shardAt "0xabc" Samples.noAmountWorld) = []
  /\ transactions (shardAt "0xabc" w') = []
  /\ nextRun <$> kv w' !! "sched-1" = Some "2025-01-31T00:10:00.800Z".
Proof.
  intros w'. split; [by vm_compute |]. split; [reflexivity |].
  split; [reflexivity |]. split; by vm_compute.
Qed.

(** C6, amended: when the execution of a due entry that has a recipient
    and an amount is not reported as successful, exactly one transaction
    is appended to the shard, with status [failed] and, as its note, the
    error text of the reply or, when the reply has none, the words
    "backend error" with the status code; [nextRun] becomes the reading
    of the clock at that moment plus 600 seconds, in the index entry and
    in the schedule of the shard, and [times_remaining] stays as it was
    in both. *)
Theorem failed_fire_retries_after_ten_minutes now e s w t idx old :
  parse (nextRun s) = Some t -> t <= now ->
  replySucceeded (reply e) = false ->
  Z.abs (retry_at e + 600 * 1000) <= maxTime ->
  userAddress s <> "" -> scheduleId s <> "" ->
  truthy (amount s) = true -> truthy (recipient s) = true ->
  list_find (hasId (scheduleId s))
    (schedules (shardAt (toLowerCase (userAddress s)) w)) = Some (idx, old) ->
  let key := toLowerCase (userAddress s) in
  let w' := processOne now e s w in
  let next := toISOString (retry_at e + 600 * 1000) in
  let code := VStr ("backend error: " +:+ toString (status (reply e))) in
  let diagnostic :=
    match respJson (reply e) with
    | Some body => if truthy (get body "error") then get body "error" else code
    | None => code
    end in
  (exists tx,
     transactions (shardAt key w') = transactions (shardAt key w) ++ [tx]
     /\ tx !! "status" = Some (VStr "failed")
     /\ tx !! "note" = Some diagnostic
     /\ truthy diagnostic = true)
  /\ (exists s',
        kv w' !! scheduleId s = Some s'
        /\ nextRun s' = next
        /\ parse (nextRun s') = Some (retry_at e + 600 * 1000)
        /\ times_remaining s' = times_remaining s
        /\ forall later, later < retry_at e + 600 * 1000 ->
             isDue later s' = false)
  /\ (exists new,
        schedules (shardAt key w') !! idx = Some new
        /\ get new "nextRun" = VStr next
        /\ get new "times_remaining" = get old "times_remaining").
Proof.
  intros Hparse Hdue Hfail Hrange Haddr Hid Hamount Hrecipient Hfind key w' next
    code diagnostic.
  assert (failureNote (reply e) = diagnostic) as Hnote'.
  { unfold failureNote, replyError, or_else, diagnostic, code.
    by destruct (respJson (reply e)). }
  rewrite <- Hnote'.
  assert (w' = onShard key
                 (fetchUpdateSchedule (userAddress s) (scheduleId s)
                    (list_to_map [("nextRun", VStr next)]))
                 (putIndex (scheduleId s) (setNextRun next s)
                    (onShard key
                       (fetchStoreTransaction (userAddress s) (rnd e)
                          (today_at e) (stored_at e)
                          (txRecord (amount s) (failureNote (reply e))
                             (VStr "failed") (recipient s)
                             (VStr (toISOString (record_at e))) VNull)) w)))
    as Hw'.
  { unfold w'. rewrite (processOne_due now e s w t) by done.
    cbv zeta. rewrite Hfail.
    change (retry_at e + retryMs) with (retry_at e + 600 * 1000).
    by rewrite TimeClip_in_range. }
  destruct (fetchStoreTransaction_txRecord (userAddress s) (rnd e) (today_at e)
              (stored_at e) (amount s) (failureNote (reply e)) (VStr "failed")
              (recipient s) (record_at e) VNull (shardAt key w))
    as (tx & Hstore & Hstatus & _ & Hnote & _ & _); [done .. |].
  rewrite or_else_note in Hnote by apply failureNote_truthy.
  split; [| split].
  - exists tx. split; [| by auto using failureNote_truthy].
    rewrite Hw', shardAt_onShard, fetchUpdateSchedule_transactions.
    rewrite shardAt_putIndex, shardAt_onShard. by rewrite Hstore.
  - exists (entryJson (setNextRun next s)). rewrite Hw'. cbn.
    split; [apply lookup_insert_eq |]. split; [done |].
    assert (parse next = Some (retry_at e + 600 * 1000)) as Hnext
      by (by apply parse_toISOString).
    split; [done |]. split; [done |].
    intros later Hlater. unfold isDue. cbn. rewrite Hnext.
    by destruct (Z.ltb_spec later (retry_at e + 600 * 1000)); [| lia].
  - rewrite Hw', shardAt_onShard, shardAt_putIndex, shardAt_onShard.
    eexists. split.
    + apply (patched_schedule _ _ _ _ idx old); [done | done |].
      by rewrite fetchStoreTransaction_schedules.
    + destruct (retry_patch_fields next) as (Hnext & Htimes).
      by rewrite !get_union, Hnext, Htimes.
Qed.

Lemma failed_fire_retries_after_ten_minutes_witness :
  let key := toLowerCase "0xAbC" in
  let w' := processOne 1738281600400 Samples.serverError
              Samples.lastRunEntry Samples.lastRunWorld in
  let next := toISOString (1738281600800 + 600 * 1000) in
  let code :=
    VStr ("backend error: " +:+ toString (status (reply Samples.serverError))) in
  let diagnostic :=
    match respJson (reply Samples.serverError) with
    | Some body => if truthy (get body "error") then get body "error" else code
    | None => code
    end in
  (exists tx,
     transactions (shardAt key w')
     = transactions (shardAt key Samples.lastRunWorld) ++ [tx]
     /\ tx !! "status" = Some (VStr "failed")
     /\ tx !! "note" = Some diagnostic
     /\ truthy diagnostic = true)
  /\ (exists s',
        kv w' !! "sched-1" = Some s'
        /\ nextRun s' = next
        /\ parse (nextRun s') = Some (1738281600800 + 600 * 1000)
        /\ times_remaining s' = Some 1
        /\ forall later, later < 1738281600800 + 600 * 1000 ->
             isDue later s' = false)
  /\ (exists new,
        schedules (shardAt key w') !! 0%nat = Some new
        /\ get new "nextRun" = VStr next
        /\ get new "times_remaining" = get Samples.lastRunSchedule "times_remaining").
Proof.
  apply (failed_fire_retries_after_ten_minutes 1738281600400
           Samples.serverError Samples.lastRunEntry Samples.lastRunWorld
           1738281600000 0%nat Samples.lastRunSchedule).
  - by vm_compute.
  - by vm_compute.
  - reflexivity.
  - by vm_compute.
  - discriminate.
  - discriminate.
  - reflexivity.
  - reflexivity.
  - reflexivity.
Defined.

End CronFacts.

(** ** More on advancing [nextRun] *)

Module CalendarFacts.
Import JS Date DateFacts Worker AdvanceFacts.
Local Open Scope Z_scope.

Lemma DayFromYear_mono a b : a <= b -> DayFromYear a <= DayFromYear b.
Proof. intros Hab. unfold DayFromYear. div_lia. Qed.

(** The year of a day is the only year that contains it. *)
Lemma YearFromDay_unique d y :
  DayFromYear y <= d < DayFromYear (y + 1) -> YearFromDay d = y.
Proof.
  intros Hy. pose proof (YearFromDay_spec d) as HY.
  destruct (Z.lt_trichotomy (YearFromDay d) y) as [Hlt | [Heq | Hgt]]; [| done |].
  - pose proof (DayFromYear_mono (YearFromDay d + 1) y ltac:(lia)). lia.
  - pose proof (DayFromYear_mono (y + 1) (YearFromDay d) ltac:(lia)). lia.
Qed.

Lemma monthOfDay_unique (leap : bool) m d :
  0 <= m <= 11 ->
  monthStart leap m <= d < monthStart leap (m + 1) ->
  monthOfDay leap d = m.
Proof.
  intros Hm Hd.
  assert (m = 0 \/ m = 1 \/ m = 2 \/ m = 3 \/ m = 4 \/ m = 5 \/ m = 6
          \/ m = 7 \/ m = 8 \/ m = 9 \/ m = 10 \/ m = 11) as Hc by lia.
  unfold monthOfDay.
  destruct leap; repeat destruct Hc as [-> | Hc]; try subst m;
    simpl in *; cases_leb; lia.
Qed.

Lemma monthStart_bounds (leap : bool) m :
  0 <= m <= 12 ->
  0 <= monthStart leap m <= 365 + (if leap then 1 else 0).
Proof.
  intros Hm.
  assert (m = 0 \/ m = 1 \/ m = 2 \/ m = 3 \/ m = 4 \/ m = 5 \/ m = 6
          \/ m = 7 \/ m = 8 \/ m = 9 \/ m = 10 \/ m = 11 \/ m = 12) as Hc by lia.
  destruct leap; repeat destruct Hc as [-> | Hc]; try subst m; simpl; lia.
Qed.

Lemma monthStart_12 (leap : bool) :
  monthStart leap 12 = 365 + (if leap then 1 else 0).
Proof. by destruct leap. Qed.

Lemma monthStart_le (leap : bool) m :
  0 <= m <= 11 -> monthStart leap (m + 1) <= 365 + (if leap then 1 else 0).
Proof. intros Hm. apply monthStart_bounds. lia. Qed.

(** The calendar fields of the time value made from a year, a month, a
    day that the month has, and a time of day. *)
Lemma fields_of_MakeDate y m dt w :
  0 <= m <= 11 -> 1 <= dt <= Calendar.daysInMonth y m -> 0 <= w < msPerDay ->
  let t := MakeDate (MakeDay y m dt) w in
  YearFromTime t = y /\ MonthFromTime t = m /\ DateFromTime t = dt
  /\ TimeWithinDay t = w.
Proof.
  intros Hm Hdt Hw t. unfold Calendar.daysInMonth in Hdt.
  pose proof (monthStart_bounds (InLeapYear y) m ltac:(lia)) as Hlo.
  pose proof (monthStart_le (InLeapYear y) m Hm) as Hhi.
  assert (Day t = MakeDay y m dt) as Hday.
  { unfold t, Day, MakeDate. unfold msPerDay in *. div_lia. }
  assert (TimeWithinDay t = w) as Htime.
  { unfold t, TimeWithinDay, MakeDate. unfold msPerDay in *. div_lia. }
  rewrite MakeDay_small in Hday by done.
  assert (YearFromTime t = y) as Hyear.
  { unfold YearFromTime. apply YearFromDay_unique.
    rewrite Hday, DayFromYear_step, DaysInYear_cases. lia. }
  assert (DayWithinYear t = monthStart (InLeapYear y) m + dt - 1) as Hdiy.
  { unfold DayWithinYear. rewrite Hyear, Hday. lia. }
  assert (MonthFromTime t = m) as Hmonth.
  { unfold MonthFromTime. rewrite Hyear, Hdiy.
    apply monthOfDay_unique; [done | lia]. }
  repeat split; [done | done | | done].
  unfold DateFromTime. rewrite Hmonth, Hyear, Hdiy. lia.
Qed.

Lemma TimeWithinDay_range t : 0 <= TimeWithinDay t < msPerDay.
Proof. unfold TimeWithinDay, msPerDay. div_lia. Qed.

Lemma MakeDay_next_month y m dt :
  0 <= m <= 11 ->
  MakeDay y (m + 1) dt = MakeDay (y + (m + 1) / 12) ((m + 1) mod 12) dt.
Proof.
  intros Hm. unfold MakeDay.
  pose proof (Z.mod_pos_bound (m + 1) 12 ltac:(lia)) as Hr.
  by rewrite (Z.div_small ((m + 1) mod 12)), (Z.mod_small ((m + 1) mod 12)),
    Z.add_0_r by lia.
Qed.

Lemma next_month_shift t :
  exists k, 28 <= k <= 31
    /\ MakeDate (MakeDay (YearFromTime t) (MonthFromTime t + 1) (DateFromTime t))
         (TimeWithinDay t) = t + k * msPerDay.
Proof.
  pose proof (MonthFromTime_range t) as Hm.
  pose proof (MakeDay_of_time t) as Hd.
  rewrite MakeDay_small in Hd by done.
  set (y := YearFromTime t) in *. set (m := MonthFromTime t) in *.
  set (dt := DateFromTime t) in *.
  exists (MakeDay y (m + 1) dt - Day t). split.
  - destruct (decide (m = 11)) as [Heq | Hne].
    + rewrite Heq in *. unfold MakeDay.
      replace ((11 + 1) / 12) with 1 by done.
      replace ((11 + 1) mod 12) with 0 by done.
      rewrite DayFromYear_step, DaysInYear_cases.
      destruct (InLeapYear y); simpl in *; lia.
    + rewrite MakeDay_small by lia.
      pose proof (monthStart_next (InLeapYear y) m Hm). lia.
  - rewrite <- MakeDate_shift. f_equal. lia.
Qed.

Lemma advance_valid t interval intervalMs t' :
  advance (Some t) interval intervalMs = Some t' -> Z.abs t' <= maxTime.
Proof.
  intros Hadv.
  destruct (truthy intervalMs && isFinite intervalMs) eqn:Hms.
  - apply usable_intervalMs in Hms as (n & -> & Hn).
    rewrite advance_custom in Hadv by done. by apply TimeClip_valid in Hadv.
  - destruct (advance_calendar t interval intervalMs Hms) as (k & _ & Heq).
    rewrite Heq in Hadv. by apply TimeClip_valid in Hadv.
Qed.

(** X1: for a [nextRun] of the ISO form, whatever [interval] and
    [intervalMs] are, every text that [incrementNextRunIso] returns is
    the ISO text of an instant in the range of dates, and reading that
    text gives the instant back: what the handler writes as [nextRun],
    the next run reads as a date. *)
Theorem incrementNextRunIso_result s interval intervalMs t next :
  parse s = Some t ->
  incrementNextRunIso s interval intervalMs = Some next ->
  exists t',
    next = toISOString t' /\ parse next = Some t' /\ Z.abs t' <= maxTime.
Proof.
  unfold incrementNextRunIso. intros -> Hnext.
  destruct (advance (Some t) interval intervalMs) as [t' |] eqn:Hadv; [| done].
  injection Hnext as <-. exists t'.
  pose proof (advance_valid _ _ _ _ Hadv) as Hrange.
  split; [done |]. split; [by apply parse_toISOString | done].
Qed.

Lemma incrementNextRunIso_result_witness :
  exists t',
    "2025-01-14T23:59:59.000Z" = toISOString t'
    /\ parse "2025-01-14T23:59:59.000Z" = Some t'
    /\ Z.abs t' <= maxTime.
Proof.
  apply (incrementNextRunIso_result "2025-01-15T00:00:00.000Z" (VStr "daily")
           (VNum (-1000)) 1736899200000 "2025-01-14T23:59:59.000Z");
    by vm_compute.
Defined.

(** X2: an [intervalMs] that is a whole number of milliseconds other
    than zero decides alone: it is added to [nextRun], whatever
    [interval] says. *)
Theorem intervalMs_overrides_interval s interval n t :
  parse s = Some t -> n <> 0 -> Z.abs (t + n) <= maxTime ->
  exists next,
    incrementNextRunIso s interval (VNum n) = Some next
    /\ parse next = Some (t + n).
Proof.
  intros Hs Hn Hrange. exists (toISOString (t + n)).
  unfold incrementNextRunIso. rewrite Hs, advance_custom by done.
  rewrite TimeClip_in_range by done. split; [done |].
  by apply parse_toISOString.
Qed.

Lemma intervalMs_overrides_interval_witness :
  exists next,
    incrementNextRunIso "2025-01-31T00:00:00Z" (VStr "monthly") (VNum 3600000)
    = Some next
    /\ parse next = Some (1738281600000 + 3600000).
Proof.
  apply (intervalMs_overrides_interval "2025-01-31T00:00:00Z" (VStr "monthly")
           3600000 1738281600000).
  - by vm_compute.
  - discriminate.
  - by vm_compute.
Defined.

(** X3: without a usable [intervalMs], [weekly] adds exactly seven days
    and every interval other than [weekly], [monthly] and [yearly]
    (daily, custom, unknown, null) adds exactly one day. *)
Theorem daily_and_weekly_steps s interval intervalMs t :
  parse s = Some t ->
  truthy intervalMs && isFinite intervalMs = false ->
  t + 7 * msPerDay <= maxTime ->
  interval <> VStr "monthly" -> interval <> VStr "yearly" ->
  exists next,
    incrementNextRunIso s interval intervalMs = Some next
    /\ parse next
       = Some (t + (if bool_decide (interval = VStr "weekly") then 7 else 1)
                   * msPerDay).
Proof.
  intros Hs Hms Hroom Hmonthly Hyearly.
  pose proof (parse_in_range s t Hs) as Ht.
  set (k := if bool_decide (interval = VStr "weekly") then 7 else 1).
  assert (1 <= k <= 7) as Hk by (unfold k; case_bool_decide; lia).
  assert (advance (Some t) interval intervalMs = TimeClip (t + k * msPerDay))
    as Hadv.
  { unfold advance. rewrite Hms. cbn [mbind option_bind]. unfold k.
    repeat case_bool_decide; try done; try apply setUTCDate_add.
    all: congruence. }
  assert (Z.abs (t + k * msPerDay) <= maxTime) as Hrange
    by (unfold msPerDay in *; lia).
  exists (toISOString (t + k * msPerDay)).
  unfold incrementNextRunIso. rewrite Hs, Hadv, TimeClip_in_range by done.
  split; [done |]. by apply parse_toISOString.
Qed.

Lemma daily_and_weekly_steps_witness :
  exists next,
    incrementNextRunIso "2025-01-01T09:00:00Z" (VStr "fortnightly") VNull
    = Some next
    /\ parse next
       = Some (1735722000000
               + (if bool_decide (VStr "fortnightly" = VStr "weekly")
                  then 7 else 1) * msPerDay).
Proof.
  apply (daily_and_weekly_steps "2025-01-01T09:00:00Z" (VStr "fortnightly")
           VNull 1735722000000).
  - by vm_compute.
  - reflexivity.
  - by vm_compute.
  - discriminate.
  - discriminate.
Defined.

(** X4: when the month that follows has the day of the month of
    [nextRun], the monthly advance keeps that day and the time of day
    and lands in the following calendar month. *)
Theorem monthly_keeps_day_when_it_exists s intervalMs t :
  parse s = Some t ->
  truthy intervalMs && isFinite intervalMs = false ->
  t + 31 * msPerDay <= maxTime ->
  DateFromTime t
  <= Calendar.daysInMonth (YearFromTime t + (MonthFromTime t + 1) / 12)
       ((MonthFromTime t + 1) mod 12) ->
  exists next t',
    incrementNextRunIso s (VStr "monthly") intervalMs = Some next
    /\ parse next = Some t'
    /\ YearFromTime t' = YearFromTime t + (MonthFromTime t + 1) / 12
    /\ MonthFromTime t' = (MonthFromTime t + 1) mod 12
    /\ DateFromTime t' = DateFromTime t
    /\ TimeWithinDay t' = TimeWithinDay t.
Proof.
  intros Hs Hms Hroom Hday.
  pose proof (parse_in_range s t Hs) as Ht.
  pose proof (MonthFromTime_range t) as Hm.
  pose proof (DateFromTime_range t) as Hdt.
  set (t' := MakeDate (MakeDay (YearFromTime t) (MonthFromTime t + 1)
                         (DateFromTime t)) (TimeWithinDay t)).
  destruct (next_month_shift t) as (k & Hk & Ht'). fold t' in Ht'.
  assert (Z.abs t' <= maxTime) as Hvalid by (unfold msPerDay in *; lia).
  exists (toISOString t'), t'.
  unfold incrementNextRunIso, advance. rewrite Hs, Hms. cbn [mbind option_bind].
  repeat (case_bool_decide; try done).
  unfold setUTCMonth. fold t'. rewrite TimeClip_in_range by done.
  split; [done |]. split; [by apply parse_toISOString |].
  unfold t'. rewrite MakeDay_next_month by done.
  apply fields_of_MakeDate.
  - pose proof (Z.mod_pos_bound (MonthFromTime t + 1) 12 ltac:(lia)). lia.
  - lia.
  - apply TimeWithinDay_range.
Qed.

Lemma monthly_keeps_day_when_it_exists_witness :
  exists next t',
    incrementNextRunIso "2025-12-15T09:30:00Z" (VStr "monthly") VNull = Some next
    /\ parse next = Some t'
    /\ YearFromTime t'
       = YearFromTime 1765791000000 + (MonthFromTime 1765791000000 + 1) / 12
    /\ MonthFromTime t' = (MonthFromTime 1765791000000 + 1) mod 12
    /\ DateFromTime t' = DateFromTime 1765791000000
    /\ TimeWithinDay t' = TimeWithinDay 1765791000000.
Proof.
  apply (monthly_keeps_day_when_it_exists "2025-12-15T09:30:00Z" VNull
           1765791000000).
  - by vm_compute.
  - reflexivity.
  - by vm_compute.
  - by vm_compute.
Defined.

Lemma next_year_shift t :
  exists k, 364 <= k <= 367
    /\ MakeDate (MakeDay (YearFromTime t + 1) (MonthFromTime t) (DateFromTime t))
         (TimeWithinDay t) = t + k * msPerDay.
Proof.
  pose proof (MonthFromTime_range t) as Hm.
  pose proof (MakeDay_of_time t) as Hd.
  rewrite MakeDay_small in Hd by done.
  set (y := YearFromTime t) in *. set (m := MonthFromTime t) in *.
  set (dt := DateFromTime t) in *.
  exists (MakeDay (y + 1) m dt - Day t). split.
  - rewrite MakeDay_small by done.
    rewrite DayFromYear_step, DaysInYear_cases.
    pose proof (monthStart_leap_diff (InLeapYear (y + 1)) (InLeapYear y) m Hm).
    destruct (InLeapYear y); lia.
  - rewrite <- MakeDate_shift. f_equal. lia.
Qed.

(** X5: the yearly advance lands on the same month, day and time of day
    of the following year whenever that year has the day, that is for
    every date but 29 February. *)
Theorem yearly_keeps_date_when_it_exists s intervalMs t :
  parse s = Some t ->
  truthy intervalMs && isFinite intervalMs = false ->
  t + 367 * msPerDay <= maxTime ->
  DateFromTime t <= Calendar.daysInMonth (YearFromTime t + 1) (MonthFromTime t) ->
  exists next t',
    incrementNextRunIso s (VStr "yearly") intervalMs = Some next
    /\ parse next = Some t'
    /\ YearFromTime t' = YearFromTime t + 1
    /\ MonthFromTime t' = MonthFromTime t
    /\ DateFromTime t' = DateFromTime t
    /\ TimeWithinDay t' = TimeWithinDay t.
Proof.
  intros Hs Hms Hroom Hday.
  pose proof (parse_in_range s t Hs) as Ht.
  pose proof (MonthFromTime_range t) as Hm.
  pose proof (DateFromTime_range t) as Hdt.
  set (t' := MakeDate (MakeDay (YearFromTime t + 1) (MonthFromTime t)
                         (DateFromTime t)) (TimeWithinDay t)).
  destruct (next_year_shift t) as (k & Hk & Ht'). fold t' in Ht'.
  assert (Z.abs t' <= maxTime) as Hvalid by (unfold msPerDay in *; lia).
  exists (toISOString t'), t'.
  unfold incrementNextRunIso, advance. rewrite Hs, Hms. cbn [mbind option_bind].
  repeat (case_bool_decide; try done).
  unfold setUTCFullYear. fold t'. rewrite TimeClip_in_range by done.
  split; [done |]. split; [by apply parse_toISOString |].
  unfold t'. apply fields_of_MakeDate; [done | lia | apply TimeWithinDay_range].
Qed.

Lemma yearly_keeps_date_when_it_exists_witness :
  exists next t',
    incrementNextRunIso "2024-03-31T09:30:00Z" (VStr "yearly") VNull = Some next
    /\ parse next = Some t'
    /\ YearFromTime t' = YearFromTime 1711877400000 + 1
    /\ MonthFromTime t' = MonthFromTime 1711877400000
    /\ DateFromTime t' = DateFromTime 1711877400000
    /\ TimeWithinDay t' = TimeWithinDay 1711877400000.
Proof.
  apply (yearly_keeps_date_when_it_exists "2024-03-31T09:30:00Z" VNull
           1711877400000).
  - by vm_compute.
  - reflexivity.
  - by vm_compute.
  - by vm_compute.
Defined.

(** X6: the [nextRun] that [toIsoDateTime] gives to a new schedule is
    always the ISO text of a valid date, whatever the engine makes of
    the texts outside the ISO form: the instant that [new Date] reads
    from [start_date], [T], [time_of_day] (or midnight), which for a
    text of the ISO form is the instant written, and the current time
    when [new Date] gives the invalid date. *)
Theorem toIsoDateTime_valid read now start_date time_of_day :
  Z.abs now <= maxTime ->
  let text :=
    if negb (String.eqb time_of_day "")
    then start_date +:+ "T" +:+ time_of_day +:+ ":00Z"
    else start_date +:+ "T00:00:00Z" in
  exists t,
    toIsoDateTime read now start_date time_of_day = toISOString t
    /\ parse (toIsoDateTime read now start_date time_of_day) = Some t
    /\ (newDate read text = Some t \/ (newDate read text = None /\ t = now))
    /\ forall written, parse text = Some written -> t = written.
Proof.
  intros Hnow text. unfold toIsoDateTime. fold text.
  destruct (newDate read text) as [t |] eqn:Htext; cbn.
  - exists t. split; [done |].
    assert (Z.abs t <= maxTime) as Hrange.
    { unfold newDate in Htext.
      destruct (parse text) as [t0 |] eqn:Hparse.
      - injection Htext as <-. by eapply parse_in_range.
      - destruct (read text) as [r |]; [| done]. cbn in Htext.
        by apply TimeClip_valid in Htext. }
    split; [by apply parse_toISOString |]. split; [by left |].
    intros written Hwritten. unfold newDate in Htext.
    rewrite Hwritten in Htext. congruence.
  - exists now. split; [done |]. split; [by apply parse_toISOString |].
    split; [by right |].
    intros written Hwritten. unfold newDate in Htext.
    by rewrite Hwritten in Htext.
Qed.

Lemma toIsoDateTime_valid_witness :
  let read : string -> option Z := λ _, None in
  exists t,
    toIsoDateTime read 1738281600000 "2025-02-30" "09:00" = toISOString t
    /\ parse (toIsoDateTime read 1738281600000 "2025-02-30" "09:00") = Some t
    /\ (newDate read "2025-02-30T09:00:00Z" = Some t
        \/ (newDate read "2025-02-30T09:00:00Z" = None /\ t = 1738281600000))
    /\ forall written, parse "2025-02-30T09:00:00Z" = Some written -> t = written.
Proof.
  apply (toIsoDateTime_valid (λ _, None) 1738281600000 "2025-02-30" "09:00").
  by vm_compute.
Defined.

(** *** [uuidv4] *)

(** X7: whatever the random source draws, [uuidv4] returns 36 characters
    in the layout of a version-4 UUID: lower-case hexadecimal digits
    with dashes after the 8th, 12th, 16th and 20th digit, the version
    digit [4] and a variant digit among [8], [9], [a] and [b]. *)
Theorem uuidv4_layout rnd :
  (forall j, random_ok (rnd j)) ->
  Uuid.isUuidV4 (uuidv4 rnd) = true /\ String.length (uuidv4 rnd) = 36%nat.
Proof.
  intros Hrnd. split; [| reflexivity].
  by apply ShardFacts.uuid_fill_follows.
Qed.

Lemma uuidv4_layout_witness :
  Uuid.isUuidV4 (uuidv4 Samples.zeroRnd) = true
  /\ String.length (uuidv4 Samples.zeroRnd) = 36%nat.
Proof.
  apply (uuidv4_layout Samples.zeroRnd).
  intros j. unfold random_ok, Samples.zeroRnd. cbn. lia.
Defined.

End CalendarFacts.

(** ** The recipients of a shard *)

Module RecipientFacts.
Import JS Worker Recipients ShardFacts.

Lemma setRecipients_same sh : setRecipients (recipients sh) sh = sh.
Proof. by destruct sh. Qed.

Lemma NoDup_insert_fresh {A} (l : list A) i x :
  NoDup l ->
  (forall j, j <> i -> l !! j <> Some x) ->
  NoDup (<[i := x]> l).
Proof.
  intros Hl Hfresh. apply NoDup_alt. intros a b y Ha Hb.
  apply list_lookup_insert_Some in Ha as [(-> & -> & _) | (Hia & Ha)];
    apply list_lookup_insert_Some in Hb as [(-> & Heq & _) | (Hib & Hb)].
  - done.
  - by destruct (Hfresh b ltac:(done)).
  - subst y. by destruct (Hfresh a ltac:(done)).
  - eapply NoDup_alt; eauto.
Qed.

Lemma takenByOther_spec idx w rs :
  takenByOther idx w rs
  <-> exists i r, i <> idx /\ rs !! i = Some r /\ sameWallet w r.
Proof.
  unfold takenByOther. rewrite Exists_exists. split.
  - intros ([i r] & Hin & Hne & Hsame).
    apply elem_of_lookup_imap in Hin as (i' & r' & [= -> ->] & Hi). eauto.
  - intros (i & r & Hne & Hi & Hsame). exists (i, r). split; [| done].
    apply elem_of_lookup_imap. eauto.
Qed.

(** X8: the wallets of a shard stay pairwise different, compared without
    case, under [addRecipient], [deleteRecipient] and [updateRecipient]. *)
Theorem recipients_keep_distinct_wallets sh :
  NoDup (wallets sh) ->
  (forall name wallet note,
     NoDup (wallets (addRecipient name wallet note sh).2))
  /\ (forall wallet, NoDup (wallets (deleteRecipient wallet sh).2))
  /\ (forall oldWallet newWallet newName newNote,
        NoDup (wallets (updateRecipient oldWallet newWallet newName newNote sh).2)).
Proof.
  intros Hnodup. split; [| split].
  - intros name wallet note. unfold addRecipient.
    destruct (_ || _); [done |]. case_bool_decide as Hdup; [done |].
    unfold wallets. cbn. rewrite fmap_app. apply NoDup_app.
    split; [done |]. split; [| apply NoDup_singleton].
    intros x Hx Hnew. apply list_elem_of_singleton in Hnew. cbn in Hnew. subst x.
    apply list_elem_of_fmap in Hx as (r & Hr & Hin).
    apply Hdup. apply Exists_exists. exists r. split; [done |]. by symmetry.
  - intros wallet. unfold deleteRecipient.
    destruct (String.eqb wallet ""); [done |].
    unfold wallets. cbn. eapply sublist_NoDup; [exact Hnodup |].
    apply fmap_sublist, sublist_filter.
  - intros oldWallet newWallet newName newNote. unfold updateRecipient.
    destruct (String.eqb oldWallet ""); [done |].
    destruct (list_find _ _) as [[idx r] |] eqn:Hfind; [| done].
    apply list_find_Some in Hfind as (Hidx & Hsame & _).
    destruct (String.eqb_spec newWallet "") as [-> | Hnew]; cbn [negb andb].
    + unfold wallets. cbn. rewrite list_fmap_insert. cbn.
      rewrite list_insert_id; [done |].
      by rewrite list_lookup_fmap, Hidx.
    + case_bool_decide as Htaken; [done |].
      unfold wallets. cbn. rewrite list_fmap_insert. cbn.
      apply NoDup_insert_fresh; [done |].
      intros j Hj Hlookup. rewrite list_lookup_fmap in Hlookup.
      destruct (recipients sh !! j) as [r' |] eqn:Hr'; [| done].
      injection Hlookup as Hlookup.
      apply Htaken, takenByOther_spec. by exists j, r'.
Qed.

Lemma recipients_keep_distinct_wallets_witness :
  let sh := setRecipients [{| name := "Alice"; wallet := "0xAA"; note := "" |}]
              emptyShard in
  (forall name wallet note,
     NoDup (wallets (addRecipient name wallet note sh).2))
  /\ (forall wallet, NoDup (wallets (deleteRecipient wallet sh).2))
  /\ (forall oldWallet newWallet newName newNote,
        NoDup (wallets (updateRecipient oldWallet newWallet newName newNote sh).2)).
Proof.
  intros sh. apply (recipients_keep_distinct_wallets sh).
  apply NoDup_singleton.
Defined.

(** X9: a recipient whose wallet is in the shard, in whatever case, is
    turned down with a conflict and the shard is left as it is. *)
Theorem addRecipient_duplicate_wallet name wallet note sh r :
  name <> "" -> wallet <> "" ->
  r ∈ recipients sh -> toLowerCase (Worker.wallet r) = toLowerCase wallet ->
  addRecipient name wallet note sh = (Conflict "Recipient already exists", sh).
Proof.
  intros Hname Hwallet Hin Hsame. unfold addRecipient.
  destruct (String.eqb_spec name ""); [done |].
  destruct (String.eqb_spec wallet ""); [done |]. cbn [orb].
  rewrite bool_decide_eq_true_2; [done |].
  apply Exists_exists. by exists r.
Qed.

Lemma addRecipient_duplicate_wallet_witness :
  let alice := {| name := "Alice"; wallet := "0xAbCd"; note := "" |} in
  let sh := setRecipients [alice] emptyShard in
  addRecipient "Bob" "0xABCD" "" sh = (Conflict "Recipient already exists", sh).
Proof.
  intros alice sh.
  apply (addRecipient_duplicate_wallet "Bob" "0xABCD" "" sh alice).
  - discriminate.
  - discriminate.
  - by left.
  - reflexivity.
Defined.

(** X10: a recipient that was added is found by its name as the exact
    match, when the name has no white space around it and no recipient
    of the shard had that name.  Names and wallets are texts of ASCII
    characters. *)
Theorem added_recipient_is_found name wallet note sh :
  isAscii name = true -> isAscii wallet = true ->
  forallb (λ r, isAscii (Worker.name r) && isAscii (Worker.wallet r))
    (recipients sh) = true ->
  name <> "" -> wallet <> "" ->
  ~ Exists (sameWallet wallet) (recipients sh) ->
  trim (toLowerCase name) = toLowerCase name ->
  (forall r, r ∈ recipients sh -> toLowerCase (Worker.name r) <> toLowerCase name) ->
  getRecipientByName name (addRecipient name wallet note sh).2
  = Exact {| Worker.name := name; Worker.wallet := wallet; Worker.note := note |}.
Proof.
  intros _ _ _ Hname Hwallet Hfree Htrim Hnew. unfold addRecipient.
  destruct (String.eqb_spec name ""); [done |].
  destruct (String.eqb_spec wallet ""); [done |]. cbn [orb].
  rewrite bool_decide_eq_false_2 by done. cbn [snd].
  unfold getRecipientByName. rewrite Htrim. cbn [recipients setRecipients].
  rewrite filter_app, (filter_none _ (recipients sh)).
  - rewrite filter_cons_True by done. done.
  - intros j r Hj. apply Hnew. apply list_elem_of_lookup. eauto.
Qed.

Lemma added_recipient_is_found_witness :
  let sh := setRecipients [{| name := "Alice Smith"; wallet := "0x01"; note := "" |}]
              emptyShard in
  getRecipientByName "Alice" (addRecipient "Alice" "0x02" "friend" sh).2
  = Exact {| name := "Alice"; wallet := "0x02"; note := "friend" |}.
Proof.
  intros sh. apply (added_recipient_is_found "Alice" "0x02" "friend" sh).
  - reflexivity.
  - reflexivity.
  - reflexivity.
  - discriminate.
  - discriminate.
  - intros Hex. apply Exists_exists in Hex as (r & Hr & Hsame).
    apply list_elem_of_singleton in Hr. subst r. by vm_compute in Hsame.
  - reflexivity.
  - intros r Hr. apply list_elem_of_singleton in Hr. subst r. by vm_compute.
Defined.

(** X11: [deleteRecipient] removes every recipient with the wallet,
    compared without case, keeps the others in their order, and answers
    with success also when no recipient has the wallet, in which case
    the shard is left as it is. *)
Theorem deleteRecipient_removes wallet sh :
  wallet <> "" ->
  let rs := filter (λ r, ¬ sameWallet wallet r) (recipients sh) in
  deleteRecipient wallet sh = (Listed rs, setRecipients rs sh)
  /\ (forall r, r ∈ rs <-> r ∈ recipients sh /\ ~ sameWallet wallet r)
  /\ rs `sublist_of` recipients sh
  /\ (~ Exists (sameWallet wallet) (recipients sh) ->
      deleteRecipient wallet sh = (Listed (recipients sh), sh)).
Proof.
  intros Hwallet rs. unfold deleteRecipient.
  destruct (String.eqb_spec wallet ""); [done |]. fold rs.
  split; [done |]. split; [| split].
  - intros r. unfold rs. rewrite list_elem_of_filter. tauto.
  - apply sublist_filter.
  - intros Hnone.
    assert (rs = recipients sh) as ->; [| by rewrite setRecipients_same].
    unfold rs. clear rs. induction (recipients sh) as [| a l IH]; [done |].
    rewrite filter_cons_True.
    + f_equal. apply IH. intros Hex. apply Hnone. by right.
    + intros Ha. apply Hnone. by left.
Qed.

Lemma deleteRecipient_removes_witness :
  let alice := {| name := "Alice"; wallet := "0xAbCd"; note := "" |} in
  let sh := setRecipients [alice] emptyShard in
  let rs := filter (λ r, ¬ sameWallet "0xABCD" r) (recipients sh) in
  deleteRecipient "0xABCD" sh = (Listed rs, setRecipients rs sh)
  /\ (forall r, r ∈ rs <-> r ∈ recipients sh /\ ~ sameWallet "0xABCD" r)
  /\ rs `sublist_of` recipients sh
  /\ (~ Exists (sameWallet "0xABCD") (recipients sh) ->
      deleteRecipient "0xABCD" sh = (Listed (recipients sh), sh)).
Proof.
  intros alice sh. apply (deleteRecipient_removes "0xABCD" sh). discriminate.
Defined.

(** X12: [updateRecipient] changes the shard only when it answers with
    the updated recipient: then the list keeps its length, the first
    recipient with the old wallet is replaced and every other position
    is as before; an unknown old wallet and a new wallet that another
    recipient has leave the shard as it is. *)
Theorem updateRecipient_frame oldWallet newWallet newName newNote sh :
  match updateRecipient oldWallet newWallet newName newNote sh with
  | (Updated r' rs', sh') =>
      sh' = setRecipients rs' sh
      /\ length rs' = length (recipients sh)
      /\ exists idx r,
           recipients sh !! idx = Some r /\ sameWallet oldWallet r
           /\ (forall j y, recipients sh !! j = Some y -> (j < idx)%nat ->
                 ~ sameWallet oldWallet y)
           /\ rs' !! idx = Some r'
           /\ (forall j, j <> idx -> rs' !! j = recipients sh !! j)
           /\ Worker.name r' = (if String.eqb newName "" then name r else newName)
           /\ Worker.wallet r'
              = (if String.eqb newWallet "" then wallet r else newWallet)
           /\ Worker.note r' = default (note r) newNote
  | (NotFound _, sh') =>
      sh' = sh /\ ~ Exists (sameWallet oldWallet) (recipients sh)
  | (Conflict _, sh') =>
      sh' = sh /\ newWallet <> ""
      /\ exists r, r ∈ recipients sh /\ sameWallet newWallet r
  | (BadRequest _, sh') => sh' = sh /\ oldWallet = ""
  | (Listed _, _) => False
  end.
Proof.
  unfold updateRecipient.
  destruct (String.eqb_spec oldWallet "") as [-> | Hold]; [done |].
  destruct (list_find _ _) as [[idx r] |] eqn:Hfind.
  - pose proof Hfind as (Hidx & Hsame & Hfirst)%list_find_Some.
    assert (forall r' : Recipient,
              <[idx := r']> (recipients sh) !! idx = Some r') as Hat.
    { intros r'. apply list_lookup_insert_eq. by eapply lookup_lt_Some. }
    assert (forall (r' : Recipient) j, j <> idx ->
              <[idx := r']> (recipients sh) !! j = recipients sh !! j) as Hframe.
    { intros r' j Hj. by apply list_lookup_insert_ne. }
    destruct (String.eqb_spec newWallet "") as [Hnw | Hnw]; cbn [negb andb].
    + split; [done |]. split; [apply length_insert |].
      exists idx, r. cbn. repeat split; try done. apply Hframe.
    + case_bool_decide as Htaken.
      * split; [done |]. split; [done |].
        apply takenByOther_spec in Htaken as (i & r' & _ & Hi & Hr').
        exists r'. split; [| done]. apply list_elem_of_lookup. eauto.
      * split; [done |]. split; [apply length_insert |].
        exists idx, r. cbn. repeat split; try done. apply Hframe.
  - split; [done |]. apply list_find_None in Hfind.
    intros Hex. apply Exists_exists in Hex as (x & Hx & HP).
    rewrite Forall_forall in Hfind. by apply (Hfind x).
Qed.

End RecipientFacts.

(** ** Sign-in, stored transactions and schedules of a shard *)

Module StoreFacts.
Import JS Date DateFacts Worker Schedules ShardFacts.
Local Open Scope Z_scope.

Lemma decimal_nonempty fuel z acc :
  exists c r, decimal fuel z acc = String c r.
Proof.
  revert z acc. induction fuel as [| f IH]; intros z acc; cbn [decimal]; [eauto |].
  destruct (z <? 10); [eauto | apply IH].
Qed.

Lemma toString_truthy n : truthy (VStr (toString n)) = true.
Proof.
  unfold toString. destruct (n <? 0); [done |].
  by destruct (decimal_nonempty (Z.to_nat (Z.log2 n)) n "") as (c & r & ->).
Qed.

(** X13: a nonce is good for one sign-in.  After [handleNonce], a
    well-formed signature of the message that carries the nonce is
    accepted, and a verification that follows it, with whatever address
    and signature, is answered "nonce not found" and changes nothing. *)
Theorem nonce_is_single_use
    (verifyMessage : string -> string -> option string)
    r now sh address signature signer :
  let nonce := (handleNonce r now sh).1 in
  let issued := (handleNonce r now sh).2 in
  verifyMessage (loginMessage (VStr nonce)) signature = Some signer ->
  get (auth issued) "nonce" = VStr nonce
  /\ (handleVerify verifyMessage address signature issued).1 = VerifySuccess
  /\ forall address' signature',
       let used := (handleVerify verifyMessage address signature issued).2 in
       handleVerify verifyMessage address' signature' used = (NonceNotFound, used).
Proof.
  intros nonce issued Hsig.
  assert (get (auth issued) "nonce" = VStr nonce) as Hnonce.
  { unfold issued, handleNonce. cbn.
    rewrite get_insert_ne by done. apply get_insert_eq. }
  assert (handleVerify verifyMessage address signature issued
          = (VerifySuccess, setAuth (<["nonce" := VNull]> (auth issued)) issued))
    as Hverify.
  { unfold handleVerify. rewrite Hnonce, Hsig.
    unfold nonce, handleNonce. cbn [fst]. by rewrite toString_truthy. }
  split; [done |]. rewrite Hverify. split; [done |].
  intros address' signature'. cbn [snd].
  unfold handleVerify. cbn [auth setAuth]. by rewrite get_insert_eq.
Qed.

Lemma nonce_is_single_use_witness :
  let r := {| mant := 2 ^ 52; expo := 53 |} in
  let nonce := (handleNonce r 0 emptyShard).1 in
  let issued := (handleNonce r 0 emptyShard).2 in
  let signature := signAs "0xabc" (loginMessage (VStr nonce)) in
  get (auth issued) "nonce" = VStr nonce
  /\ (handleVerify recoverSigner "0xabc" signature issued).1 = VerifySuccess
  /\ forall address' signature',
       let used := (handleVerify recoverSigner "0xabc" signature issued).2 in
       handleVerify recoverSigner address' signature' used = (NonceNotFound, used).
Proof.
  intros r nonce issued signature.
  apply (nonce_is_single_use recoverSigner r 0 emptyShard "0xabc" signature "0xabc").
  by vm_compute.
Defined.

(** X14: [handleVerify] changes the shard only when it accepts: without
    a stored nonce and with a signature that is not well formed the
    answer is an error and the nonce, if any, is still there. *)
Theorem handleVerify_errors_keep_nonce
    (verifyMessage : string -> string -> option string) address signature sh :
  (truthy (get (auth sh) "nonce") = false ->
   handleVerify verifyMessage address signature sh = (NonceNotFound, sh))
  /\ (truthy (get (auth sh) "nonce") = true ->
      verifyMessage (loginMessage (get (auth sh) "nonce")) signature = None ->
      handleVerify verifyMessage address signature sh
      = (InvalidSignatureFormat, sh))
  /\ ((handleVerify verifyMessage address signature sh).1 <> VerifySuccess ->
      (handleVerify verifyMessage address signature sh).2 = sh).
Proof.
  unfold handleVerify. split; [| split].
  - by intros ->.
  - by intros -> ->.
  - destruct (truthy _); [| done]. by destruct (verifyMessage _ _).
Qed.

Lemma handleVerify_errors_keep_nonce_witness :
  let issued := setAuth {[ "nonce" := VStr "123456" ]} emptyShard in
  handleVerify recoverSigner "0xabc" (signAs "0xabc" "hello") emptyShard
  = (NonceNotFound, emptyShard)
  /\ handleVerify recoverSigner "0xabc" "no signer" issued
     = (InvalidSignatureFormat, issued).
Proof.
  split.
  - apply (proj1 (handleVerify_errors_keep_nonce recoverSigner "0xabc"
                    (signAs "0xabc" "hello") emptyShard)).
    reflexivity.
  - apply (proj1 (proj2 (handleVerify_errors_keep_nonce recoverSigner "0xabc"
                           "no signer"
                           (setAuth {[ "nonce" := VStr "123456" ]} emptyShard))));
      reflexivity.
Defined.

(** *** [storeTransaction] *)

Lemma digit_not_T d : 0 <= d < 10 -> Ascii.eqb (JS.digit d) "T" = false.
Proof.
  intros Hd.
  assert (d = 0 \/ d = 1 \/ d = 2 \/ d = 3 \/ d = 4 \/ d = 5 \/ d = 6
          \/ d = 7 \/ d = 8 \/ d = 9) as Hc by lia.
  repeat destruct Hc as [-> | Hc]; try subst d; reflexivity.
Qed.

(** The date part of an ISO text is not empty. *)
Lemma today_truthy t : truthy (VStr (beforeT (toISOString t))) = true.
Proof.
  unfold toISOString, isoYear.
  destruct (_ && _).
  - cbn [pad beforeT]. unfold digit. by rewrite digit_not_T by div_lia.
  - by destruct (0 <=? _).
Qed.

Lemma txEntry_get id name type address amount currency start_date
    time_of_day interval times note status txHash timestamp :
  let e := txEntry id name type address amount currency start_date
             time_of_day interval times note status txHash timestamp in
  get e "type" = type /\ get e "address" = address /\ get e "amount" = amount
  /\ get e "currency" = currency /\ get e "status" = status
  /\ get e "note" = note.
Proof. by vm_compute. Qed.

(** X15: [storeTransaction] turns a payload down exactly when it names
    no recipient ([address], [recipient] and [to] all missing) or no
    amount, and then leaves the shard as it is; the intent and the start
    date never count, as they have defaults.  A payload that is stored
    gets the defaults [recurring], [USDC], [completed] and [NA] for a
    missing intent, currency, status and note. *)
Theorem storeTransaction_accepts rnd today_at stored_at tx sh :
  let recipient_given :=
    truthy (get tx "address") || truthy (get tx "recipient")
    || truthy (get tx "to") in
  (recipient_given && truthy (get tx "amount") = false ->
   storeTransaction rnd today_at stored_at tx sh = (None, sh))
  /\ (recipient_given && truthy (get tx "amount") = true ->
      exists entry,
        storeTransaction rnd today_at stored_at tx sh
        = (Some entry, setTransactions (transactions sh ++ [entry]) sh)
        /\ get entry "amount" = get tx "amount"
        /\ get entry "address"
           = or_else (get tx "address")
               (or_else (get tx "recipient") (or_else (get tx "to") VNull))
        /\ get entry "type"
           = or_else (get tx "intent") (or_else (get tx "type") (VStr "recurring"))
        /\ get entry "currency" = or_else (get tx "currency") (VStr "USDC")
        /\ get entry "status" = or_else (get tx "status") (VStr "completed")
        /\ get entry "note" = or_else (get tx "note") (VStr "NA")).
Proof.
  intros recipient_given.
  set (n_address := or_else (get tx "address") (or_else (get tx "recipient")
                      (or_else (get tx "to") VNull))).
  assert (truthy n_address = recipient_given) as Haddr.
  { unfold n_address, recipient_given, or_else.
    destruct (truthy (get tx "address")) eqn:H1; [done |].
    destruct (truthy (get tx "recipient")) eqn:H2; [done |].
    by destruct (truthy (get tx "to")) eqn:H3. }
  assert (truthy (or_else (get tx "intent")
                    (or_else (get tx "type") (VStr "recurring"))) = true)
    as Hintent by (by do 2 apply or_else_truthy_r).
  assert (truthy (or_else (get tx "start_date")
                    (VStr (beforeT (toISOString today_at)))) = true)
    as Hstart by apply or_else_truthy_r, today_truthy.
  unfold storeTransaction. fold n_address. rewrite Haddr, Hintent, Hstart.
  cbn [negb]. rewrite !orb_false_r. split.
  - intros Hmissing.
    destruct recipient_given; [| done]. cbn in Hmissing. by rewrite Hmissing.
  - intros [Hgiven Hamount]%andb_true_iff. rewrite Hgiven, Hamount. cbn [negb orb].
    eexists. split; [reflexivity |].
    edestruct txEntry_get as (Hty & Had & Ham & Hcu & Hst & Hno).
    rewrite Ham, Had, Hty, Hcu, Hst, Hno.
    split; [done |]. split; [done |]. split; [done |]. split; [done |].
    split; [done |].
    unfold or_else. destruct (truthy (get tx "note")) eqn:Hn; [by rewrite Hn | done].
Qed.

Lemma storeTransaction_accepts_witness :
  storeTransaction Samples.zeroRnd 0 1 {[ "amount" := VNum 5 ]} emptyShard
  = (None, emptyShard)
  /\ exists entry,
       storeTransaction Samples.zeroRnd 0 1 Samples.callerTx emptyShard
       = (Some entry,
          setTransactions (transactions emptyShard ++ [entry]) emptyShard)
       /\ get entry "amount" = get Samples.callerTx "amount"
       /\ get entry "address"
          = or_else (get Samples.callerTx "address")
              (or_else (get Samples.callerTx "recipient")
                 (or_else (get Samples.callerTx "to") VNull))
       /\ get entry "type"
          = or_else (get Samples.callerTx "intent")
              (or_else (get Samples.callerTx "type") (VStr "recurring"))
       /\ get entry "currency"
          = or_else (get Samples.callerTx "currency") (VStr "USDC")
       /\ get entry "status"
          = or_else (get Samples.callerTx "status") (VStr "completed")
       /\ get entry "note" = or_else (get Samples.callerTx "note") (VStr "NA").
Proof.
  split.
  - apply (proj1 (storeTransaction_accepts Samples.zeroRnd 0 1
                    {[ "amount" := VNum 5 ]} emptyShard)).
    reflexivity.
  - apply (proj2 (storeTransaction_accepts Samples.zeroRnd 0 1
                    Samples.callerTx emptyShard)).
    reflexivity.
Defined.

End StoreFacts.

(** ** The schedules of a shard *)

Module ScheduleListFacts.
Import JS Worker Schedules ShardFacts CronFacts.

Lemma setSchedules_same sh : setSchedules (schedules sh) sh = sh.
Proof. by destruct sh. Qed.

Lemma filter_keeps_all {A} (P : A -> Prop) `{!forall x, Decision (P x)} l :
  Forall P l -> filter P l = l.
Proof.
  induction 1 as [| x l Hx _ IH]; [done |].
  by rewrite filter_cons_True, IH.
Qed.

(** X16: [updateSchedule] throws exactly when no schedule of the shard
    has the identifier.  Otherwise it rewrites the first schedule that
    has it, and only that one: the fields of the patch win, the other
    fields are the old ones, and every other schedule, the number of
    schedules, the transactions, the recipients and the sign-in data
    are as before. *)
Theorem updateSchedule_frame scheduleId patch sh :
  match updateSchedule scheduleId patch sh with
  | None => Forall (λ s, ¬ hasId scheduleId s) (schedules sh)
  | Some (new, sh') =>
      exists idx old,
        schedules sh !! idx = Some old /\ hasId scheduleId old
        /\ (forall j s, schedules sh !! j = Some s -> (j < idx)%nat ->
              ¬ hasId scheduleId s)
        /\ schedules sh' !! idx = Some new
        /\ (forall k, get new k
              = match patch !! k with Some v => v | None => get old k end)
        /\ (forall j, j <> idx -> schedules sh' !! j = schedules sh !! j)
        /\ length (schedules sh') = length (schedules sh)
        /\ transactions sh' = transactions sh
        /\ recipients sh' = recipients sh /\ auth sh' = auth sh
  end.
Proof.
  unfold updateSchedule.
  destruct (list_find (hasId scheduleId) (schedules sh)) as [[idx old] |] eqn:Hfind.
  - cbn. apply list_find_Some in Hfind as (Hidx & Hid & Hfirst).
    exists idx, old. split; [done |]. split; [done |]. split; [done |].
    split; [apply list_lookup_insert_eq; by eapply lookup_lt_Some |].
    split; [apply get_union |].
    split; [intros j Hj; by apply list_lookup_insert_ne |].
    split; [apply length_insert | done].
  - cbn. by apply (proj1 (list_find_None _ _)).
Qed.

(** X17: after [deleteSchedule] no schedule of the shard has the
    identifier, the schedules with another identifier are kept in their
    order, and an update of the deleted schedule throws.  Deleting is
    idempotent and touches nothing but the schedules. *)
Theorem deleteSchedule_removes scheduleId sh :
  let sh' := deleteSchedule scheduleId sh in
  Forall (λ s, ¬ hasId scheduleId s) (schedules sh')
  /\ (forall s, s ∈ schedules sh' <-> s ∈ schedules sh /\ ¬ hasId scheduleId s)
  /\ schedules sh' `sublist_of` schedules sh
  /\ (forall patch, updateSchedule scheduleId patch sh' = None)
  /\ deleteSchedule scheduleId sh' = sh'
  /\ transactions sh' = transactions sh
  /\ recipients sh' = recipients sh /\ auth sh' = auth sh.
Proof.
  intros sh'.
  assert (Forall (λ s, ¬ hasId scheduleId s) (schedules sh')) as Hnone.
  { apply Forall_forall. intros s Hs.
    by apply list_elem_of_filter in Hs as [Hs _]. }
  split; [done |].
  split; [intros s; unfold sh', deleteSchedule; cbn;
          rewrite list_elem_of_filter; tauto |].
  split; [apply sublist_filter |].
  split.
  { intros patch. unfold updateSchedule.
    by rewrite (proj2 (list_find_None _ _) Hnone). }
  split; [| done].
  unfold deleteSchedule at 1. rewrite filter_keeps_all by done.
  apply setSchedules_same.
Qed.

(** X18: a schedule added with [addSchedule] is the last one of the
    shard, and [updateSchedule] finds it under its identifier when no
    older schedule has the same one; deleting it then gives the shard
    back as it was. *)
Theorem addSchedule_then_delete scheduleId schedule sh :
  hasId scheduleId schedule ->
  Forall (λ s, ¬ hasId scheduleId s) (schedules sh) ->
  let sh' := (addSchedule schedule sh).2 in
  schedules sh' !! length (schedules sh) = Some schedule
  /\ (forall patch,
        fst <$> updateSchedule scheduleId patch sh' = Some (patch ∪ schedule))
  /\ deleteSchedule scheduleId sh' = sh.
Proof.
  intros Hid Hfresh sh'. split; [| split].
  - cbn. by rewrite lookup_app_r, Nat.sub_diag.
  - intros patch. unfold updateSchedule.
    assert (list_find (hasId scheduleId) (schedules sh')
            = Some (length (schedules sh), schedule)) as ->; [| done].
    apply list_find_Some. split; [| split; [done |]].
    + cbn. by rewrite lookup_app_r, Nat.sub_diag.
    + intros j s Hj Hlt. cbn in Hj. rewrite lookup_app_l in Hj by done.
      rewrite Forall_forall in Hfresh. apply Hfresh.
      by eapply list_elem_of_lookup_2.
  - unfold deleteSchedule, sh'. cbn.
    rewrite filter_app, filter_keeps_all by done.
    rewrite filter_cons_False, filter_nil, app_nil_r by tauto.
    by destruct sh.
Qed.

Lemma addSchedule_then_delete_witness :
  let schedule : gmap string value := {["id" := VStr "s1"]} in
  let sh' := (addSchedule schedule emptyShard).2 in
  schedules sh' !! length (schedules emptyShard) = Some schedule
  /\ (forall patch,
        fst <$> updateSchedule "s1" patch sh' = Some (patch ∪ schedule))
  /\ deleteSchedule "s1" sh' = emptyShard.
Proof.
  apply (addSchedule_then_delete "s1" {["id" := VStr "s1"]} emptyShard).
  - reflexivity.
  - simpl. constructor.
Defined.

End ScheduleListFacts.

(** ** Runs of the cron handler over the whole index *)

Module RunFacts.
Import JS Date DateFacts Worker ShardFacts CronFacts.
Local Open Scope Z_scope.

Lemma due_later_not_due now s t :
  parse (nextRun s) = Some t -> now < t -> isDue now s = false.
Proof.
  intros Hparse Hlater. unfold isDue. rewrite Hparse.
  by destruct (Z.ltb_spec now t); [| lia].
Qed.

Lemma entries_not_due now envs l w :
  Forall (λ ks : string * IndexEntry, isDue now ks.2 = false) l ->
  foldl (λ (w : World) (ks : string * IndexEntry),
           processOne now (envs ks.1) ks.2 w) w l = w.
Proof.
  revert w. induction 1 as [| ks l Hks _ IH]; [done |].
  cbn [foldl]. by rewrite processOne_not_due.
Qed.

(** X19: a run of [processDueSchedules] over an index in which every
    entry is due later (its [nextRun] is a date of the ISO form after
    the start of the run), and over an empty index, changes nothing,
    neither in the index nor in a shard. *)
Theorem nothing_due_nothing_changes now envs w :
  (forall k s, kv w !! k = Some s ->
     exists t, parse (nextRun s) = Some t /\ now < t) ->
  processDueSchedules now envs w = w.
Proof.
  intros Hlater. unfold processDueSchedules. apply entries_not_due.
  apply Forall_forall. intros [k s] Hin%elem_of_map_to_list.
  destruct (Hlater k s Hin) as (t & Hparse & Ht).
  by apply (due_later_not_due now s t).
Qed.

Lemma nothing_due_nothing_changes_witness :
  processDueSchedules 1736899199999 (λ _, Samples.okWithoutHash)
    MoreSamples.openWorld = MoreSamples.openWorld.
Proof.
  apply (nothing_due_nothing_changes 1736899199999 (λ _, Samples.okWithoutHash)
           MoreSamples.openWorld).
  intros k s Hks. unfold MoreSamples.openWorld in Hks. cbn [kv] in Hks.
  apply lookup_singleton_Some in Hks as [_ <-].
  exists 1736899200000. split; [by vm_compute | lia].
Defined.

Lemma entries_keep now envs l w k s :
  (forall ks, ks ∈ l -> scheduleId ks.2 = k -> ks.2 = s) ->
  isDue now s = false ->
  kv w !! k = Some s ->
  kv (foldl (λ (w : World) (ks : string * IndexEntry),
           processOne now (envs ks.1) ks.2 w) w l) !! k = Some s.
Proof.
  revert w. induction l as [| ks l IH]; intros w Hl Hdue Hk; [done |].
  cbn [foldl]. apply IH; [intros ks' Hin; apply Hl; by right | done |].
  destruct (decide (scheduleId ks.2 = k)) as [Heq | Hne].
  - rewrite (Hl ks) by (by left || done). by rewrite processOne_not_due.
  - by rewrite processOne_kv_other.
Qed.

(** X20: in an index where every entry is stored under its own
    identifier, a run leaves an entry that is due later (its [nextRun]
    is a date of the ISO form after the start of the run) exactly as it
    is, whatever happens to the due entries around it. *)
Theorem entry_not_due_is_kept now envs w k s t :
  kv_wf (kv w) -> kv w !! k = Some s ->
  parse (nextRun s) = Some t -> now < t ->
  kv (processDueSchedules now envs w) !! k = Some s.
Proof.
  intros Hwf Hk Hparse Hlater. unfold processDueSchedules.
  apply entries_keep; [| by apply (due_later_not_due now s t) | done].
  intros [k' s'] Hin%elem_of_map_to_list Hid. cbn in *.
  rewrite (Hwf k' s' Hin) in Hid. subst k'. congruence.
Qed.

Lemma entry_not_due_is_kept_witness :
  kv (processDueSchedules 1738281600400 (λ _, Samples.okWithoutHash)
        (writeScheduleIndex MoreSamples.laterEntry Samples.lastRunWorld))
    !! "sched-3" = Some MoreSamples.laterEntry.
Proof.
  apply (entry_not_due_is_kept 1738281600400 (λ _, Samples.okWithoutHash)
           (writeScheduleIndex MoreSamples.laterEntry Samples.lastRunWorld)
           "sched-3" MoreSamples.laterEntry 1740787200000).
  - intros k s. unfold writeScheduleIndex, putIndex, Samples.lastRunWorld.
    cbn [kv scheduleId MoreSamples.laterEntry].
    intros [[<- <-] | [_ [<- <-]%lookup_singleton_Some]]%lookup_insert_Some;
      reflexivity.
  - reflexivity.
  - by vm_compute.
  - lia.
Defined.

Lemma entries_shape now envs l w (keys : gmap string IndexEntry) :
  (forall ks, ks ∈ l -> is_Some (keys !! scheduleId ks.2)) ->
  kv_wf (kv w) /\ (forall k, is_Some (kv w !! k) -> is_Some (keys !! k)) ->
  let w' := foldl (λ (w : World) (ks : string * IndexEntry),
           processOne now (envs ks.1) ks.2 w) w l in
  kv_wf (kv w') /\ (forall k, is_Some (kv w' !! k) -> is_Some (keys !! k)).
Proof.
  revert w. induction l as [| ks l IH]; intros w Hl Hw; [done |].
  cbn [foldl]. apply IH; [intros ks' Hin; apply Hl; by right |].
  destruct Hw as [Hwf Hsub]. split; [by apply processOne_kv_wf |].
  intros k Hk.
  destruct (decide (k = scheduleId ks.2)) as [-> | Hne].
  - apply Hl. by left.
  - rewrite processOne_kv_other in Hk by done. by apply Hsub.
Qed.

(** X21: a run never adds a key to a well-formed index, and leaves it
    well formed: every entry that is in the index after the run is
    stored under its own identifier, and that identifier was in the
    index before. *)
Theorem run_keeps_index_shape now envs w :
  kv_wf (kv w) ->
  let w' := processDueSchedules now envs w in
  kv_wf (kv w')
  /\ forall k s', kv w' !! k = Some s' ->
       scheduleId s' = k /\ is_Some (kv w !! k).
Proof.
  intros Hwf w'.
  destruct (entries_shape now envs (map_to_list (kv w)) w (kv w)) as [Hwf' Hsub].
  - intros [k s] Hin%elem_of_map_to_list. cbn.
    by rewrite (Hwf k s Hin), Hin.
  - done.
  - split; [done |]. intros k s' Hk. split; [by apply Hwf' |].
    apply Hsub. unfold w', processDueSchedules in Hk. by rewrite Hk.
Qed.

Lemma run_keeps_index_shape_witness :
  let w' := processDueSchedules 1738281600400 (λ _, Samples.okWithoutHash)
              Samples.lastRunWorld in
  kv_wf (kv w')
  /\ forall k s', kv w' !! k = Some s' ->
       scheduleId s' = k /\ is_Some (kv Samples.lastRunWorld !! k).
Proof.
  apply (run_keeps_index_shape 1738281600400 (λ _, Samples.okWithoutHash)
           Samples.lastRunWorld).
  intros k s Hks. unfold Samples.lastRunWorld in Hks. cbn [kv] in Hks.
  apply lookup_singleton_Some in Hks as [<- <-]. reflexivity.
Defined.

Lemma advance_patch_fields next v :
  v = VNull \/ (exists n, v = VNum n) ->
  let patch : gmap string value :=
    json (list_to_map [("nextRun", VStr next); ("times_remaining", v)]) in
  patch !! "nextRun" = Some (VStr next)
  /\ patch !! "times_remaining" = Some v /\ patch !! "active" = None.
Proof. intros [-> | [n ->]]; by vm_compute. Qed.

(** X22: after a successful execution that is not the last one, the
    index entry and the schedule in the owner's shard agree: both carry
    the [nextRun] that [incrementNextRunIso] computed and the same
    [times_remaining], one less than before ([null] when the schedule is
    unlimited), and the schedule keeps its [active] flag. *)
Theorem successful_fire_keeps_index_and_shard_in_step
    now e s w t next idx old :
  parse (nextRun s) = Some t -> t <= now ->
  replySucceeded (reply e) = true ->
  incrementNextRunIso (nextRun s) (interval s) (intervalMs s) = Some next ->
  (forall n, times_remaining s = Some n -> 1 < n) ->
  userAddress s <> "" -> scheduleId s <> "" ->
  list_find (hasId (scheduleId s))
    (schedules (shardAt (toLowerCase (userAddress s)) w)) = Some (idx, old) ->
  let key := toLowerCase (userAddress s) in
  let w' := processOne now e s w in
  let left := (λ n, n - 1) <$> times_remaining s in
  (exists s',
     kv w' !! scheduleId s = Some s'
     /\ nextRun s' = next /\ times_remaining s' = left)
  /\ (exists new,
        schedules (shardAt key w') !! idx = Some new
        /\ get new "nextRun" = VStr next
        /\ get new "times_remaining" = from_option VNum VNull left
        /\ get new "active" = get old "active").
Proof.
  intros Hparse Hdue Hok Hnext Hleft Haddr Hid Hfind key w' left.
  split; [by apply (successful_fire_advances_index now e s w t next) |].
  unfold w'. rewrite (processOne_due now e s w t) by done.
  cbv zeta. rewrite Hok, Hnext. fold key. unfold left.
  destruct (times_remaining s) as [n |] eqn:Hn; cbn [fmap option_fmap option_map].
  - specialize (Hleft n eq_refl). destruct (Z.leb_spec (n - 1) 0); [lia |].
    rewrite shardAt_onShard, shardAt_putIndex, shardAt_onShard.
    eexists. split.
    + apply (patched_schedule _ _ _ _ idx old); [done | done |].
      by rewrite fetchStoreTransaction_schedules.
    + destruct (advance_patch_fields next (VNum (n - 1))) as (H1 & H2 & H3);
        [right; by eexists |].
      by rewrite !get_union, H1, H2, H3.
  - rewrite shardAt_onShard, shardAt_putIndex, shardAt_onShard.
    eexists. split.
    + apply (patched_schedule _ _ _ _ idx old); [done | done |].
      by rewrite fetchStoreTransaction_schedules.
    + destruct (advance_patch_fields next VNull) as (H1 & H2 & H3); [by left |].
      by rewrite !get_union, H1, H2, H3.
Qed.

Lemma successful_fire_keeps_index_and_shard_in_step_witness :
  let key := toLowerCase "0xAbC" in
  let w' := processOne 1736899200000 Samples.okWithoutHash
              MoreSamples.openEntry MoreSamples.openWorld in
  let left := (λ n, n - 1) <$> Some 3 in
  (exists s',
     kv w' !! "sched-2" = Some s'
     /\ nextRun s' = "2025-02-15T00:00:00.000Z" /\ times_remaining s' = left)
  /\ (exists new,
        schedules (shardAt key w') !! 0%nat = Some new
        /\ get new "nextRun" = VStr "2025-02-15T00:00:00.000Z"
        /\ get new "times_remaining" = from_option VNum VNull left
        /\ get new "active" = get MoreSamples.openSchedule "active").
Proof.
  apply (successful_fire_keeps_index_and_shard_in_step 1736899200000
           Samples.okWithoutHash MoreSamples.openEntry MoreSamples.openWorld
           1736899200000 "2025-02-15T00:00:00.000Z" 0%nat
           MoreSamples.openSchedule).
  - by vm_compute.
  - lia.
  - reflexivity.
  - by vm_compute.
  - intros n [= <-]. lia.
  - done.
  - done.
  - reflexivity.
Defined.

(** X23: when the backend reports success for a due entry but
    [incrementNextRunIso] throws (the next date is out of range), the
    completed transaction is stored and nothing else happens: the index
    entry and the schedules of the shard stay as they are, so that the
    entry is due again at every later run. *)
Theorem fire_without_next_date_stays_due now e s w t :
  parse (nextRun s) = Some t -> t <= now ->
  replySucceeded (reply e) = true ->
  incrementNextRunIso (nextRun s) (interval s) (intervalMs s) = None ->
  userAddress s <> "" ->
  truthy (amount s) = true -> truthy (recipient s) = true ->
  let key := toLowerCase (userAddress s) in
  let w' := processOne now e s w in
  kv w' = kv w
  /\ schedules (shardAt key w') = schedules (shardAt key w)
  /\ (exists tx,
        transactions (shardAt key w') = transactions (shardAt key w) ++ [tx]
        /\ tx !! "status" = Some (VStr "completed"))
  /\ forall later, now <= later -> isDue later s = true.
Proof.
  intros Hparse Hdue Hok Hnext Haddr Hamount Hrecipient key w'.
  assert (w' = onShard key
                 (fetchStoreTransaction (userAddress s) (rnd e) (today_at e)
                    (stored_at e)
                    (txRecord (amount s) (or_else (entry_note s) (VStr ""))
                       (VStr "completed") (recipient s)
                       (VStr (toISOString (record_at e)))
                       (or_else (replyHash (reply e)) VNull))) w) as ->.
  { unfold w'. rewrite (processOne_due now e s w t) by done.
    cbv zeta. by rewrite Hok, Hnext. }
  split; [apply kv_onShard |]. rewrite shardAt_onShard.
  split; [apply fetchStoreTransaction_schedules |]. split.
  - destruct (fetchStoreTransaction_txRecord (userAddress s) (rnd e) (today_at e)
                (stored_at e) (amount s) (or_else (entry_note s) (VStr ""))
                (VStr "completed") (recipient s) (record_at e)
                (or_else (replyHash (reply e)) VNull) (shardAt key w))
      as (tx & -> & Hstatus & _); [done .. |].
    by exists tx.
  - intros later Hlater. apply isDue_true. exists t. split; [done | lia].
Qed.

Lemma fire_without_next_date_stays_due_witness :
  let key := toLowerCase "0xAbC" in
  let w' := processOne 1736899200000 Samples.okWithoutHash
              MoreSamples.farEntry MoreSamples.farWorld in
  kv w' = kv MoreSamples.farWorld
  /\ schedules (shardAt key w') = schedules (shardAt key MoreSamples.farWorld)
  /\ (exists tx,
        transactions (shardAt key w')
        = transactions (shardAt key MoreSamples.farWorld) ++ [tx]
        /\ tx !! "status" = Some (VStr "completed"))
  /\ forall later, 1736899200000 <= later -> isDue later MoreSamples.farEntry = true.
Proof.
  apply (fire_without_next_date_stays_due 1736899200000 Samples.okWithoutHash
           MoreSamples.farEntry MoreSamples.farWorld 1736899200000).
  - by vm_compute.
  - lia.
  - reflexivity.
  - by vm_compute.
  - done.
  - reflexivity.
  - reflexivity.
Defined.

End RunFacts.

(** ** From the cron handler to the backend, and [parseIntent] *)

Module DispatchFacts.
Import JS Worker ShardFacts.
Local Open Scope Z_scope.

(** *** Text *)

Lemma rev_app_app a b c :
  String.rev_app (a +:+ b) c = String.rev_app b (String.rev_app a c).
Proof. revert c. induction a as [| x a IH]; intros c; [done | apply IH]. Qed.

Lemma rev_app_rev_app a b c :
  String.rev_app (String.rev_app a b) c = String.rev_app b (a +:+ c).
Proof.
  revert b c. induction a as [| x a IH]; intros b c; [done |].
  cbn [String.rev_app]. by rewrite IH.
Qed.

Lemma app_empty_r s : s +:+ "" = s.
Proof.
  induction s as [| x s IH]; [done |].
  change (String x (s +:+ "") = String x s). by rewrite IH.
Qed.

Lemma app_snoc p c r : (p +:+ String c "") +:+ r = p +:+ String c r.
Proof.
  induction p as [| x p IH]; [done |].
  change (String x ((p +:+ String c "") +:+ r) = String x (p +:+ String c r)).
  by rewrite IH.
Qed.

Lemma rev_rev s : String.rev (String.rev s) = s.
Proof. unfold String.rev. rewrite rev_app_rev_app. apply app_empty_r. Qed.

Lemma digit_cases d :
  0 <= d < 10 ->
  d = 0 \/ d = 1 \/ d = 2 \/ d = 3 \/ d = 4 \/ d = 5 \/ d = 6
  \/ d = 7 \/ d = 8 \/ d = 9.
Proof. lia. Qed.

Lemma digit_not_space d : 0 <= d < 10 -> Ascii.is_space (digit d) = false.
Proof.
  intros Hc%digit_cases.
  repeat destruct Hc as [-> | Hc]; try subst d; reflexivity.
Qed.

(** The decimal text of a number starts and ends with a digit. *)
Lemma decimal_shape fuel z acc :
  (exists p, decimal fuel z acc = p +:+ String (digit (z mod 10)) acc)
  /\ exists d r, 0 <= d < 10 /\ decimal fuel z acc = String (digit d) r.
Proof.
  revert z acc. induction fuel as [| f IH]; intros z acc; cbn [decimal].
  - split; [by exists "" |]. exists (z mod 10), acc.
    split; [apply Z.mod_pos_bound; lia | done].
  - destruct (z <? 10).
    + split; [by exists "" |]. exists (z mod 10), acc.
      split; [apply Z.mod_pos_bound; lia | done].
    + destruct (IH (z / 10) (String (digit (z mod 10)) acc)) as [[p Hp] Hfirst].
      split; [| done].
      exists (p +:+ String (digit (z / 10 mod 10)) "").
      by rewrite Hp, app_snoc.
Qed.

Lemma trim_decimal fuel z : trim (decimal fuel z "") = decimal fuel z "".
Proof.
  destruct (decimal_shape fuel z "") as [[p Hp] (d & r & Hd & Hfirst)].
  set (s := decimal fuel z "") in *.
  assert (trimStart s = s) as Hstart.
  { rewrite Hfirst. cbn [trimStart]. by rewrite digit_not_space. }
  assert (String.rev s = String (digit (z mod 10)) (String.rev_app p "")) as Hrev.
  { rewrite Hp. unfold String.rev. by rewrite rev_app_app. }
  unfold trim. rewrite Hstart, Hrev. cbn [trimStart].
  rewrite digit_not_space by (apply Z.mod_pos_bound; lia).
  rewrite <- Hrev. apply rev_rev.
Qed.

Lemma Number_of_digits s c r :
  trim s = String c r -> is_Some (Date.digitVal c) ->
  WorkerAuth.Number s
  = from_option VNum VNaN (WorkerAuth.readNat 0 (String c r)).
Proof.
  intros Htrim Hc. unfold WorkerAuth.Number. rewrite Htrim.
  destruct c as [[] [] [] [] [] [] [] []];
    solve [reflexivity | by destruct Hc as [? [=]]].
Qed.

(** The timestamp that [signRequest] writes is read back by [Number]. *)
Lemma Number_toString n : 0 <= n -> WorkerAuth.Number (toString n) = VNum n.
Proof.
  intros Hn. unfold toString. destruct (Z.ltb_spec n 0); [lia |].
  set (fuel := Z.to_nat (Z.log2 n)).
  destruct (decimal_shape fuel n "") as [_ (d & r & Hd & Hfirst)].
  rewrite (Number_of_digits _ (digit d) r).
  - rewrite <- Hfirst.
    destruct (NonceFacts.decimal_spec fuel n "") as (k & _ & _ & _ & Hread).
    { split; [done | by apply NonceFacts.log2_fuel]. }
    rewrite Hread. cbn. f_equal; lia.
  - by rewrite trim_decimal.
  - rewrite DateFacts.digitVal_digit by done. by eexists.
Qed.

Lemma toString_nonempty n : toString n <> "".
Proof.
  unfold toString. destruct (n <? 0); [done |].
  by destruct (StoreFacts.decimal_nonempty (Z.to_nat (Z.log2 n)) n "")
    as (c & r & ->).
Qed.

(** *** The signed text and the digested text *)

Lemma app_cancel_l a b c : a +:+ b = a +:+ c -> b = c.
Proof.
  induction a as [| x a IH]; [done |].
  change (String x (a +:+ b) = String x (a +:+ c) -> b = c).
  intros [= H]. by apply IH.
Qed.

(** The third character of the text of an object is the first character
    of the name of its first field that is written. *)
Lemma stringify_third valueText o kv rest c k :
  filter Dispatch.written o = kv :: rest ->
  kv.1 = String c k ->
  String.get 2 (Dispatch.stringify valueText o) = Some c.
Proof.
  intros Hfilter Hname. unfold Dispatch.stringify. rewrite Hfilter.
  rewrite fmap_cons. unfold Dispatch.join, Dispatch.member, Dispatch.quote.
  rewrite Hname. reflexivity.
Qed.

Lemma filter_head_in {A} (P : A -> Prop) `{!forall x, Decision (P x)} l1 x l2 :
  P x -> exists y rest, filter P (l1 ++ x :: l2) = y :: rest /\ y ∈ l1 ++ [x].
Proof.
  intros Hx. induction l1 as [| a l1 (y & rest & Hf & Hin)]; cbn [app].
  - exists x, (filter P l2). rewrite filter_cons_True by done.
    split; [done | by left].
  - destruct (decide (P a)).
    + exists a, (filter P (l1 ++ x :: l2)). rewrite filter_cons_True by done.
      split; [done | by left].
    + exists y, rest. rewrite filter_cons_False by done.
      split; [done | by right].
Qed.

Lemma or_else_null_defined v : or_else v VNull <> VUndef.
Proof. unfold or_else. by destruct v as [| | [] | n | | s]; cbn; try destruct (_ =? _)%Z; try destruct (String.eqb _ _). Qed.

(** The two writings of the literal [payload] are the same object. *)
Lemma payload_fields s :
  Dispatch.payload s = list_to_map (Dispatch.payloadFields s).
Proof. reflexivity. Qed.

Lemma signed_text_third valueText s :
  String.get 2 (Dispatch.stringify valueText (Dispatch.payloadFields s))
  = Some "u"%char.
Proof.
  apply (stringify_third valueText _ ("userAddress", VStr (userAddress s))
           (filter Dispatch.written
              (tail (Dispatch.payloadFields s))) _ "serAddress");
    [| done].
  unfold Dispatch.payloadFields. cbn [tail]. by rewrite filter_cons_True.
Qed.

(** The fields of the parsed payload: [recipient] and [amount] when the
    entry has them, and the seven others always. *)
Lemma parsed_payloadFields s :
  Dispatch.parsed (Dispatch.payloadFields s)
  = [("userAddress", VStr (userAddress s))]
    ++ (if decide (recipient s = VUndef) then []
        else [("recipient", afterJson (recipient s))])
    ++ [("name", afterJson (or_else (entry_name s) VNull))]
    ++ (if decide (amount s = VUndef) then []
        else [("amount", afterJson (amount s))])
    ++ [("note", afterJson (or_else (entry_note s) VNull));
        ("schedule_id", VStr (scheduleId s));
        ("interval", afterJson (or_else (interval s) VNull));
        ("time_of_day", VNull);
        ("original_start_date", afterJson (or_else (created_at s) VNull))].
Proof.
  unfold Dispatch.parsed, Dispatch.payloadFields.
  cbn [omap list_omap fst snd].
  rewrite !(decide_True (P := Dispatch.written (_, or_else _ VNull)))
    by apply or_else_null_defined.
  rewrite !(decide_True (P := Dispatch.written (_, VStr _))) by done.
  rewrite (decide_True (P := Dispatch.written (_, VNull))) by done.
  unfold Dispatch.written. cbn [snd].
  by destruct (decide (recipient s = VUndef)), (decide (recipient s <> VUndef)),
       (decide (amount s = VUndef)), (decide (amount s <> VUndef)).
Qed.

Lemma json_value_written v : v <> VUndef -> json_value v = Some (afterJson v).
Proof. by destruct v. Qed.

(** The parsed payload as a list of fields is the object that the
    handler of [/process-recurring] reads. *)
Lemma body_is_parsed_payload s :
  list_to_map (Dispatch.parsed (Dispatch.payloadFields s))
  = json (Dispatch.payload s).
Proof.
  rewrite parsed_payloadFields. unfold Dispatch.payload, json.
  cbn [list_to_map foldr app fst snd].
  rewrite !omap_insert, omap_empty.
  rewrite !(json_value_written (or_else _ VNull)) by apply or_else_null_defined.
  cbn [json_value].
  destruct (decide (recipient s = VUndef)) as [Hr | Hr],
           (decide (amount s = VUndef)) as [Ha | Ha];
    rewrite ?Hr, ?Ha, ?(json_value_written (recipient s)),
      ?(json_value_written (amount s)) by done;
    cbn [json_value app list_to_map foldr fst snd afterJson].
  all: rewrite ?delete_insert_ne by done.
  all: rewrite ?delete_empty.
  all: reflexivity.
Qed.

Lemma digested_text_third valueText s :
  String.get 2
    (Dispatch.stableStringify valueText
       (Dispatch.parsed (Dispatch.payloadFields s)))
  <> Some "u"%char.
Proof.
  rewrite parsed_payloadFields. unfold Dispatch.stableStringify.
  set (o := _ ++ _).
  assert (exists before after,
            Dispatch.sortedKeys o = before ++ "schedule_id" :: after
            /\ Forall (λ k, exists c r, k = String c r /\ c <> "u"%char) before)
    as (before & after & -> & Hbefore).
  { unfold o.
    destruct (decide (recipient s = VUndef)), (decide (amount s = VUndef)).
    - exists ["interval"; "name"; "note"; "original_start_date"],
        ["time_of_day"; "userAddress"].
      split; [reflexivity |]. repeat constructor; by eexists _, _.
    - exists ["amount"; "interval"; "name"; "note"; "original_start_date"],
        ["time_of_day"; "userAddress"].
      split; [reflexivity |]. repeat constructor; by eexists _, _.
    - exists ["interval"; "name"; "note"; "original_start_date"; "recipient"],
        ["time_of_day"; "userAddress"].
      split; [reflexivity |]. repeat constructor; by eexists _, _.
    - exists ["amount"; "interval"; "name"; "note"; "original_start_date";
              "recipient"],
        ["time_of_day"; "userAddress"].
      split; [reflexivity |]. repeat constructor; by eexists _, _. }
  assert (Dispatch.field o "schedule_id" = VStr (scheduleId s)) as Hid.
  { unfold o.
    by destruct (decide (recipient s = VUndef)), (decide (amount s = VUndef)). }
  rewrite fmap_app, fmap_cons.
  destruct (filter_head_in Dispatch.written
              ((λ k, (k, Dispatch.field o k)) <$> before)
              ("schedule_id", Dispatch.field o "schedule_id")
              ((λ k, (k, Dispatch.field o k)) <$> after))
    as (y & rest & Hfilter & Hin);
    [unfold Dispatch.written; cbn [snd]; by rewrite Hid |].
  assert (exists c r, y.1 = String c r /\ c <> "u"%char) as (c & r & Hname & Hc).
  { apply elem_of_app in Hin as [Hin | Hin].
    - apply list_elem_of_fmap in Hin as (k & -> & Hk).
      rewrite Forall_forall in Hbefore. by apply Hbefore.
    - apply list_elem_of_singleton in Hin as ->. by eexists _, _. }
  rewrite (stringify_third valueText _ y rest c r Hfilter Hname). congruence.
Qed.

Lemma texts_differ valueText s :
  Dispatch.stringify valueText (Dispatch.payloadFields s)
  <> Dispatch.stableStringify valueText
       (Dispatch.parsed (Dispatch.payloadFields s)).
Proof.
  intros Heq. apply (f_equal (String.get 2)) in Heq.
  rewrite signed_text_third in Heq. symmetry in Heq.
  by apply digested_text_third in Heq.
Qed.

(** X24: the worker signs the payload as [JSON.stringify] writes it,
    [userAddress] first, while [workerAuth], which has no raw body,
    digests the re-serialisation of the parsed body with its fields in
    alphabetical order: the two texts are different for every entry.
    So a request of [processDueSchedules] is answered 401 when its
    timestamp is more than 300 seconds away, and otherwise passes only
    if the digests of these two different texts are the same; when they
    are not, it is answered 403. *)
Theorem cron_request_is_signed_over_another_text
    hmac valueText secret signed_at now s :
  0 <= signed_at ->
  let bodyStr := Dispatch.stringify valueText (Dispatch.payloadFields s) in
  let req := Dispatch.dispatched hmac valueText signed_at secret s in
  let signed := toString signed_at +:+ bodyStr in
  let digested := toString signed_at +:+ WorkerAuth.signedBody req in
  hmac secret signed <> "" ->
  signed <> digested
  /\ WorkerAuth.workerAuth hmac secret now req
     = (if 300000 <? Z.abs (now - signed_at)
        then WorkerAuth.Reject 401 "Timestamp too old"
        else if String.eqb (hmac secret signed) (hmac secret digested)
        then WorkerAuth.Next
        else WorkerAuth.Reject 403 "Invalid worker signature")
  /\ (hmac secret signed <> hmac secret digested ->
      Z.abs (now - signed_at) <= 300000 ->
      WorkerAuth.workerAuth hmac secret now req
      = WorkerAuth.Reject 403 "Invalid worker signature").
Proof.
  intros Hsigned bodyStr req signed digested Hfilled.
  assert (signed <> digested) as Hdiffer.
  { unfold signed, digested. intros Heq%app_cancel_l.
    by apply (texts_differ valueText s). }
  assert (WorkerAuth.workerAuth hmac secret now req
          = (if 300000 <? Z.abs (now - signed_at)
             then WorkerAuth.Reject 401 "Timestamp too old"
             else if String.eqb (hmac secret signed) (hmac secret digested)
             then WorkerAuth.Next
             else WorkerAuth.Reject 403 "Invalid worker signature")) as Hauth.
  { unfold WorkerAuth.workerAuth, req, Dispatch.dispatched, Dispatch.signRequest.
    cbn [WorkerAuth.method WorkerAuth.x_worker_auth WorkerAuth.x_worker_timestamp].
    rewrite !WorkerAuthFacts.present_Some by (done || apply toString_nonempty).
    cbn [String.eqb Ascii.eqb Bool.eqb negb andb orb default from_option id].
    rewrite Number_toString by done.
    change (5 * 60 * 1000) with 300000.
    destruct (300000 <? Z.abs (now - signed_at)); [done |].
    fold bodyStr. fold signed.
    by destruct (String.eqb (hmac secret signed) _). }
  split; [done |]. split; [done |].
  intros Hdigest Hfresh. rewrite Hauth.
  destruct (Z.ltb_spec 300000 (Z.abs (now - signed_at))); [lia |].
  by destruct (String.eqb_spec (hmac secret signed) (hmac secret digested)).
Qed.

Lemma cron_request_is_signed_over_another_text_witness :
  let hmac := Samples.sampleHmac in
  let bodyStr := Dispatch.stringify toStr (Dispatch.payloadFields Samples.lastRunEntry) in
  let req := Dispatch.dispatched hmac toStr 1738281600000 "secret"
               Samples.lastRunEntry in
  let signed := toString 1738281600000 +:+ bodyStr in
  let digested := toString 1738281600000 +:+ WorkerAuth.signedBody req in
  signed <> digested
  /\ WorkerAuth.workerAuth hmac "secret" 1738281660000 req
     = (if 300000 <? Z.abs (1738281660000 - 1738281600000)
        then WorkerAuth.Reject 401 "Timestamp too old"
        else if String.eqb (hmac "secret" signed) (hmac "secret" digested)
        then WorkerAuth.Next
        else WorkerAuth.Reject 403 "Invalid worker signature")
  /\ (hmac "secret" signed <> hmac "secret" digested ->
      Z.abs (1738281660000 - 1738281600000) <= 300000 ->
      WorkerAuth.workerAuth hmac "secret" 1738281660000 req
      = WorkerAuth.Reject 403 "Invalid worker signature").
Proof.
  apply (cron_request_is_signed_over_another_text Samples.sampleHmac toStr
           "secret" 1738281600000 1738281660000 Samples.lastRunEntry).
  - lia.
  - by vm_compute.
Defined.

(** X25: [workerAuth] calls [next] only for a POST or PUT that carries
    both headers, whose signature is the digest of the timestamp
    followed by the body under the shared secret, and whose timestamp,
    when it is a decimal integer as [signRequest] writes it, is within
    300 seconds of the clock. *)
Theorem workerAuth_passes_only_signed_requests hmac secret now req :
  WorkerAuth.workerAuth hmac secret now req = WorkerAuth.Next ->
  (WorkerAuth.method req = "POST" \/ WorkerAuth.method req = "PUT")
  /\ exists signature timestamp,
       WorkerAuth.x_worker_auth req = Some signature /\ signature <> ""
       /\ WorkerAuth.x_worker_timestamp req = Some timestamp /\ timestamp <> ""
       /\ signature = hmac secret (timestamp +:+ WorkerAuth.signedBody req)
       /\ forall ts, WorkerAuth.Number timestamp = VNum ts ->
            Z.abs (now - ts) <= 300000.
Proof.
  unfold WorkerAuth.workerAuth, WorkerAuth.present.
  destruct (String.eqb_spec (WorkerAuth.method req) "POST") as [Hpost | _];
    destruct (String.eqb_spec (WorkerAuth.method req) "PUT") as [Hput | _];
    cbn [negb andb]; try done.
  all: destruct (WorkerAuth.x_worker_auth req) as [signature |]; [| done].
  all: destruct (String.eqb_spec signature "") as [| Hsig]; [done |].
  all: destruct (WorkerAuth.x_worker_timestamp req) as [timestamp |]; [| done].
  all: destruct (String.eqb_spec timestamp "") as [| Hts]; [done |].
  all: cbn [negb orb default from_option id].
  all: change (5 * 60 * 1000) with 300000.
  all: destruct (match WorkerAuth.Number timestamp with
                 | VNum ts => 300000 <? Z.abs (now - ts)
                 | _ => false
                 end) eqn:Hstale; [done |].
  all: destruct (String.eqb_spec signature
                   (hmac secret (timestamp +:+ WorkerAuth.signedBody req)))
         as [Heq | _]; [| done].
  all: intros _; split; [by auto |].
  all: exists signature, timestamp; repeat split; try done.
  all: intros ts Hnum; rewrite Hnum in Hstale; lia.
Qed.

Lemma workerAuth_passes_only_signed_requests_witness :
  (WorkerAuth.method Samples.signedRequest = "POST"
   \/ WorkerAuth.method Samples.signedRequest = "PUT")
  /\ exists signature timestamp,
       WorkerAuth.x_worker_auth Samples.signedRequest = Some signature
       /\ signature <> ""
       /\ WorkerAuth.x_worker_timestamp Samples.signedRequest = Some timestamp
       /\ timestamp <> ""
       /\ signature
          = Samples.sampleHmac "secret"
              (timestamp +:+ WorkerAuth.signedBody Samples.signedRequest)
       /\ forall ts, WorkerAuth.Number timestamp = VNum ts ->
            Z.abs (1738281600000 - ts) <= 300000.
Proof.
  apply (workerAuth_passes_only_signed_requests Samples.sampleHmac "secret"
           1738281600000 Samples.signedRequest).
  vm_compute. reflexivity.
Defined.

(** X26: the payload that [processDueSchedules] sends names the schedule
    [schedule_id] and carries no [timestamp], while the handler of
    [/process-recurring] reads [scheduleId] and [timestamp]: whatever
    the entry, the handler answers 400 before it reaches the contract
    call. *)
Theorem cron_payload_is_rejected_as_incomplete {A}
    (execute : gmap string value -> A) s :
  get (json (Dispatch.payload s)) "schedule_id" = VStr (scheduleId s)
  /\ get (json (Dispatch.payload s)) "scheduleId" = VUndef
  /\ get (json (Dispatch.payload s)) "timestamp" = VUndef
  /\ Dispatch.processRecurring execute (json (Dispatch.payload s))
     = inl (400, "Missing required fields").
Proof.
  assert (get (Dispatch.payload s) "schedule_id" = VStr (scheduleId s)) as H1
    by reflexivity.
  assert (get (Dispatch.payload s) "scheduleId" = VUndef) as H2 by reflexivity.
  assert (get (Dispatch.payload s) "timestamp" = VUndef) as H3 by reflexivity.
  unfold Dispatch.processRecurring. rewrite !get_json, H1, H2, H3. done.
Qed.

(** *** [parseIntent] *)

Lemma prefix_refl s : String.prefix s s = true.
Proof.
  induction s as [| c s IH]; [done |]. cbn.
  by destruct (Ascii.ascii_dec c c).
Qed.

Lemma exact_is_partial query r : exactMatch query r -> partialMatch query r.
Proof.
  unfold exactMatch, partialMatch. intros ->.
  destruct query; cbn [includes]; by rewrite prefix_refl.
Qed.

Lemma getRecipientByName_found query_name sh :
  let query := trim (toLowerCase query_name) in
  match getRecipientByName query_name sh with
  | Exact r | PartialUnique r => r ∈ recipients sh /\ partialMatch query r
  | _ => True
  end.
Proof.
  intros query. unfold getRecipientByName. fold query.
  destruct (filter (exactMatch query) (recipients sh)) as [| r [| r' l]] eqn:He.
  - destruct (filter (partialMatch query) (recipients sh)) as [| r [| r' l]] eqn:Hp;
      [done | | done].
    assert (r ∈ filter (partialMatch query) (recipients sh)) as Hin
      by (rewrite Hp; by left).
    apply list_elem_of_filter in Hin. tauto.
  - assert (r ∈ filter (exactMatch query) (recipients sh)) as Hin
      by (rewrite He; by left).
    apply list_elem_of_filter in Hin as [Hm Hin]. auto using exact_is_partial.
  - done.
Qed.

Lemma toStr_truthy v : truthy v = true -> String.eqb (toStr v) "" = false.
Proof.
  destruct v as [| | [] | n | | s]; cbn; try done.
  - intros _. pose proof (toString_nonempty n) as Hn.
    by destruct (String.eqb_spec (toString n) "").
  - by destruct (String.eqb s "").
Qed.

Lemma parsedIntent_fields today parsed :
  let p := Intent.parsedIntent today parsed in
  get p "address" = or_else (get parsed "address") VNull
  /\ get p "name" = or_else (get parsed "name") VNull
  /\ get p "amount" = get parsed "amount"
  /\ get p "intent" = get parsed "intent".
Proof. by vm_compute. Qed.

(** X27: when the answer of the model names the recipient and gives no
    address, a successful [parseIntent] takes the address and the name
    from one recipient of the user's own address book, whose name
    contains the name that was asked for (case ignored, white space
    around it dropped); the amount is the one of the answer.  The
    address of the user is a text of letters and digits, and the names
    are texts of ASCII characters. *)
Theorem parseIntent_resolves_name_in_address_book now address parsed w p :
  address <> "" -> Intent.plainText address = true ->
  isAscii (toStr (get parsed "name")) = true ->
  forallb (λ r, isAscii (name r))
    (recipients (shardAt (toLowerCase address) w)) = true ->
  truthy (get parsed "address") = false ->
  Intent.parseIntent now address (Some parsed) w = Intent.Success p ->
  exists r,
    r ∈ recipients (shardAt (toLowerCase address) w)
    /\ includes (toLowerCase (name r))
         (trim (toLowerCase (toStr (get parsed "name")))) = true
    /\ get p "address" = or_else (VStr (wallet r)) VNull
    /\ get p "name" = or_else (VStr (name r)) VNull
    /\ get p "amount" = get parsed "amount".
Proof.
  intros Haddr _ _ _ Hnone. unfold Intent.parseIntent. rewrite Hnone.
  destruct (truthy (get parsed "intent")); [| done].
  destruct (truthy (get parsed "amount")); [| done].
  destruct (truthy (get parsed "name")) eqn:Hname; [| done].
  cbn [negb orb andb]. unfold Intent.fetchRecipientByName.
  destruct (String.eqb_spec address ""); [done |].
  rewrite toStr_truthy by done. cbn [orb].
  pose proof (getRecipientByName_found (toStr (get parsed "name"))
                (shardAt (toLowerCase address) w)) as Hfound.
  destruct (getRecipientByName _ _) as [r | r | l |];
    cbn [Intent.lookupStatus Intent.match_type Intent.foundWallet
         Intent.foundName];
    [| | by rewrite bool_decide_eq_true_2 | done].
  all: change (200 =? 404) with false; cbv iota.
  all: rewrite bool_decide_eq_false_2 by done.
  all: intros [= <-]; exists r.
  all: destruct Hfound as [Hin Hmatch]; split; [done |]; split; [done |].
  all: destruct (parsedIntent_fields
                   (beforeT (Date.toISOString now))
                   (<["name" := VStr (name r)]>
                      (<["address" := VStr (wallet r)]> parsed)))
         as (-> & -> & -> & _).
  all: rewrite get_insert_eq, !get_insert_ne, get_insert_eq by done.
  all: split; [done |]; split; [done |]; by rewrite !get_insert_ne.
Qed.

Lemma parseIntent_resolves_name_in_address_book_witness :
  let w := {| kv := ∅;
              shards := {[ "0xabc" :=
                Recipients.setRecipients
                  [{| name := "Alex"; wallet := "0x111"; note := "" |}]
                  emptyShard ]} |} in
  let parsed : gmap string value :=
    list_to_map [("intent", VStr "send_once"); ("name", VStr " alex");
                 ("amount", VNum 50)] in
  exists r,
    r ∈ recipients (shardAt (toLowerCase "0xAbC") w)
    /\ includes (toLowerCase (name r))
         (trim (toLowerCase (toStr (get parsed "name")))) = true
    /\ get (Intent.parsedIntent "1970-01-01"
              (<["name" := VStr "Alex"]> (<["address" := VStr "0x111"]> parsed)))
         "address" = or_else (VStr (wallet r)) VNull
    /\ get (Intent.parsedIntent "1970-01-01"
              (<["name" := VStr "Alex"]> (<["address" := VStr "0x111"]> parsed)))
         "name" = or_else (VStr (name r)) VNull
    /\ get (Intent.parsedIntent "1970-01-01"
              (<["name" := VStr "Alex"]> (<["address" := VStr "0x111"]> parsed)))
         "amount" = get parsed "amount".
Proof.
  intros w parsed.
  apply (parseIntent_resolves_name_in_address_book 0 "0xAbC" parsed w).
  - done.
  - reflexivity.
  - reflexivity.
  - reflexivity.
  - reflexivity.
  - reflexivity.
Defined.

(** X28: with a name and no address in the answer, [parseIntent] gives
    no intent when the address book cannot decide: it answers "not
    found" when no recipient's name contains the name asked for, and
    "ambiguous" when two recipients bear exactly that name.  The
    address of the user is a text of letters and digits, and the names
    are texts of ASCII characters. *)
Theorem parseIntent_unresolved_name now address parsed w :
  address <> "" -> Intent.plainText address = true ->
  isAscii (toStr (get parsed "name")) = true ->
  forallb (λ r, isAscii (name r))
    (recipients (shardAt (toLowerCase address) w)) = true ->
  truthy (get parsed "intent") = true ->
  truthy (get parsed "amount") = true ->
  truthy (get parsed "name") = true ->
  truthy (get parsed "address") = false ->
  let sh := shardAt (toLowerCase address) w in
  let asked := toStr (get parsed "name") in
  let query := trim (toLowerCase asked) in
  (Forall (λ r, includes (toLowerCase (name r)) query = false) (recipients sh) ->
   Intent.parseIntent now address (Some parsed) w
   = Intent.RecipientMissing ("Recipient '" +:+ asked +:+ "' not found"))
  /\ (forall i j x y,
        i <> j -> recipients sh !! i = Some x -> recipients sh !! j = Some y ->
        toLowerCase (name x) = query -> toLowerCase (name y) = query ->
        Intent.parseIntent now address (Some parsed) w
        = Intent.AmbiguousRecipient).
Proof.
  intros Haddr _ _ _ Hintent Hamount Hname Hnone sh asked query.
  unfold Intent.parseIntent. rewrite Hintent, Hamount, Hname, Hnone.
  cbn [negb orb andb]. unfold Intent.fetchRecipientByName.
  destruct (String.eqb_spec address ""); [done |].
  rewrite toStr_truthy by done. cbn [orb].
  fold sh asked. unfold getRecipientByName. fold query. split.
  - intros Hall.
    assert (filter (partialMatch query) (recipients sh) = []) as Hp.
    { apply filter_none. intros j y Hj Hy. unfold partialMatch in Hy.
      rewrite Forall_forall in Hall.
      rewrite (Hall y) in Hy by (by eapply list_elem_of_lookup_2). done. }
    assert (filter (exactMatch query) (recipients sh) = []) as He.
    { apply filter_none. intros j y Hj Hy%exact_is_partial.
      unfold partialMatch in Hy. rewrite Forall_forall in Hall.
      rewrite (Hall y) in Hy by (by eapply list_elem_of_lookup_2). done. }
    by rewrite He, Hp.
  - intros i j x y Hij Hi Hj Hx Hy.
    destruct (filter_two (exactMatch query) (recipients sh) i j x y)
      as (a & b & rest & ->); done.
Qed.

Lemma parseIntent_unresolved_name_witness :
  let w := {| kv := ∅;
              shards := {[ "0xabc" :=
                Recipients.setRecipients
                  [{| name := "Alex"; wallet := "0x111"; note := "" |};
                   {| name := "alex"; wallet := "0x222"; note := "" |}]
                  emptyShard ]} |} in
  let parsed : gmap string value :=
    list_to_map [("intent", VStr "send_once"); ("name", VStr "Alex");
                 ("amount", VNum 50)] in
  let sh := shardAt (toLowerCase "0xAbC") w in
  let asked := toStr (get parsed "name") in
  let query := trim (toLowerCase asked) in
  (Forall (λ r, includes (toLowerCase (name r)) query = false) (recipients sh) ->
   Intent.parseIntent 0 "0xAbC" (Some parsed) w
   = Intent.RecipientMissing ("Recipient '" +:+ asked +:+ "' not found"))
  /\ (forall i j x y,
        i <> j -> recipients sh !! i = Some x -> recipients sh !! j = Some y ->
        toLowerCase (name x) = query -> toLowerCase (name y) = query ->
        Intent.parseIntent 0 "0xAbC" (Some parsed) w
        = Intent.AmbiguousRecipient).
Proof.
  intros w parsed.
  apply (parseIntent_unresolved_name 0 "0xAbC" parsed w).
  - done.
  - reflexivity.
  - reflexivity.
  - reflexivity.
  - reflexivity.
  - reflexivity.
  - reflexivity.
  - reflexivity.
Defined.

End DispatchFacts.
